(** * Trail-Mate: the trip info tab and the home screen

    A shallow embedding of the asynchronous logic of
    [src/app/components/trip-tabs/info-tab.tsx] (the [InfoTab] component:
    [fetchTripInfo], [fetchWeather] and the render function) and of the home
    screen that follows it in the same source file ([fetchPlans],
    [fetchTrips], [handleDeletePlan], [formatDateRange]).

    JavaScript values are an inductive type, React state is a record, the
    device stores and the backend tables are finite maps, and every [async]
    function is a computation in a state-and-exception monad over the pair of
    the component state and the outside world. *)

From Stdlib Require Import ZArith String Ascii List Sorted Permutation Lia Bool.
From stdpp Require Import base option gmap strings list fin_maps pretty.

Set Warnings "-register-all".
Local Open Scope string_scope.
Local Open Scope Z_scope.

(** ** JavaScript values *)

(** A value as [JSON.parse], a backend row or an [any]-typed state holds it.
    A number is represented by its canonical text, the string
    [Number.prototype.toString] gives for it (["37.77"], ["0"], ["NaN"]):
    the code below only tests numbers for truthiness and prints them. *)
Inductive JsValue : Type :=
| JUndefined
| JNull
| JBool (b : bool)
| JNum (canonical : string)
| JStr (s : string)
| JArr (items : list JsValue)
| JObj (fields : list (string * JsValue)).

(** What a thrown value is: a [TypeError] of the language, a rejection of a
    host call (storage, network, backend), or the value of a [throw]
    statement. *)
Inductive Exn : Type :=
| TypeError (what : string)
| Rejected (what : string)
| Thrown (value : JsValue).

Inductive Outcome (A : Type) : Type :=
| Ok (a : A)
| Throw (e : Exn).
Arguments Ok {A} a.
Arguments Throw {A} e.

(** Sequencing of expressions that may throw. *)
Definition bind_outcome {A B} (o : Outcome A) (f : A -> Outcome B) : Outcome B :=
  match o with
  | Ok a => f a
  | Throw e => Throw e
  end.

Notation "'let?' x := o 'in' k" := (bind_outcome o (fun x => k))
  (at level 10, x name, o at level 100, k at level 200).

Definition string_eqb (a b : string) : bool := bool_decide (a = b).

(** [ToBoolean]: the test of [if (v)], [!v], [v && w], [v || w], [v ? a : b]. *)
Definition truthy (v : JsValue) : bool :=
  match v with
  | JUndefined | JNull => false
  | JBool b => b
  | JNum t => negb (string_eqb t "0" || string_eqb t "NaN")
  | JStr s => negb (string_eqb s "")
  | JArr _ | JObj _ => true
  end.

Definition is_nullish (v : JsValue) : bool :=
  match v with
  | JUndefined | JNull => true
  | _ => false
  end.

(** [ToString], as a template literal [`${v}`] applies it. An array prints
    its elements joined by commas, with [null] and [undefined] elements
    printing as the empty string. *)
Fixpoint toStringJs (v : JsValue) : string :=
  match v with
  | JUndefined => "undefined"
  | JNull => "null"
  | JBool true => "true"
  | JBool false => "false"
  | JNum t => t
  | JStr s => s
  | JArr items =>
      (fix join (l : list JsValue) : string :=
         match l with
         | [] => ""
         | x :: rest =>
             let sx := if is_nullish x then "" else toStringJs x in
             match rest with
             | [] => sx
             | _ :: _ => sx ++ "," ++ join rest
             end
         end) items
  | JObj _ => "[object Object]"
  end.

(** The first binding of a key in a property list. *)
Fixpoint assoc (k : string) (fields : list (string * JsValue)) : option JsValue :=
  match fields with
  | [] => None
  | (k', v) :: rest => if string_eqb k k' then Some v else assoc k rest
  end.

(** [o[k] = v] on a property list: an existing key keeps its place. *)
Fixpoint assoc_set (k : string) (v : JsValue) (fields : list (string * JsValue))
  : list (string * JsValue) :=
  match fields with
  | [] => [(k, v)]
  | (k', v') :: rest =>
      if string_eqb k k' then (k, v) :: rest else (k', v') :: assoc_set k v rest
  end.

(** [v.k] where [v] is known not to be [null] or [undefined]: an own data
    property of an object, [undefined] on anything else. *)
Definition prop (k : string) (v : JsValue) : JsValue :=
  match v with
  | JObj fields => default JUndefined (assoc k fields)
  | _ => JUndefined
  end.

(** [v.k]: reading a property of [null] or [undefined] throws. *)
Definition get (k : string) (v : JsValue) : Outcome JsValue :=
  if is_nullish v then Throw (TypeError ("Cannot read properties of " ++ toStringJs v ++ " (reading '" ++ k ++ "')"))
  else Ok (prop k v).

(** [v?.k]: [undefined] on [null] and [undefined], never throws. *)
Definition get_opt (k : string) (v : JsValue) : JsValue :=
  if is_nullish v then JUndefined else prop k v.

(** [v[0]] where [v] is not nullish. *)
Definition index0 (v : JsValue) : JsValue :=
  match v with
  | JArr (x :: _) => x
  | JStr (String c _) => JStr (String c "")
  | JObj fields => default JUndefined (assoc "0" fields)
  | _ => JUndefined
  end.

Definition get_index0 (v : JsValue) : Outcome JsValue :=
  if is_nullish v then Throw (TypeError ("Cannot read properties of " ++ toStringJs v ++ " (reading '0')"))
  else Ok (index0 v).

Definition isArray (v : JsValue) : bool :=
  match v with
  | JArr _ => true
  | _ => false
  end.

(** The index properties of an array or of a string, from index [i] on. *)
Fixpoint indexed (i : nat) (items : list JsValue) : list (string * JsValue) :=
  match items with
  | [] => []
  | x :: rest => (pretty i, x) :: indexed (S i) rest
  end.

Fixpoint chars (s : string) : list JsValue :=
  match s with
  | EmptyString => []
  | String c rest => JStr (String c EmptyString) :: chars rest
  end.

(** [{ ...target, ...src }] on property lists: the own properties of an
    object, the index properties of an array or a string, nothing for any
    other value. *)
Definition spread_into (src : JsValue) (target : list (string * JsValue))
  : list (string * JsValue) :=
  let own := match src with
             | JObj fields => fields
             | JArr items => indexed 0 items
             | JStr s => indexed 0 (chars s)
             | _ => []
             end in
  fold_left (fun acc kv => assoc_set (fst kv) (snd kv) acc) own target.

(** ** Computations: state and exceptions *)

(** An [async] function body: it reads and updates a state [S], and either
    returns a value or throws. What it did to the state before throwing
    stays done. *)
Definition Eff (S A : Type) : Type := S -> Outcome A * S.

#[global] Instance Eff_ret {S} : MRet (Eff S) := fun A a s => (Ok a, s).
#[global] Instance Eff_bind {S} : MBind (Eff S) := fun A B f m s =>
  match m s with
  | (Ok a, s') => f a s'
  | (Throw e, s') => (Throw e, s')
  end.

Definition throw {S A} (e : Exn) : Eff S A := fun s => (Throw e, s).

Definition lift {S A} (o : Outcome A) : Eff S A := fun s => (o, s).

Definition gets {S A} (f : S -> A) : Eff S A := fun s => (Ok (f s), s).

Definition modify {S} (f : S -> S) : Eff S unit := fun s => (Ok tt, f s).

(** [try { body } catch (e) { handler e }]. *)
Definition try_catch {S A} (body : Eff S A) (handler : Exn -> Eff S A) : Eff S A :=
  fun s =>
    match body s with
    | (Ok a, s') => (Ok a, s')
    | (Throw e, s') => handler e s'
    end.

(** [try { body } finally { fin }]: [fin] runs on both exits, and the
    outcome of [body] stands unless [fin] throws. *)
Definition try_finally {S A} (body : Eff S A) (fin : Eff S unit) : Eff S A :=
  fun s =>
    match body s with
    | (r, s') =>
        match fin s' with
        | (Ok _, s'') => (r, s'')
        | (Throw e, s'') => (Throw e, s'')
        end
    end.

(** [for (const x of xs) { body x }]. *)
Fixpoint for_of {S A} (xs : list A) (body : A -> Eff S unit) : Eff S unit :=
  match xs with
  | [] => mret tt
  | x :: rest => _ ← body x; for_of rest body
  end.

(** ** The world outside the components *)

(** What the app does that an observer outside sees. *)
Inductive Event : Type :=
| ConsoleLog (msg : string)
| ConsoleError (msg : string)
| SupabaseRequest (table op : string)
| HttpGet (url : string)
| AlertShown (title msg : string).

(** The device stores and the backend tables. [events] is the history,
    oldest first. *)
Record World : Type := {
  asyncStorage : gmap string string;
  trailCache : gmap string JsValue;
  weatherCache : gmap string JsValue;
  chatCache : gmap string JsValue;
  tripsTable : gmap string JsValue;
  plansTable : gmap string JsValue;
  events : list Event;
}.

(** A component's state together with the world it runs in. *)
Record Sys (C : Type) : Type := { comp : C; world : World }.
Arguments comp {C} s.
Arguments world {C} s.

Definition with_world {C} (f : World -> World) (s : Sys C) : Sys C :=
  {| comp := comp s; world := f (world s) |}.

Definition with_comp {C} (f : C -> C) (s : Sys C) : Sys C :=
  {| comp := f (comp s); world := world s |}.

Definition emit (e : Event) (w : World) : World :=
  {| asyncStorage := asyncStorage w; trailCache := trailCache w;
     weatherCache := weatherCache w; chatCache := chatCache w;
     tripsTable := tripsTable w; plansTable := plansTable w;
     events := events w ++ [e] |}.

Definition set_asyncStorage (m : gmap string string) (w : World) : World :=
  {| asyncStorage := m; trailCache := trailCache w;
     weatherCache := weatherCache w; chatCache := chatCache w;
     tripsTable := tripsTable w; plansTable := plansTable w;
     events := events w |}.

Definition set_trailCache (m : gmap string JsValue) (w : World) : World :=
  {| asyncStorage := asyncStorage w; trailCache := m;
     weatherCache := weatherCache w; chatCache := chatCache w;
     tripsTable := tripsTable w; plansTable := plansTable w;
     events := events w |}.

Definition set_weatherCache (m : gmap string JsValue) (w : World) : World :=
  {| asyncStorage := asyncStorage w; trailCache := trailCache w;
     weatherCache := m; chatCache := chatCache w;
     tripsTable := tripsTable w; plansTable := plansTable w;
     events := events w |}.

Definition set_chatCache (m : gmap string JsValue) (w : World) : World :=
  {| asyncStorage := asyncStorage w; trailCache := trailCache w;
     weatherCache := weatherCache w; chatCache := m;
     tripsTable := tripsTable w; plansTable := plansTable w;
     events := events w |}.

Definition set_tripsTable (m : gmap string JsValue) (w : World) : World :=
  {| asyncStorage := asyncStorage w; trailCache := trailCache w;
     weatherCache := weatherCache w; chatCache := chatCache w;
     tripsTable := m; plansTable := plansTable w;
     events := events w |}.

Definition set_plansTable (m : gmap string JsValue) (w : World) : World :=
  {| asyncStorage := asyncStorage w; trailCache := trailCache w;
     weatherCache := weatherCache w; chatCache := chatCache w;
     tripsTable := tripsTable w; plansTable := m;
     events := events w |}.

(** How a request that changes the backend ends: it succeeds, the backend
    answers with an error object, or the call itself rejects. *)
Inductive Reply : Type :=
| Success
| ErrorReply (msg : string)
| CallRejects (msg : string).

(** What the outside answers during one run of an [async] function. The
    answers to reads are arbitrary; writes act on the [World]. *)
Record Env : Type := {
  (* AsyncStorage *)
  setItem_rejects : bool;
  getItem_rejects : bool;
  (* supabase.from('trips').select().eq('trip_id', id): the [data] of the
     answer ([None] is [null]), or a rejected call *)
  select_trip : string -> Outcome (option (list JsValue));
  (* fetch(url) followed by response.json() *)
  http_get_json : string -> Outcome JsValue;
  (* supabase.auth.getUser(): the user and the error of the answer *)
  auth_getUser : Outcome (JsValue * JsValue);
  (* supabase.from('plans').select('*').eq('userId', id): data and error *)
  select_plans : JsValue -> Outcome (option (list JsValue) * JsValue);
  (* supabase.from('trips').select('*').eq('userId', id).eq('bookmarked', true) *)
  select_bookmarked_trips : JsValue -> Outcome (option (list JsValue) * JsValue);
  (* supabase.from('plans').select('plan_id, preferences, tripIds').eq('userId', id) *)
  select_plan_dates : JsValue -> Outcome (option (list JsValue) * JsValue);
  (* supabase.from('plans').select('tripIds').eq('plan_id', id).single() *)
  select_plan_tripIds : string -> Outcome (JsValue * JsValue);
  delete_trips_reply : Reply;
  delete_plan_reply : Reply;
}.

Section WorldCalls.
Context {C : Type}.

Definition console_log (msg : string) : Eff (Sys C) unit :=
  modify (with_world (emit (ConsoleLog msg))).

Definition console_error (msg : string) : Eff (Sys C) unit :=
  modify (with_world (emit (ConsoleError msg))).

(** [AsyncStorage.setItem(key, value)]. *)
Definition AsyncStorage_setItem (env : Env) (key value : string) : Eff (Sys C) unit :=
  if setItem_rejects env then throw (Rejected "AsyncStorage.setItem")
  else modify (with_world (fun w => set_asyncStorage (<[key := value]> (asyncStorage w)) w)).

(** [AsyncStorage.getItem(key)]: the stored string, or [null]. *)
Definition AsyncStorage_getItem (env : Env) (key : string) : Eff (Sys C) (option string) :=
  if getItem_rejects env then throw (Rejected "AsyncStorage.getItem")
  else gets (fun s => asyncStorage (world s) !! key).

(** Modelled from the spec: [getCachedTrailData] of
    [services/cacheService], which is not among the sources. The spec
    describes the cache as a key-value store of JSON blobs read by simple
    key lookup, with no eviction and no invalidation: the stored blob, or
    [null] when the key holds none. *)
Definition getCachedTrailData (key : string) : Eff (Sys C) JsValue :=
  gets (fun s => default JNull (trailCache (world s) !! key)).

(** Modelled from the spec: [cacheTrailData] of [services/cacheService]
    (key-value set of a JSON blob). *)
Definition cacheTrailData (key : string) (data : JsValue) : Eff (Sys C) unit :=
  modify (with_world (fun w => set_trailCache (<[key := data]> (trailCache w)) w)).

(** Modelled from the spec: [getCachedWeatherData] of
    [services/cacheService] (key-value get of a JSON blob, [null] when the
    key holds none). *)
Definition getCachedWeatherData (key : string) : Eff (Sys C) JsValue :=
  gets (fun s => default JNull (weatherCache (world s) !! key)).

(** Modelled from the spec: [cacheWeatherData] of [services/cacheService]
    (key-value set of a JSON blob). *)
Definition cacheWeatherData (key : string) (data : JsValue) : Eff (Sys C) unit :=
  modify (with_world (fun w => set_weatherCache (<[key := data]> (weatherCache w)) w)).

(** Modelled from the spec: [deleteCachedTrailData] of
    [services/cacheService] (removal of a key). *)
Definition deleteCachedTrailData (key : string) : Eff (Sys C) unit :=
  modify (with_world (fun w => set_trailCache (delete key (trailCache w)) w)).

(** Modelled from the spec: [deleteCachedChatMessages] of
    [services/cacheService] (removal of a key). *)
Definition deleteCachedChatMessages (key : string) : Eff (Sys C) unit :=
  modify (with_world (fun w => set_chatCache (delete key (chatCache w)) w)).

(** A [select] of the backend: the request is seen outside, the answer is
    the environment's. *)
Definition supabase_select {A} (table : string) (answer : Outcome A) : Eff (Sys C) A :=
  _ ← modify (with_world (emit (SupabaseRequest table "select")));
  lift answer.

(** [fetch(url)] and [response.json()]. *)
Definition fetch_json (env : Env) (url : string) : Eff (Sys C) JsValue :=
  _ ← modify (with_world (emit (HttpGet url)));
  lift (http_get_json env url).
End WorldCalls.

(** ** Strings *)

Definition lower_ascii (c : ascii) : ascii :=
  let n := nat_of_ascii c in
  if ((65 <=? n) && (n <=? 90))%nat then ascii_of_nat (n + 32) else c.

Definition upper_ascii (c : ascii) : ascii :=
  let n := nat_of_ascii c in
  if ((97 <=? n) && (n <=? 122))%nat then ascii_of_nat (n - 32) else c.

(** [s.toLowerCase()], on the ASCII letters. *)
Fixpoint toLowerCase (s : string) : string :=
  match s with
  | EmptyString => EmptyString
  | String c rest => String (lower_ascii c) (toLowerCase rest)
  end.

(** [s.charAt(0).toUpperCase() + s.slice(1)]. *)
Definition capitalize (s : string) : string :=
  match s with
  | EmptyString => EmptyString
  | String c rest => String (upper_ascii c) rest
  end.

Fixpoint starts_with (p s : string) : bool :=
  match p, s with
  | EmptyString, _ => true
  | String a p', String b s' => Ascii.eqb a b && starts_with p' s'
  | String _ _, EmptyString => false
  end.

(** [hay.includes(needle)]. *)
Fixpoint includes (needle hay : string) : bool :=
  starts_with needle hay ||
  match hay with
  | EmptyString => false
  | String _ rest => includes needle rest
  end.

(** [s.split(" ")]. *)
Fixpoint split_spaces (s : string) : list string :=
  match s with
  | EmptyString => [EmptyString]
  | String c rest =>
      if Ascii.eqb c " "%char then EmptyString :: split_spaces rest
      else match split_spaces rest with
           | [] => [String c EmptyString]
           | w :: ws => String c w :: ws
           end
  end.

(** [words.join(" ")]. *)
Fixpoint join_spaces (words : list string) : string :=
  match words with
  | [] => EmptyString
  | [w] => w
  | w :: rest => w ++ " " ++ join_spaces rest
  end.

(** [s.slice(0, -1)]: all but the last character. *)
Fixpoint drop_last (s : string) : string :=
  match s with
  | EmptyString => EmptyString
  | String c EmptyString => EmptyString
  | String c rest => String c (drop_last rest)
  end.

(** ** The host: dates, locale, the weather key and the temperature hook *)

(** The time value of a [Date] object, in milliseconds since 1 January 1970
    UTC; [None] is the [NaN] of an invalid date. *)
Definition TimeValue : Type := option Z.

(** The two option sets [toLocaleDateString("en-US", ...)] is called with. *)
Inductive DateFormat : Type :=
| MonthDayYear   (* { month: "short", day: "numeric", year: "numeric" } *)
| MonthDay.      (* { month: "short", day: "numeric" } *)

(** What the JavaScript engine, its locale data and the imported modules
    that are not among the sources compute. The [Date] constructor and
    [toDateString] never throw on these arguments; the locale-aware
    formatters are allowed to. *)
Class Host : Type := {
  (* process.env.EXPO_PUBLIC_OPENWEATHER_API_KEY, non-empty by the check
     at the top of the module *)
  apiKey : string;
  (* new Date(v) *)
  Date_new : JsValue -> TimeValue;
  (* new Date(v * 1000) *)
  Date_of_seconds : JsValue -> TimeValue;
  (* d.toDateString() *)
  toDateString : TimeValue -> string;
  (* d.toLocaleDateString("en-US", options) *)
  toLocaleDateString : TimeValue -> DateFormat -> Outcome string;
  (* d.toLocaleTimeString([], { hour: 'numeric', minute: '2-digit' }) *)
  toLocaleTimeString : TimeValue -> Outcome string;
  (* convertTemperature of the useTemperatureUnit hook: an object with a
     value and a unit *)
  convertTemperature : JsValue -> JsValue;
  (* v > 0 *)
  greater_than_zero : JsValue -> bool;
}.

(** ** InfoTab *)

(** The object [setWeather] is given. *)
Record Weather : Type := {
  temperature : string;
  status : string;
  precipitation : string;
  high : string;
  low : string;
  feels_like : string;
  humidity : string;
  seaLevel : string;
  sunrise : string;
  sunset : string;
  iconUrl : string;
}.

(** The [useState] cells of [InfoTab] that the effects write. *)
Record InfoTabState : Type := {
  tripInfo : JsValue;
  loading : bool;
  error : option string;
  weather : option Weather;
}.

(** [InfoTabProps]: [tripId?: string] and [tripData?: Trip] ([JUndefined]
    when the caller passes none). *)
Record InfoTabProps : Type := {
  tripId : option string;
  tripData : JsValue;
}.

(** The state of a freshly mounted [InfoTab]. *)
Definition InfoTab_initial : InfoTabState :=
  {| tripInfo := JNull; loading := true; error := None; weather := None |}.

Definition put_tripInfo (v : JsValue) (c : InfoTabState) : InfoTabState :=
  {| tripInfo := v; loading := loading c; error := error c; weather := weather c |}.

Definition put_loading (b : bool) (c : InfoTabState) : InfoTabState :=
  {| tripInfo := tripInfo c; loading := b; error := error c; weather := weather c |}.

Definition put_error (msg : string) (c : InfoTabState) : InfoTabState :=
  {| tripInfo := tripInfo c; loading := loading c; error := Some msg; weather := weather c |}.

Definition put_weather (w : Weather) (c : InfoTabState) : InfoTabState :=
  {| tripInfo := tripInfo c; loading := loading c; error := error c; weather := Some w |}.

Definition setTripInfo (v : JsValue) : Eff (Sys InfoTabState) unit :=
  modify (with_comp (put_tripInfo v)).

Definition setLoading (b : bool) : Eff (Sys InfoTabState) unit :=
  modify (with_comp (put_loading b)).

Definition setError (msg : string) : Eff (Sys InfoTabState) unit :=
  modify (with_comp (put_error msg)).

Definition setWeather (w : Weather) : Eff (Sys InfoTabState) unit :=
  modify (with_comp (put_weather w)).

(** The truthiness of a [string | undefined] or [string | null]. *)
Definition truthy_text (o : option string) : bool :=
  match o with
  | Some s => negb (string_eqb s "")
  | None => false
  end.

(** [tripData?.id]. [Trip] declares [id] an optional string (the source
    assigns it to the [string | undefined] variable [currentTripId]), so no
    other kind of value stands there. *)
Definition Trip_id (t : JsValue) : option string :=
  match get_opt "id" t with
  | JStr s => Some s
  | _ => None
  end.

(** [tripData?.schedule && Array.isArray(tripData.schedule)]. *)
Definition has_schedule (t : JsValue) : bool :=
  truthy (get_opt "schedule" t) && isArray (get_opt "schedule" t).

(** The trip id [fetchTripInfo] settles on before it touches the storage:
    the [tripId] prop, or else [tripData.id]. *)
Definition supplied_trip_id (p : InfoTabProps) : option string :=
  if negb (truthy_text (tripId p)) && truthy_text (Trip_id (tripData p))
  then Trip_id (tripData p)
  else tripId p.

(** Lines 72-85 of [fetchTripInfo]: the id is written to the storage when
    the caller supplied one, and read from it otherwise. *)
Definition resolve_trip_id (env : Env) (p : InfoTabProps)
  : Eff (Sys InfoTabState) (option string) :=
  let currentTripId := supplied_trip_id p in
  if truthy_text currentTripId then
    _ ← AsyncStorage_setItem env "selectedTripId" (default "" currentTripId);
    mret currentTripId
  else
    storedTripId ← AsyncStorage_getItem env "selectedTripId";
    mret (if truthy_text storedTripId then storedTripId else currentTripId).

(** Lines 94-112 of [fetchTripInfo]: the cache first, the backend on a
    miss. *)
Definition load_trail_data (env : Env) (id : string) : Eff (Sys InfoTabState) unit :=
  cached ← getCachedTrailData id;
  if truthy cached then
    _ ← console_log ("Trail data loaded from CACHE for InfoTab: " ++ id);
    setTripInfo cached
  else
    data ← supabase_select "trips" (select_trip env id);
    match data with
    | Some (row :: _) =>
        _ ← console_log ("Trail data loaded from Supabase for InfoTab: " ++ id);
        _ ← setTripInfo row;
        cacheTrailData id row
    | _ => setError "Trip not found."
    end.

(** The [try] block of [fetchTripInfo] (lines 72-115). Its [return] is the
    first branch of the conditional on [has_schedule]. *)
Definition fetchTripInfo_try (env : Env) (p : InfoTabProps) : Eff (Sys InfoTabState) unit :=
  currentTripId ← resolve_trip_id env p;
  if has_schedule (tripData p) then
    _ ← setTripInfo (tripData p);
    setLoading false
  else if truthy_text currentTripId then
    load_trail_data env (default "" currentTripId)
  else setError "No trip ID available.".

(** [fetchTripInfo] (lines 69-122): the [finally] block runs after the
    [return] as after every other exit. *)
Definition fetchTripInfo (env : Env) (p : InfoTabProps) : Eff (Sys InfoTabState) unit :=
  _ ← setLoading true;
  try_finally
    (try_catch
       (fetchTripInfo_try env p)
       (fun err =>
          _ ← console_error "Error loading trip info:";
          setError "Failed to load trip info."))
    (setLoading false).

Section InfoTabWeather.
Context {host : Host}.

(** [tripInfo?.coordinates.<k>]: the optional chain stops at a nullish
    [tripInfo]; past it, [coordinates] is read without a check. *)
Definition coordinate (k : string) (info : JsValue) : Outcome JsValue :=
  if is_nullish info then Ok JUndefined
  else get k (prop "coordinates" info).

(** [tripInfo.dateRange?.startDate || ''] *)
Definition weather_date (info : JsValue) : JsValue :=
  let d := get_opt "startDate" (prop "dateRange" info) in
  if truthy d then d else JStr "".

(** [`${lat},${lon},${date}`] *)
Definition weather_cache_key (lat lon date : JsValue) : string :=
  toStringJs lat ++ "," ++ toStringJs lon ++ "," ++ toStringJs date.

Definition weather_url (lat lon date : JsValue) : string :=
  "https://api.openweathermap.org/data/2.5/weather?lat=" ++ toStringJs lat
    ++ "&lon=" ++ toStringJs lon ++ "&date=" ++ toStringJs date
    ++ "&appid=" ++ apiKey ++ "&units=imperial".

(** [icon.slice(0, -1) + 'd']: strings and arrays have [slice]. *)
Definition icon_code (icon : JsValue) : Outcome string :=
  match icon with
  | JStr s => Ok (drop_last s ++ "d")
  | JArr items => Ok (toStringJs (JArr (removelast items)) ++ "d")
  | _ => Throw (TypeError "icon.slice is not a function")
  end.

(** [description.split(" ").map(capitalise).join(" ")]: only a string has
    [split]. *)
Definition status_text (description : JsValue) : Outcome string :=
  match description with
  | JStr s => Ok (join_spaces (map capitalize (split_spaces s)))
  | _ => Throw (TypeError "description.split is not a function")
  end.

(** [`${t.value}${t.unit}`] for [t = convertTemperature(v)]. *)
Definition temperature_text (t : JsValue) : Outcome string :=
  let? value := get "value" t in
  let? unit := get "unit" t in
  Ok (toStringJs value ++ toStringJs unit).

(** The second [try] block of [fetchWeather] (lines 155-188), up to the
    call of [setWeather]: the object built from the payload, or what was
    thrown on the way. *)
Definition process_weather (data : JsValue) : Outcome Weather :=
  let? weather_list := get "weather" data in
  let? weather0 := get_index0 weather_list in
  let? icon := get "icon" weather0 in
  let? iconCode := icon_code icon in
  let iconUrl := "https://openweathermap.org/img/wn/" ++ iconCode ++ "@2x.png" in
  let? sys := get "sys" data in
  let? sunrise_s := get "sunrise" sys in
  let? sunrise := toLocaleTimeString (Date_of_seconds sunrise_s) in
  let? sunset_s := get "sunset" sys in
  let? sunset := toLocaleTimeString (Date_of_seconds sunset_s) in
  let? main := get "main" data in
  let? temp_f := get "temp" main in
  let temp := convertTemperature temp_f in
  let high := convertTemperature (prop "temp_max" main) in
  let low := convertTemperature (prop "temp_min" main) in
  let feels := convertTemperature (prop "feels_like" main) in
  let? temp_text := temperature_text temp in
  let? description := get "description" weather0 in
  let? status := status_text description in
  let rain1h := get_opt "1h" (prop "rain" data) in
  let precipitation :=
    if truthy rain1h then toStringJs rain1h ++ " mm" else "0 mm" in
  let? high_text := temperature_text high in
  let? low_text := temperature_text low in
  let? feels_text := temperature_text feels in
  let humidity := toStringJs (prop "humidity" main) ++ "%" in
  let seaLevel :=
    if truthy (prop "sea_level" main)
    then toStringJs (prop "sea_level" main) ++ " Ft" else "N/A" in
  Ok {| temperature := temp_text; status := status;
        precipitation := precipitation; high := high_text; low := low_text;
        feels_like := feels_text; humidity := humidity; seaLevel := seaLevel;
        sunrise := sunrise; sunset := sunset; iconUrl := iconUrl |}.

(** [fetchWeather] (lines 128-192). The [return] in the [catch] of the
    network [try] is the [None] the first block hands on. *)
Definition fetchWeather (env : Env) : Eff (Sys InfoTabState) unit :=
  info ← gets (fun s => tripInfo (comp s));
  lat ← lift (coordinate "latitude" info);
  if negb (truthy lat) then mret tt else
  lon ← lift (coordinate "longitude" info);
  if negb (truthy lon) then mret tt else
  let date := weather_date info in
  let cacheKey := weather_cache_key lat lon date in
  cached ← getCachedWeatherData cacheKey;
  fetched ←
    (if truthy cached then
       _ ← console_log "-------Successfully fetched weather data from CACHE-------";
       mret (Some cached)
     else
       try_catch
         (data ← fetch_json env (weather_url lat lon date);
          _ ← console_log "-------Successfully fetched weather data from API-------";
          _ ← cacheWeatherData cacheKey data;
          mret (Some data))
         (fun err =>
            _ ← console_error "Failed to fetch weather:";
            mret None));
  match fetched with
  | None => mret tt
  | Some data =>
      try_catch
        (w ← lift (process_weather data);
         setWeather w)
        (fun err => console_error "Failed to process weather data:")
  end.
End InfoTabWeather.

(** *** What [InfoTab] renders *)

(** The weather card: each text is the field of the [weather] state, or the
    placeholder ["--"]; the icon is the image of [iconUrl] or the stock
    glyph ([None]). *)
Record WeatherCard : Type := {
  card_temperature : string;
  card_status : string;
  card_feels_like : string;
  card_icon : option string;
  card_high : string;
  card_low : string;
  card_humidity : string;
  card_precipitation : string;
  card_sunrise : string;
  card_sunset : string;
}.

(** A grid of icons with labels, or the text ["N/A"] ([None]). *)
Definition IconGrid : Type := option (list (string * string)).

Record TripScreen : Type := {
  scr_name : JsValue;
  scr_location : JsValue;
  scr_description : JsValue;
  scr_cell_icon : string;
  scr_cell_text : string;
  scr_weather : WeatherCard;
  scr_amenities : IconGrid;
  scr_highlights : IconGrid;
  scr_warnings : option (list JsValue);
}.

Inductive Screen : Type :=
| LoadingScreen
| ErrorScreen (msg : string)
| MainScreen (s : TripScreen).

(** [weather?.field ?? "--"] *)
Definition field_or_blank (w : option Weather) (field : Weather -> string) : string :=
  match w with
  | Some w => field w
  | None => "--"
  end.

Definition weather_card (w : option Weather) : WeatherCard :=
  {| card_temperature := field_or_blank w temperature;
     card_status := field_or_blank w status;
     card_feels_like := field_or_blank w feels_like;
     card_icon := match w with
                  | Some w => if string_eqb (iconUrl w) "" then None else Some (iconUrl w)
                  | None => None
                  end;
     card_high := field_or_blank w high;
     card_low := field_or_blank w low;
     card_humidity := field_or_blank w humidity;
     card_precipitation := field_or_blank w precipitation;
     card_sunrise := field_or_blank w sunrise;
     card_sunset := field_or_blank w sunset |}.

Definition getAmenityIcon (amenity : string) : string :=
  let name := toLowerCase amenity in
  if includes "restroom" name || includes "bathroom" name then "transgender"
  else if includes "parking" name then "car"
  else if includes "water" name then "water"
  else if includes "picnic" name then "restaurant"
  else if includes "camp" name then "bonfire"
  else if includes "wifi" name then "wifi"
  else if includes "view" name then "eye"
  else if includes "pet" name || includes "dog" name then "paw"
  else if includes "cafe" name || includes "coffee" name then "cafe"
  else if includes "bike" name || includes "biking" name then "bicycle"
  else if includes "boat" name then "boat"
  else "trail-sign".

Definition getHighlightIcon (highlight : string) : string :=
  let name := toLowerCase highlight in
  if includes "view" name || includes "scenic" name then "eye"
  else if includes "water" name || includes "lake" name || includes "river" name then "water"
  else if includes "wildlife" name || includes "animal" name || includes "pet" name then "paw"
  else if includes "photo" name then "camera"
  else if includes "forest" name || includes "tree" name then "leaf"
  else if includes "historic" name then "time"
  else if includes "quiet" name then "volume-mute"
  else if includes "wildflower" name || includes "flower" name then "flower"
  else if includes "moderate" name || includes "difficult" name then "footsteps"
  else if includes "easy" name then "leaf"
  else if includes "difficult" name || includes "extreme" name then "warning"
  else if includes "hard" name then "trending-up"
  else if includes "morning" name || includes "sunset" name then "sunny"
  else if includes "evening" name || includes "night" name then "moon"
  else if includes "snow" name then "snow"
  else if includes "shade" name then "umbrella"
  else if includes "challenge" name || includes "challenging" name then "alert-circle"
  else if includes "bike" name || includes "biking" name then "bicycle"
  else "star".

(** One cell of an icon grid: the item is lower-cased and capitalised, which
    only a string allows. *)
Definition icon_item (icon_of : string -> string) (item : JsValue)
  : Outcome (string * string) :=
  match item with
  | JStr s => Ok (icon_of s, capitalize s)
  | _ => Throw (TypeError "toLowerCase is not a function")
  end.

Fixpoint map_outcome {A B} (f : A -> Outcome B) (l : list A) : Outcome (list B) :=
  match l with
  | [] => Ok []
  | x :: rest =>
      match f x with
      | Throw e => Throw e
      | Ok y =>
          match map_outcome f rest with
          | Throw e => Throw e
          | Ok ys => Ok (y :: ys)
          end
      end
  end.

(** [renderAmenities] and [renderHighlights]: the list is checked to be a
    non-empty array first. *)
Definition render_grid (icon_of : string -> string) (items : JsValue) : Outcome IconGrid :=
  match items with
  | JArr (x :: rest) =>
      match map_outcome (icon_item icon_of) (x :: rest) with
      | Ok cells => Ok (Some cells)
      | Throw e => Throw e
      end
  | _ => Ok None
  end.

Section InfoTabRender.
Context {host : Host}.

(** [tripInfo.warnings && tripInfo.warnings.length > 0 && (...)]: the
    cards of an array, or the one card of anything else with a positive
    [length]. *)
Definition length_positive (v : JsValue) : bool :=
  match v with
  | JArr [] => false
  | JArr (_ :: _) => true
  | JStr s => negb (string_eqb s "")
  | other => greater_than_zero (prop "length" other)
  end.

Definition render_warnings (warnings : JsValue) : option (list JsValue) :=
  if truthy warnings && length_positive warnings
  then match warnings with
       | JArr items => Some items
       | other => Some [other]
       end
  else None.

(** [tripInfo.cellService.toLowerCase().includes("no")]: [tripInfo] is
    truthy here, [cellService] is read and lower-cased without a check. *)
Definition cell_service_icon (info : JsValue) : Outcome string :=
  match prop "cellService" info with
  | JStr s => Ok (if includes "no" (toLowerCase s) then "close-circle" else "cellular")
  | JUndefined | JNull =>
      Throw (TypeError "Cannot read properties of undefined (reading 'toLowerCase')")
  | _ => Throw (TypeError "tripInfo.cellService.toLowerCase is not a function")
  end.

(** The trip view (lines 357-555): building it throws where the JSX
    dereferences a missing field. *)
Definition render_trip (info : JsValue) (w : option Weather) : Outcome Screen :=
  let? cell_icon := cell_service_icon info in
  let? amenities := render_grid getAmenityIcon (prop "amenities" info) in
  let? highlights := render_grid getHighlightIcon (prop "highlights" info) in
  Ok (MainScreen
        {| scr_name := prop "name" info;
           scr_location := prop "location" info;
           scr_description := prop "description" info;
           scr_cell_icon := cell_icon;
           scr_cell_text := "Cell Service: " ++ toStringJs (prop "cellService" info);
           scr_weather := weather_card w;
           scr_amenities := amenities;
           scr_highlights := highlights;
           scr_warnings := render_warnings (prop "warnings" info) |}).

(** The body of [InfoTab] after its hooks (lines 249-555): the loading
    view, the error view, or the trip view. *)
Definition InfoTab_render (c : InfoTabState) : Outcome Screen :=
  if loading c then Ok LoadingScreen
  else if truthy_text (error c) || negb (truthy (tripInfo c)) then
    Ok (ErrorScreen (if truthy_text (error c) then default "" (error c)
                     else "No trip data available."))
  else render_trip (tripInfo c) (weather c).
End InfoTabRender.

(** ** Home *)

(** [Array.prototype.sort(compare)] on the result of the comparator:
    [Some z] is the number [z], [None] is [NaN], which [sort] reads as
    [+0]. ECMAScript requires the sort to be stable, so for a comparator that
    orders the elements consistently every engine returns what this
    insertion sort returns. *)
Definition is_positive (r : option Z) : bool :=
  match r with
  | Some z => 0 <? z
  | None => false
  end.

Fixpoint insert_by {A} (compare : A -> A -> option Z) (x : A) (sorted : list A) : list A :=
  match sorted with
  | [] => [x]
  | y :: rest =>
      if is_positive (compare x y) then y :: insert_by compare x rest
      else x :: y :: rest
  end.

Fixpoint js_sort {A} (compare : A -> A -> option Z) (l : list A) : list A :=
  match l with
  | [] => []
  | x :: rest => insert_by compare x (js_sort compare rest)
  end.

(** [a - b] on time values. *)
Definition time_minus (a b : TimeValue) : option Z :=
  match a, b with
  | Some x, Some y => Some (x - y)
  | _, _ => None
  end.

(** [SameValueZero] as [Array.prototype.includes] and [===] compare a
    primitive: arrays and objects are equal to themselves only, and the
    values met here are never one object twice. *)
Definition same_value (a b : JsValue) : bool :=
  match a, b with
  | JUndefined, JUndefined => true
  | JNull, JNull => true
  | JBool x, JBool y => Bool.eqb x y
  | JNum x, JNum y => string_eqb x y
  | JStr x, JStr y => string_eqb x y
  | _, _ => false
  end.

Definition placeholderImage : string :=
  "https://images.unsplash.com/photo-1506744038136-46273834b3fb?q=80&w=2070&auto=format&fit=crop".

(** [v || fallback] *)
Definition or_else (v fallback : JsValue) : JsValue :=
  if truthy v then v else fallback.

(** [{ id: row.<key>, ...row, image: row.imageUrl || placeholderImage }]:
    the object [fetchPlans] and [fetchTrips] make of a row. *)
Definition transform_row (key : string) (row : JsValue) : Outcome JsValue :=
  let? id := get key row in
  Ok (JObj (assoc_set "image" (or_else (prop "imageUrl" row) (JStr placeholderImage))
              (spread_into row [("id", id)]))).

(** The [useState] cells of [Home] that the functions below write. *)
Record HomeState : Type := {
  plans : list JsValue;
  trips : list JsValue;
  tripDates : gmap string (JsValue * JsValue);
  deletingItems : gset string;
}.

Definition setPlans (f : list JsValue -> list JsValue) : Eff (Sys HomeState) unit :=
  modify (with_comp (fun c => {| plans := f (plans c); trips := trips c;
                                 tripDates := tripDates c;
                                 deletingItems := deletingItems c |})).

Definition setTrips (f : list JsValue -> list JsValue) : Eff (Sys HomeState) unit :=
  modify (with_comp (fun c => {| plans := plans c; trips := f (trips c);
                                 tripDates := tripDates c;
                                 deletingItems := deletingItems c |})).

Definition setTripDates (d : gmap string (JsValue * JsValue)) : Eff (Sys HomeState) unit :=
  modify (with_comp (fun c => {| plans := plans c; trips := trips c;
                                 tripDates := d;
                                 deletingItems := deletingItems c |})).

Definition setDeletingItems (f : gset string -> gset string) : Eff (Sys HomeState) unit :=
  modify (with_comp (fun c => {| plans := plans c; trips := trips c;
                                 tripDates := tripDates c;
                                 deletingItems := f (deletingItems c) |})).

(** [supabase.auth.getUser()] *)
Definition supabase_getUser (env : Env) : Eff (Sys HomeState) (JsValue * JsValue) :=
  _ ← modify (with_world (emit (SupabaseRequest "auth" "getUser")));
  lift (auth_getUser env).

(** [if (error) throw error] *)
Definition throw_if {S} (error : JsValue) : Eff S unit :=
  if truthy error then throw (Thrown error) else mret tt.

Section HomeFetch.
Context {host : Host}.

(** [p.preferences?.dateRange?.startDate] *)
Definition plan_start_date (p : JsValue) : JsValue :=
  get_opt "startDate" (get_opt "dateRange" (prop "preferences" p)).

(** [start ? new Date(start).getTime() : 0] *)
Definition timestamp_of (start : JsValue) : TimeValue :=
  if truthy start then Date_new start else Some 0.

(** [dateA] and [dateB] of the comparator of [fetchPlans]. *)
Definition plan_timestamp (p : JsValue) : TimeValue :=
  timestamp_of (plan_start_date p).

(** The comparator of [fetchPlans] (lines 1328-1336). *)
Definition compare_plans (a b : JsValue) : option Z :=
  time_minus (plan_timestamp a) (plan_timestamp b).

(** [fetchPlans] (lines 1306-1344). *)
Definition fetchPlans (env : Env) : Eff (Sys HomeState) unit :=
  try_catch
    (answer ← supabase_getUser env;
     let user := fst answer in
     _ ← throw_if (snd answer);
     if truthy user then
       answer ← supabase_select "plans" (select_plans env (prop "id" user));
       _ ← throw_if (snd answer);
       match fst answer with
       | Some plansList =>
           transformedPlans ← lift (map_outcome (transform_row "plan_id") plansList);
           let sortedPlans := js_sort compare_plans transformedPlans in
           setPlans (fun _ => sortedPlans)
       | None => mret tt
       end
     else mret tt)
    (fun err => console_error "Error fetching plans:").

(** One plan's contribution to the [dates] object of [fetchTrips] (lines
    1379-1388): every trip id of a plan with a start date is bound to the
    plan's date range, a later binding replacing an earlier one. *)
Definition add_plan_dates (dates : gmap string (JsValue * JsValue)) (plan : JsValue)
  : Outcome (gmap string (JsValue * JsValue)) :=
  let? tripIds := get "tripIds" plan in
  if truthy tripIds && truthy (plan_start_date plan) then
    match tripIds with
    | JArr ids =>
        let range := prop "dateRange" (prop "preferences" plan) in
        Ok (fold_left
              (fun acc tripId =>
                 <[toStringJs tripId := (prop "startDate" range, prop "endDate" range)]> acc)
              ids dates)
    | _ => Throw (TypeError "plan.tripIds.forEach is not a function")
    end
  else Ok dates.

Fixpoint collect_dates (dates : gmap string (JsValue * JsValue)) (plansList : list JsValue)
  : Outcome (gmap string (JsValue * JsValue)) :=
  match plansList with
  | [] => Ok dates
  | plan :: rest =>
      let? dates' := add_plan_dates dates plan in
      collect_dates dates' rest
  end.

(** [dates[t.id || ""]?.startDate] *)
Definition trip_start_date (dates : gmap string (JsValue * JsValue)) (t : JsValue) : JsValue :=
  match dates !! toStringJs (or_else (prop "id" t) (JStr "")) with
  | Some range => fst range
  | None => JUndefined
  end.

(** [dateA] and [dateB] of the comparator of [fetchTrips]. *)
Definition trip_timestamp (dates : gmap string (JsValue * JsValue)) (t : JsValue)
  : TimeValue :=
  timestamp_of (trip_start_date dates t).

(** The comparator of [fetchTrips] (lines 1394-1402). *)
Definition compare_trips (dates : gmap string (JsValue * JsValue)) (a b : JsValue) : option Z :=
  time_minus (trip_timestamp dates a) (trip_timestamp dates b).

(** [fetchTrips] (lines 1346-1415). *)
Definition fetchTrips (env : Env) : Eff (Sys HomeState) unit :=
  try_catch
    (answer ← supabase_getUser env;
     let user := fst answer in
     _ ← throw_if (snd answer);
     if truthy user then
       answer ← supabase_select "trips" (select_bookmarked_trips env (prop "id" user));
       _ ← throw_if (snd answer);
       match fst answer with
       | Some tripsList =>
           transformedTrips ← lift (map_outcome (transform_row "trip_id") tripsList);
           answer ← supabase_select "plans" (select_plan_dates env (prop "id" user));
           _ ← throw_if (snd answer);
           dates ← lift (match fst answer with
                         | Some plansList => collect_dates ∅ plansList
                         | None => Ok ∅
                         end);
           _ ← setTripDates dates;
           let sortedTrips := js_sort (compare_trips dates) transformedTrips in
           setTrips (fun _ => sortedTrips)
       | None => mret tt
       end
     else mret tt)
    (fun err => console_error "Error fetching trips:").
End HomeFetch.

(** *** Deleting a plan *)

(** supabase [delete()] requests. A successful one removes the rows from the
    table and answers without an error; a failed one leaves the table as it
    was and answers with an error object; the call may also reject. *)
Definition supabase_delete (table : string) (reply : Reply) (apply : World -> World)
  : Eff (Sys HomeState) JsValue :=
  _ ← modify (with_world (emit (SupabaseRequest table "delete")));
  match reply with
  | Success => _ ← modify (with_world apply); mret JNull
  | ErrorReply msg => mret (JObj [("message", JStr msg)])
  | CallRejects msg => throw (Rejected msg)
  end.

Definition delete_keys (ids : list JsValue) (table : gmap string JsValue) : gmap string JsValue :=
  fold_left (fun acc id => delete (toStringJs id) acc) ids table.

(** [ids.includes(v)] *)
Definition array_includes (ids : list JsValue) (v : JsValue) : bool :=
  existsb (same_value v) ids.

(** The callback [handleDeletePlan] hands to [setTimeout] once the user has
    pressed "Delete" (lines 1553-1614). [Plan] declares [tripIds] an array
    of strings; on a truthy value of another kind the [in] filter of the
    request is taken to throw. *)
Definition delete_plan_task (env : Env) (planId : string) : Eff (Sys HomeState) unit :=
  try_catch
    ((* 1. Fetch the plan to get tripIds *)
     answer ← supabase_select "plans" (select_plan_tripIds env planId);
     let plan := fst answer in
     _ ← throw_if (snd answer);
     _ ← (if truthy plan && truthy (prop "tripIds" plan) then
            match prop "tripIds" plan with
            | JArr tripIds =>
                (* 2. Delete associated trips *)
                tripsError ← supabase_delete "trips" (delete_trips_reply env)
                               (fun w => set_tripsTable (delete_keys tripIds (tripsTable w)) w);
                _ ← throw_if tripsError;
                (* Delete cache for each trip *)
                _ ← for_of tripIds (fun tripId =>
                       _ ← deleteCachedTrailData (toStringJs tripId);
                       deleteCachedChatMessages (toStringJs tripId));
                (* Update local trips state *)
                setTrips (List.filter (fun trip =>
                   negb (array_includes tripIds (or_else (prop "id" trip) (JStr "")))))
            | _ => throw (TypeError "plan.tripIds is not an array")
            end
          else mret tt);
     (* 3. Delete the plan *)
     deletePlanError ← supabase_delete "plans" (delete_plan_reply env)
                         (fun w => set_plansTable (delete planId (plansTable w)) w);
     _ ← throw_if deletePlanError;
     (* 4. Update local plans state *)
     _ ← setPlans (List.filter (fun plan => negb (same_value (prop "id" plan) (JStr planId))));
     setDeletingItems (fun prev => prev ∖ {[planId]}))
    (fun err =>
       _ ← console_error "Error deleting plan and associated trips:";
       _ ← modify (with_world (emit (AlertShown "Error" "Could not delete plan or its trips.")));
       setDeletingItems (fun prev => prev ∖ {[planId]})).

(** [handleDeletePlan] (lines 1536-1619): the confirmation dialog, and what
    follows the user's choice. The second delay of the animation is not
    modelled: the task runs right after the item is marked. *)
Definition handleDeletePlan (env : Env) (planId : string) (confirmed : bool)
  : Eff (Sys HomeState) unit :=
  _ ← modify (with_world (emit (AlertShown "Delete Plan"
        "Are you sure you want to delete this plan and its associated trips? This action cannot be undone.")));
  if confirmed then
    _ ← setDeletingItems (fun prev => prev ∪ {[planId]});
    delete_plan_task env planId
  else mret tt.

(** *** Formatting a date range *)

Section FormatDateRange.
Context {host : Host}.


End FormatDateRange.

(** ** A host to run the model on

    An engine in the UTC time zone with the en-US locale and Fahrenheit as
    the user's unit, on the part of its input the examples use: date strings
    of the form YYYY-MM-DD and whole numbers. It is the host of the concrete
    runs below; the theorems hold for every host. *)

Definition digit_value (c : ascii) : option Z :=
  let n := nat_of_ascii c in
  if ((48 <=? n) && (n <=? 57))%nat then Some (Z.of_nat (n - 48)) else None.

Fixpoint digits_from (acc : Z) (s : string) : option Z :=
  match s with
  | EmptyString => Some acc
  | String c rest =>
      match digit_value c with
      | Some d => digits_from (10 * acc + d) rest
      | None => None
      end
  end.

(** A non-empty run of decimal digits, with an optional minus sign. *)
Definition parse_integer (s : string) : option Z :=
  match s with
  | EmptyString => None
  | String "-" EmptyString => None
  | String "-" rest => Z.opp <$> digits_from 0 rest
  | _ => digits_from 0 s
  end.

(** Days from 1 January 1970 to a date of the proleptic Gregorian
    calendar. *)
Definition days_from_civil (y m d : Z) : Z :=
  let y' := if m <=? 2 then y - 1 else y in
  let era := y' / 400 in
  let yoe := y' - era * 400 in
  let doy := (153 * (if 2 <? m then m - 3 else m + 9) + 2) / 5 + d - 1 in
  let doe := yoe * 365 + yoe / 4 - yoe / 100 + doy in
  era * 146097 + doe - 719468.

(** The inverse: year, month and day of a day number. *)
Definition civil_from_days (z : Z) : Z * Z * Z :=
  let z := z + 719468 in
  let era := z / 146097 in
  let doe := z - era * 146097 in
  let yoe := (doe - doe / 1460 + doe / 36524 - doe / 146096) / 365 in
  let doy := doe - (365 * yoe + yoe / 4 - yoe / 100) in
  let mp := (5 * doy + 2) / 153 in
  let d := doy - (153 * mp + 2) / 5 + 1 in
  let m := if mp <? 10 then mp + 3 else mp - 9 in
  ((if m <=? 2 then yoe + era * 400 + 1 else yoe + era * 400), m, d).

Definition is_leap (y : Z) : bool :=
  ((y mod 4 =? 0) && negb (y mod 100 =? 0)) || (y mod 400 =? 0).

Definition days_in_month (y m : Z) : Z :=
  if m =? 2 then (if is_leap y then 29 else 28)
  else if (m =? 4) || (m =? 6) || (m =? 9) || (m =? 11) then 30 else 31.

Definition ms_per_day : Z := 86400000.

(** The time value of a date-only ISO string, which ECMAScript reads as
    midnight UTC; [None] for any other text. *)
Definition parse_iso_date (s : string) : TimeValue :=
  match s with
  | String y1 (String y2 (String y3 (String y4 (String "-"
      (String m1 (String m2 (String "-" (String d1 (String d2 EmptyString))))))))) =>
      y ← digits_from 0 (String y1 (String y2 (String y3 (String y4 EmptyString))));
      m ← digits_from 0 (String m1 (String m2 EmptyString));
      d ← digits_from 0 (String d1 (String d2 EmptyString));
      if (1 <=? m) && (m <=? 12) && (1 <=? d) && (d <=? days_in_month y m)
      then Some (days_from_civil y m d * ms_per_day) else None
  | _ => None
  end.

Definition month_name (m : Z) : string :=
  nth (Z.to_nat (m - 1))
    ["Jan"; "Feb"; "Mar"; "Apr"; "May"; "Jun"; "Jul"; "Aug"; "Sep"; "Oct"; "Nov"; "Dec"] "".

Definition weekday_name (days : Z) : string :=
  nth (Z.to_nat ((days + 4) mod 7)) ["Sun"; "Mon"; "Tue"; "Wed"; "Thu"; "Fri"; "Sat"] "".

Definition two_digits (n : Z) : string :=
  if n <? 10 then "0" ++ pretty n else pretty n.

Definition utc_toDateString (t : TimeValue) : string :=
  match t with
  | None => "Invalid Date"
  | Some ms =>
      let days := ms / ms_per_day in
      let '(y, m, d) := civil_from_days days in
      weekday_name days ++ " " ++ month_name m ++ " " ++ two_digits d ++ " " ++ pretty y
  end.

Definition utc_toLocaleDateString (t : TimeValue) (f : DateFormat) : Outcome string :=
  match t with
  | None => Ok "Invalid Date"
  | Some ms =>
      let '(y, m, d) := civil_from_days (ms / ms_per_day) in
      match f with
      | MonthDayYear => Ok (month_name m ++ " " ++ pretty d ++ ", " ++ pretty y)
      | MonthDay => Ok (month_name m ++ " " ++ pretty d)
      end
  end.

Definition utc_toLocaleTimeString (t : TimeValue) : Outcome string :=
  match t with
  | None => Ok "Invalid Date"
  | Some ms =>
      let minutes := (ms mod ms_per_day) / 60000 in
      let h := minutes / 60 in
      let h12 := if h mod 12 =? 0 then 12 else h mod 12 in
      Ok (pretty h12 ++ ":" ++ two_digits (minutes mod 60) ++ (if h <? 12 then " AM" else " PM"))
  end.

Definition utc_Date_new (v : JsValue) : TimeValue :=
  match v with
  | JStr s => parse_iso_date s
  | JNum t => parse_integer t
  | JNull => Some 0
  | JBool b => Some (if b then 1 else 0)
  | _ => None
  end.

Definition utc_Date_of_seconds (v : JsValue) : TimeValue :=
  match v with
  | JNum t => Z.mul 1000 <$> parse_integer t
  | JStr s => Z.mul 1000 <$> parse_integer s
  | JNull => Some 0
  | JBool b => Some (if b then 1000 else 0)
  | _ => None
  end.

Definition utcHost : Host :=
  {| apiKey := "OPENWEATHER-KEY";
     Date_new := utc_Date_new;
     Date_of_seconds := utc_Date_of_seconds;
     toDateString := utc_toDateString;
     toLocaleDateString := utc_toLocaleDateString;
     toLocaleTimeString := utc_toLocaleTimeString;
     convertTemperature := fun v => JObj [("value", v); ("unit", JStr "F")];
     greater_than_zero := fun v =>
       match v with
       | JNum t => truthy v && negb (starts_with "-" t)
       | JBool b => b
       | _ => false
       end |}.


(** ** What the properties observe *)

(** The events of a run: what the history gained between two worlds. *)
Definition new_events (before after : World) : list Event :=
  drop (length (events before)) (events after).

Definition is_supabase_request (e : Event) : bool :=
  match e with
  | SupabaseRequest _ _ => true
  | _ => false
  end.

Definition is_http_get (e : Event) : bool :=
  match e with
  | HttpGet _ => true
  | _ => false
  end.

(** The trip id [resolve_trip_id] returns when the storage answers: the
    supplied one, or else the one stored under ["selectedTripId"]. *)
Definition current_trip_id (p : InfoTabProps) (w : World) : option string :=
  if truthy_text (supplied_trip_id p) then supplied_trip_id p
  else if truthy_text (asyncStorage w !! "selectedTripId")
       then asyncStorage w !! "selectedTripId"
       else supplied_trip_id p.

(** The weather card with every text at the placeholder. *)
Definition blank_card : WeatherCard :=
  {| card_temperature := "--"; card_status := "--"; card_feels_like := "--";
     card_icon := None; card_high := "--"; card_low := "--";
     card_humidity := "--"; card_precipitation := "--";
     card_sunrise := "--"; card_sunset := "--" |}.

(** The timestamp a comparator works with, as an integer ([NaN] read as
    [0], which is how [sort] reads a [NaN] comparison). *)
Definition millis (t : TimeValue) : Z := default 0 t.

(** Whether [fetchTrips] binds the trip key [k] to the dates of [plan]: the
    plan has a start date and lists the trip. *)
Definition plan_covers (plan : JsValue) (k : string) : bool :=
  match prop "tripIds" plan with
  | JArr ids => truthy (plan_start_date plan) && bool_decide (k ∈ map toStringJs ids)
  | _ => false
  end.

(** The last plan of the list that covers the trip key. *)
Fixpoint last_covering (plansList : list JsValue) (k : string) : option JsValue :=
  match plansList with
  | [] => None
  | plan :: rest =>
      match last_covering rest k with
      | Some later => Some later
      | None => if plan_covers plan k then Some plan else None
      end
  end.

(** [x] stands before [y] in [l]. *)
Definition stands_before {A} (l : list A) (x y : A) : Prop :=
  exists i j, (i < j)%nat /\ l !! i = Some x /\ l !! j = Some y.

(** *** Sample data for the concrete runs *)

Definition emptyWorld : World :=
  {| asyncStorage := ∅; trailCache := ∅; weatherCache := ∅; chatCache := ∅;
     tripsTable := ∅; plansTable := ∅; events := [] |}.

(** An outside where the home screen finds nobody signed in; the storage,
    the trip query and the weather request behave as given. *)
Definition envOf (rejects_set rejects_get : bool)
    (trip : string -> Outcome (option (list JsValue)))
    (http : string -> Outcome JsValue) : Env :=
  {| setItem_rejects := rejects_set; getItem_rejects := rejects_get;
     select_trip := trip;
     http_get_json := http;
     auth_getUser := Ok (JNull, JNull);
     select_plans := fun _ => Ok (Some [], JNull);
     select_bookmarked_trips := fun _ => Ok (Some [], JNull);
     select_plan_dates := fun _ => Ok (Some [], JNull);
     select_plan_tripIds := fun _ => Ok (JNull, JObj [("message", JStr "no rows")]);
     delete_trips_reply := Success;
     delete_plan_reply := Success |}.

(** Every storage call succeeds, the backend has no row for any trip and
    the network is down. *)
Definition quietEnv : Env :=
  envOf false false (fun _ => Ok (Some [])) (fun _ => Throw (Rejected "Network request failed")).

Definition eagleRock : JsValue :=
  JObj [("trip_id", JStr "t1"); ("name", JStr "Eagle Rock Loop");
        ("location", JStr "Los Angeles, CA");
        ("description", JStr "A short loop with a view of the basin.");
        ("cellService", JStr "Good coverage");
        ("coordinates", JObj [("latitude", JNum "34.14"); ("longitude", JNum "-118.18")]);
        ("dateRange", JObj [("startDate", JStr "2025-06-15")]);
        ("amenities", JArr [JStr "parking"; JStr "restrooms"]);
        ("highlights", JArr [JStr "scenic views"])].

(** A trip row without [cellService] and without [coordinates]. *)
Definition hiddenFalls : JsValue :=
  JObj [("trip_id", JStr "t2"); ("name", JStr "Hidden Falls");
        ("location", JStr "Auburn, CA");
        ("description", JStr "A creekside walk to a waterfall.")].


(** The answer of the weather service to a request with a bad key. *)
Definition invalidKeyPayload : JsValue :=
  JObj [("cod", JNum "401"); ("message", JStr "Invalid API key.")].

Definition clearSkyPayload : JsValue :=
  JObj [("weather", JArr [JObj [("description", JStr "clear sky"); ("icon", JStr "01n")]]);
        ("main", JObj [("temp", JNum "71.6"); ("feels_like", JNum "70.2");
                       ("temp_min", JNum "65"); ("temp_max", JNum "78");
                       ("humidity", JNum "40")]);
        ("sys", JObj [("sunrise", JNum "1749991320"); ("sunset", JNum "1750043220")])].

Definition eagleRockKey : string := "34.14,-118.18,2025-06-15".

Definition eagleRockUrl : string :=
  "https://api.openweathermap.org/data/2.5/weather?lat=34.14&lon=-118.18&date=2025-06-15&appid=OPENWEATHER-KEY&units=imperial".

Definition withTrailCache (m : gmap string JsValue) : World :=
  set_trailCache m emptyWorld.

Definition withWeatherCache (m : gmap string JsValue) : World :=
  set_weatherCache m emptyWorld.

Definition byId (id : string) : InfoTabProps :=
  {| tripId := Some id; tripData := JUndefined |}.

(** [InfoTab] after a load that set [info], before any weather. *)
Definition showing (info : JsValue) (w : World) : Sys InfoTabState :=
  {| comp := {| tripInfo := info; loading := false; error := None; weather := None |};
     world := w |}.

(** The home screen before anything is fetched. *)
Definition Home_initial : HomeState :=
  {| plans := []; trips := []; tripDates := ∅; deletingItems := ∅ |}.

Definition signedIn : JsValue := JObj [("id", JStr "u1")].

Definition planRow (id : string) (start : JsValue) (tripIds : list JsValue) : JsValue :=
  JObj [("plan_id", JStr id);
        ("preferences", JObj [("dateRange", JObj [("startDate", start)])]);
        ("tripIds", JArr tripIds)].

(** A plan saved without dates. *)
Definition undatedPlan (id : string) : JsValue :=
  JObj [("plan_id", JStr id); ("preferences", JObj []); ("tripIds", JArr [])].

Definition tripRow (id : string) : JsValue :=
  JObj [("trip_id", JStr id); ("bookmarked", JBool true)].

(** The user is signed in; the backend answers the three list queries as
    given, returns [plan] for the plan to delete and answers the two delete
    requests as given. *)
Definition homeEnv (plansList tripsList datesList : list JsValue) (plan : JsValue)
    (trips_reply plan_reply : Reply) : Env :=
  {| setItem_rejects := false; getItem_rejects := false;
     select_trip := fun _ => Ok (Some []);
     http_get_json := fun _ => Throw (Rejected "Network request failed");
     auth_getUser := Ok (signedIn, JNull);
     select_plans := fun _ => Ok (Some plansList, JNull);
     select_bookmarked_trips := fun _ => Ok (Some tripsList, JNull);
     select_plan_dates := fun _ => Ok (Some datesList, JNull);
     select_plan_tripIds := fun _ => Ok (plan, JNull);
     delete_trips_reply := trips_reply;
     delete_plan_reply := plan_reply |}.

Definition atHome (c : HomeState) (w : World) : Sys HomeState :=
  {| comp := c; world := w |}.

(** A backend and caches that hold plan [p1] with its trip [t1]. *)
Definition worldWithPlan : World :=
  set_plansTable {["p1" := planRow "p1" (JStr "2025-06-15") [JStr "t1"]]}
    (set_tripsTable {["t1" := tripRow "t1"]}
       (set_trailCache {["t1" := eagleRock]} emptyWorld)).

(** A device on which trip [t1] was selected before. *)
Definition worldWithSelection : World :=
  set_asyncStorage {["selectedTripId" := "t1"]} emptyWorld.

Definition mounted (w : World) : Sys InfoTabState :=
  {| comp := InfoTab_initial; world := w |}.

(** ** The helpers at the top of the module *)

(** [getDifficultyIcon] (lines 35-44). *)
Definition getDifficultyIcon (difficulty : string) : string :=
  if string_eqb difficulty "" then "star"
  else
    let level := toLowerCase difficulty in
    if includes "easy" level then "leaf"
    else if includes "moderate" level then "footsteps"
    else if includes "hard" level || includes "difficult" level then "trending-up"
    else if includes "extreme" level then "warning"
    else "star".

(** What is left of [s] after the prefix [p], when [s] starts with it. *)
Fixpoint strip_prefix (p s : string) : option string :=
  match p, s with
  | EmptyString, _ => Some s
  | String a p', String b s' => if Ascii.eqb a b then strip_prefix p' s' else None
  | String _ _, EmptyString => None
  end.

(** [s.replace(pattern, "")] for a string pattern: the first occurrence of
    the pattern is taken out, the rest of the string stays. *)
Fixpoint remove_first (pattern s : string) : string :=
  match strip_prefix pattern s with
  | Some rest => rest
  | None =>
      match s with
      | EmptyString => EmptyString
      | String c rest => String c (remove_first pattern rest)
      end
  end.

Section DisplayUrl.
(* new URL(url).hostname: the constructor throws on a string that is not a
   URL *)
Variable URL_hostname : string -> Outcome string.

(** [getDisplayUrl] (lines 26-33). *)
Definition getDisplayUrl (url : string) : string :=
  match URL_hostname url with
  | Ok hostname => remove_first "www." hostname
  | Throw _ => url
  end.
End DisplayUrl.

(** ** The contact row of [InfoTab] *)

(** [Platform.OS], as far as [Platform.select] with the keys [ios] and
    [android] tells the values apart. *)
Inductive Platform : Type :=
| Ios
| Android
| OtherPlatform.

(** What a handler asks of the analytics service and of [Linking]. *)
Inductive NativeCall : Type :=
| TrackEvent (name : string) (params : list (string * JsValue))
| OpenURL (url : string).

(** [Platform.select({ ios, android })]: [undefined] on any other
    platform. *)
Definition Platform_select (platform : Platform) (ios android : string) : option string :=
  match platform with
  | Ios => Some ios
  | Android => Some android
  | OtherPlatform => None
  end.

(** The [tripId] prop as a value. *)
Definition tripId_value (p : InfoTabProps) : JsValue :=
  match tripId p with
  | Some id => JStr id
  | None => JUndefined
  end.

Section ContactRow.
(* Platform.OS *)
Variable platform : Platform.
(* encodeURIComponent: it throws a URIError on a string with a lone
   surrogate *)
Variable encodeURIComponent : string -> Outcome string.
(* whether the promise of Linking.openURL(url) is rejected *)
Variable openURL_rejects : string -> bool.

(** The handlers run on the calls made so far and the world. *)
Definition native_call (c : NativeCall) : Eff (Sys (list NativeCall)) unit :=
  modify (with_comp (fun calls => (calls ++ [c])%list)).

(** [Linking.openURL(url).catch((err) => Alert.alert("Error", message))] *)
Definition Linking_openURL (url message : string) : Eff (Sys (list NativeCall)) unit :=
  _ ← native_call (OpenURL url);
  if openURL_rejects url
  then modify (with_world (emit (AlertShown "Error" message)))
  else mret tt.

(** [tripData.name || `${tripData.coordinates?.latitude},${tripData.coordinates?.longitude}`],
    as [encodeURIComponent] reads it. *)
Definition map_destination (data : JsValue) : string :=
  toStringJs
    (or_else (prop "name" data)
       (JStr (toStringJs (get_opt "latitude" (prop "coordinates" data)) ++ ","
                ++ toStringJs (get_opt "longitude" (prop "coordinates" data))))).

(** [handleOpenMap] (lines 197-219). The two template literals of the
    object given to [Platform.select] are evaluated on every platform, so
    [encodeURIComponent] is called, outside any [try], before the platform is
    looked at; both calls have the same argument and the same outcome. *)
Definition handleOpenMap (p : InfoTabProps) : Eff (Sys (list NativeCall)) unit :=
  _ ← console_log "tripData";
  let data := tripData p in
  if truthy (get_opt "name" data) || truthy (get_opt "coordinates" data) then
    _ ← native_call (TrackEvent "trip_info_directions_clicked"
           [("trip_id", tripId_value p); ("trip_name", prop "name" data);
            ("category", JStr "trip_interaction")]);
    let destination := map_destination data in
    encoded ← lift (encodeURIComponent destination);
    let url := Platform_select platform
                 ("maps://app?daddr=" ++ encoded)
                 ("google.navigation:q=" ++ encoded) in
    if truthy_text url
    then Linking_openURL (default "" url) "Could not open maps application"
    else mret tt
  else mret tt.

(** [handleOpenWebsite] (lines 221-233). *)
Definition handleOpenWebsite (p : InfoTabProps) : Eff (Sys (list NativeCall)) unit :=
  let data := tripData p in
  if truthy (get_opt "parkWebsite" data) then
    _ ← native_call (TrackEvent "trip_info_website_clicked"
           [("trip_id", tripId_value p); ("website_url", prop "parkWebsite" data);
            ("category", JStr "trip_interaction")]);
    Linking_openURL (toStringJs (prop "parkWebsite" data)) "Could not open website"
  else mret tt.

(** [handleCall] (lines 235-247). *)
Definition handleCall (p : InfoTabProps) : Eff (Sys (list NativeCall)) unit :=
  let data := tripData p in
  if truthy (get_opt "parkContact" data) then
    _ ← native_call (TrackEvent "trip_info_phone_clicked"
           [("trip_id", tripId_value p); ("phone_number", prop "parkContact" data);
            ("category", JStr "trip_interaction")]);
    Linking_openURL ("tel:" ++ toStringJs (prop "parkContact" data)) "Could not open phone app"
  else mret tt.
End ContactRow.

(** ** The tabs and the route of the home screen *)

(** [items.join(sep)]: [null] and [undefined] elements print as the empty
    string. *)
Fixpoint array_join (sep : string) (items : list JsValue) : string :=
  match items with
  | [] => ""
  | x :: rest =>
      let sx := if is_nullish x then "" else toStringJs x in
      match rest with
      | [] => sx
      | _ :: _ => sx ++ sep ++ array_join sep rest
      end
  end.

(** [v?.join(sep)]: arrays have [join]; on [null] and [undefined] the
    chain stops. *)
Definition join_opt (sep : string) (v : JsValue) : Outcome JsValue :=
  match v with
  | JUndefined | JNull => Ok JUndefined
  | JArr items => Ok (JStr (array_join sep items))
  | _ => Throw (TypeError "join is not a function")
  end.

(** Where [router.push] goes, and the object that [JSON.stringify] turns
    into the [trip] parameter of the route. *)
Record Route : Type := {
  pathname : string;
  trip_param : list (string * JsValue);
}.

(** [handleTripPress] (lines 1285-1301). *)
Definition handleTripPress (trip : JsValue) : Outcome Route :=
  let? id := get "id" trip in
  let? keyFeatures := join_opt ", " (prop "highlights" trip) in
  let? facilities := join_opt ", " (prop "amenities" trip) in
  Ok {| pathname := "/(app)/trip";
        trip_param :=
          [("trip_id", id);
           ("name", prop "name" trip);
           ("location", prop "location" trip);
           ("keyFeatures", or_else keyFeatures (JStr ""));
           ("facilities", or_else facilities (JStr ""));
           ("latitude", get_opt "latitude" (prop "coordinates" trip));
           ("longitude", get_opt "longitude" (prop "coordinates" trip));
           ("bookmarked", or_else (prop "bookmarked" trip) (JBool false))] |}.

(** The [activeTab] cell of [Home]: [None] is [undefined], its initial
    value. *)
Definition setActiveTab (tab : string) : Eff (Sys (option string)) unit :=
  modify (with_comp (fun _ => Some tab)).

(** [loadSavedTab] (lines 1256-1265). *)
Definition loadSavedTab (env : Env) : Eff (Sys (option string)) unit :=
  try_catch
    (savedTab ← AsyncStorage_getItem env "activeTab";
     if truthy_text savedTab then setActiveTab (default "" savedTab) else mret tt)
    (fun err => console_error "Error loading saved tab:").

(** [saveTabPreference] (lines 1272-1280). *)
Definition saveTabPreference (env : Env) : Eff (Sys (option string)) unit :=
  activeTab ← gets comp;
  if truthy_text activeTab then
    try_catch
      (AsyncStorage_setItem env "activeTab" (default "" activeTab))
      (fun err => console_error "Error saving tab preference:")
  else mret tt.

(** [handleTabChange] (lines 1435-1469): the tab changes when the fade-out
    has ended; the animation values are not modelled. *)
Definition handleTabChange (newTab : string) : Eff (Sys (option string)) unit :=
  activeTab ← gets comp;
  if bool_decide (activeTab = Some newTab) then mret tt else setActiveTab newTab.

(** The list in the content area of [Home] (lines 1676-1717): the
    favourite trips, the plans, or nothing. *)
Inductive HomeList : Type :=
| FavoritesList (items : list JsValue)
| PlansList (items : list JsValue)
| NoList.

Definition Home_list (activeTab : option string) (c : HomeState) : HomeList :=
  if bool_decide (activeTab = Some "favorites") then FavoritesList (trips c)
  else if bool_decide (activeTab = Some "plans") then PlansList (plans c)
  else NoList.

(** [deletingItems.has(item.id || "")], the [isDeleting] prop of a box:
    the set holds strings. *)
Definition isDeleting (c : HomeState) (item : JsValue) : bool :=
  match or_else (prop "id" item) (JStr "") with
  | JStr id => bool_decide (id ∈ deletingItems c)
  | _ => false
  end.

(** *** Removing a favourite *)

(** [row] with the column [k] set to [v]. *)
Definition set_field (k : string) (v : JsValue) (row : JsValue) : JsValue :=
  match row with
  | JObj fields => JObj (assoc_set k v fields)
  | other => other
  end.

(** A supabase [update()] request: as a [delete()], it changes the table
    when it succeeds, answers with an error object when it fails, or
    rejects. *)
Definition supabase_update (table : string) (reply : Reply) (apply : World -> World)
  : Eff (Sys HomeState) JsValue :=
  _ ← modify (with_world (emit (SupabaseRequest table "update")));
  match reply with
  | Success => _ ← modify (with_world apply); mret JNull
  | ErrorReply msg => mret (JObj [("message", JStr msg)])
  | CallRejects msg => throw (Rejected msg)
  end.

(** The callback [handleDeleteTrip] hands to [setTimeout] once the user has
    pressed "Remove" (lines 1489-1528). [update_reply] is how the backend
    answers the update of the row. *)
Definition remove_favorite_task (env : Env) (update_reply : Reply) (tripId : string)
  : Eff (Sys HomeState) unit :=
  try_catch
    (answer ← supabase_getUser env;
     let user := fst answer in
     _ ← throw_if (snd answer);
     if negb (truthy user) then
       console_error "User must be logged in to remove trip from favorites"
     else
       (* Update the trip's bookmarked status in Supabase *)
       updateError ← supabase_update "trips" update_reply
                       (fun w => set_tripsTable
                                   (alter (set_field "bookmarked" (JBool false)) tripId
                                      (tripsTable w)) w);
       _ ← throw_if updateError;
       (* Update local trips state *)
       _ ← setTrips (List.filter (fun trip => negb (same_value (prop "id" trip) (JStr tripId))));
       (* Remove from deleting items *)
       setDeletingItems (fun prev => prev ∖ {[tripId]}))
    (fun err =>
       _ ← console_error "Error removing trip from favorites:";
       _ ← modify (with_world (emit (AlertShown "Error" "Could not remove trip from favorites.")));
       setDeletingItems (fun prev => prev ∖ {[tripId]})).

(** [handleDeleteTrip] (lines 1472-1533): the confirmation dialog, and what
    follows the user's choice; the delay of the animation is not modelled. *)
Definition handleDeleteTrip (env : Env) (update_reply : Reply) (tripId : string)
    (confirmed : bool) : Eff (Sys HomeState) unit :=
  _ ← modify (with_world (emit (AlertShown "Remove Trip"
        "Are you sure you want to remove this trip from your favorites?")));
  if confirmed then
    _ ← setDeletingItems (fun prev => prev ∪ {[tripId]});
    remove_favorite_task env update_reply tripId
  else mret tt.

(** ** What the further properties observe *)

Definition is_string (v : JsValue) : bool :=
  match v with
  | JStr _ => true
  | _ => false
  end.

(** A value [renderAmenities] and [renderHighlights] can show: anything
    that is not an array, the empty array, or an array of strings. *)
Definition grid_renders (v : JsValue) : bool :=
  match v with
  | JArr items => forallb is_string items
  | _ => true
  end.

Definition is_console_error (e : Event) : bool :=
  match e with
  | ConsoleError _ => true
  | _ => false
  end.

Definition is_alert (e : Event) : bool :=
  match e with
  | AlertShown _ _ => true
  | _ => false
  end.

(** The stores of the device and of the backend, without the history. *)
Definition stores (w : World) : World :=
  {| asyncStorage := asyncStorage w; trailCache := trailCache w;
     weatherCache := weatherCache w; chatCache := chatCache w;
     tripsTable := tripsTable w; plansTable := plansTable w;
     events := [] |}.

(** A hostname parser for the examples: the text between ["://"] and the
    next ["/"], and a [TypeError] when the string has no scheme. *)
Fixpoint until_slash (s : string) : string :=
  match s with
  | EmptyString => EmptyString
  | String c rest => if Ascii.eqb c "/"%char then EmptyString else String c (until_slash rest)
  end.

Fixpoint sample_hostname (url : string) : Outcome string :=
  match strip_prefix "://" url with
  | Some rest => Ok (until_slash rest)
  | None =>
      match url with
      | EmptyString => Throw (TypeError "Invalid URL")
      | String _ rest => sample_hostname rest
      end
  end.

(** [data.weather[0].icon] and [data.weather[0].description], as
    [process_weather] reads them. *)
Definition payload_icon (data : JsValue) : Outcome JsValue :=
  let? weather_list := get "weather" data in
  let? weather0 := get_index0 weather_list in
  get "icon" weather0.

Definition payload_description (data : JsValue) : Outcome JsValue :=
  let? weather_list := get "weather" data in
  let? weather0 := get_index0 weather_list in
  get "description" weather0.

(** A trip on the equator. *)
Definition quito : JsValue :=
  JObj [("trip_id", JStr "t3"); ("name", JStr "Mitad del Mundo");
        ("cellService", JStr "Good coverage");
        ("coordinates", JObj [("latitude", JNum "0"); ("longitude", JNum "-78.45")])].

(** The deleting mark of [id] taken off. *)
Definition unmark (id : string) (s : Sys HomeState) : Sys HomeState :=
  with_comp (fun c => {| plans := plans c; trips := trips c; tripDates := tripDates c;
                         deletingItems := deletingItems c ∖ {[id]} |}) s.

(** The state the [catch] block of [delete_plan_task] leaves. *)
Definition plan_deletion_failed (planId : string) (s : Sys HomeState) : Sys HomeState :=
  unmark planId
    (with_world (emit (AlertShown "Error" "Could not delete plan or its trips."))
       (with_world (emit (ConsoleError "Error deleting plan and associated trips:")) s)).

(** The state after the trips of a plan have been deleted: from the table,
    from the two caches and from the list. *)
Definition plan_trips_deleted (tripIds : list JsValue) (s : Sys HomeState) : Sys HomeState :=
  with_comp (fun c => {| plans := plans c;
                         trips := List.filter (fun trip =>
                            negb (array_includes tripIds (or_else (prop "id" trip) (JStr ""))))
                            (trips c);
                         tripDates := tripDates c; deletingItems := deletingItems c |})
    (with_world (fun w => set_chatCache (delete_keys tripIds (chatCache w))
                            (set_trailCache (delete_keys tripIds (trailCache w)) w))
       (with_world (fun w => set_tripsTable (delete_keys tripIds (tripsTable w)) w) s)).

(** The state after the plan has been deleted: from the table and from the
    list. *)
Definition plan_deleted (planId : string) (s : Sys HomeState) : Sys HomeState :=
  with_comp (fun c => {| plans := List.filter (fun plan =>
                            negb (same_value (prop "id" plan) (JStr planId))) (plans c);
                         trips := trips c; tripDates := tripDates c;
                         deletingItems := deletingItems c |})
    (with_world (fun w => set_plansTable (delete planId (plansTable w)) w) s).

(** The state after the user has confirmed the dialog of a deletion. *)
Definition confirmed_deletion (title msg id : string) (s : Sys HomeState) : Sys HomeState :=
  with_comp (fun c => {| plans := plans c; trips := trips c; tripDates := tripDates c;
                         deletingItems := deletingItems c ∪ {[id]} |})
    (with_world (emit (AlertShown title msg)) s).

Definition deletePlanQuestion : string :=
  "Are you sure you want to delete this plan and its associated trips? This action cannot be undone.".

Definition removeTripQuestion : string :=
  "Are you sure you want to remove this trip from your favorites?".

(** The state the [catch] block of [remove_favorite_task] leaves. *)
Definition favorite_removal_failed (tripId : string) (s : Sys HomeState) : Sys HomeState :=
  unmark tripId
    (with_world (emit (AlertShown "Error" "Could not remove trip from favorites."))
       (with_world (emit (ConsoleError "Error removing trip from favorites:")) s)).

(** The state after the bookmark of a trip has been taken off: in the
    table and in the list. *)
Definition favorite_removed (tripId : string) (s : Sys HomeState) : Sys HomeState :=
  with_comp (fun c => {| plans := plans c;
                         trips := List.filter (fun trip =>
                            negb (same_value (prop "id" trip) (JStr tripId))) (trips c);
                         tripDates := tripDates c; deletingItems := deletingItems c |})
    (with_world (fun w => set_tripsTable
                            (alter (set_field "bookmarked" (JBool false)) tripId (tripsTable w))
                            w) s).

(** A 'trips' table and a trail cache that hold the favourite [t1]. *)
Definition worldWithFavorite : World :=
  set_tripsTable {["t1" := tripRow "t1"]} (set_trailCache {["t1" := eagleRock]} emptyWorld).

(** The home screen with the favourites [t1] and [t2]. *)
Definition twoFavorites : HomeState :=
  {| plans := []; trips := [JObj [("id", JStr "t1")]; JObj [("id", JStr "t2")]];
     tripDates := ∅; deletingItems := ∅ |}.

(** A value [handleTripPress] can join: [null], [undefined] or an
    array. *)
Definition joinable (v : JsValue) : bool := is_nullish v || isArray v.

(** A favourite as the backend returns it. *)
Definition favoriteRow : JsValue :=
  JObj [("trip_id", JStr "t1"); ("name", JStr "Eagle Rock Loop");
        ("location", JStr "Los Angeles, CA"); ("bookmarked", JBool true);
        ("highlights", JArr [JStr "scenic views"; JStr "sunset"]);
        ("coordinates", JObj [("latitude", JNum "34.14"); ("longitude", JNum "-118.18")])].

(** Text of ASCII characters only. On such text [toUpperCase] and
    [toLowerCase] change the 26 letters and nothing else, which is what
    [upper_ascii] and [lower_ascii] compute; outside it the engine's case
    mappings are those of Unicode, which are not modelled. *)
Fixpoint ascii_text (s : string) : bool :=
  match s with
  | EmptyString => true
  | String c rest => (nat_of_ascii c <? 128)%nat && ascii_text rest
  end.

(** A second trip with coordinates. *)
Definition mountWilson : JsValue :=
  JObj [("trip_id", JStr "t4"); ("name", JStr "Mount Wilson Trail");
        ("location", JStr "Sierra Madre, CA");
        ("cellService", JStr "No service");
        ("coordinates", JObj [("latitude", JNum "34.22"); ("longitude", JNum "-118.06")])].


(** ** Properties *)


(** *** The model on sample data *)

Example truthy_values :
  map truthy [JUndefined; JNull; JBool false; JNum "0"; JNum "NaN"; JStr "";
              JNum "34.14"; JStr "0"; JArr []; JObj []]
  = [false; false; false; false; false; false; true; true; true; true].
Proof. reflexivity. Qed.

Example toStringJs_values :
  map toStringJs [JNum "-118.18"; JStr "2025-06-15"; JNull; JUndefined;
                  JArr [JNum "1"; JNull; JArr [JStr "a"; JStr "b"]]; JObj []]
  = ["-118.18"; "2025-06-15"; "null"; "undefined"; "1,,a,b"; "[object Object]"].
Proof. reflexivity. Qed.

Example optional_chain_on_null :
  coordinate "latitude" JNull = Ok JUndefined
  /\ coordinate "latitude" eagleRock = Ok (JNum "34.14")
  /\ weather_date eagleRock = JStr "2025-06-15"
  /\ weather_date hiddenFalls = JStr "".
Proof. repeat split. Qed.

Example transform_row_spreads :
  transform_row "plan_id" (JObj [("plan_id", JStr "p1"); ("imageUrl", JStr "")])
  = Ok (JObj [("id", JStr "p1"); ("plan_id", JStr "p1"); ("imageUrl", JStr "");
              ("image", JStr placeholderImage)]).
Proof. reflexivity. Qed.

Example process_clear_sky :
  process_weather (host := utcHost) clearSkyPayload
  = Ok {| temperature := "71.6F"; status := "Clear Sky"; precipitation := "0 mm";
          high := "78F"; low := "65F"; feels_like := "70.2F"; humidity := "40%";
          seaLevel := "N/A"; sunrise := "12:42 PM"; sunset := "3:07 AM";
          iconUrl := "https://openweathermap.org/img/wn/01d@2x.png" |}.
Proof. reflexivity. Qed.

Example render_eagle_rock :
  InfoTab_render (host := utcHost) (comp (showing eagleRock emptyWorld))
  = Ok (MainScreen
          {| scr_name := JStr "Eagle Rock Loop";
             scr_location := JStr "Los Angeles, CA";
             scr_description := JStr "A short loop with a view of the basin.";
             scr_cell_icon := "cellular";
             scr_cell_text := "Cell Service: Good coverage";
             scr_weather := blank_card;
             scr_amenities := Some [("car", "Parking"); ("transgender", "Restrooms")];
             scr_highlights := Some [("eye", "Scenic views")];
             scr_warnings := None |}).
Proof. reflexivity. Qed.

Example render_while_loading :
  InfoTab_render (host := utcHost) InfoTab_initial = Ok LoadingScreen.
Proof. reflexivity. Qed.

Example sort_is_stable :
  js_sort (fun a b : Z * string => Some (fst a - fst b))
    [(3, "c"); (1, "a"); (3, "d"); (0, "z"); (1, "b")]
  = [(0, "z"); (1, "a"); (1, "b"); (3, "c"); (3, "d")].
Proof. reflexivity. Qed.

Example iso_dates :
  parse_iso_date "1970-01-01" = Some 0
  /\ parse_iso_date "2000-01-01" = Some 946684800000
  /\ parse_iso_date "2023-02-29" = None
  /\ utc_toDateString (parse_iso_date "2025-06-15") = "Sun Jun 15 2025".
Proof. repeat split. Qed.

(** *** Running computations *)

Ltac unfold_eff :=
  unfold mbind, mret, Eff_bind, Eff_ret, try_catch, try_finally, throw_if,
    throw, lift, gets, modify in *.

Ltac unfold_calls :=
  unfold AsyncStorage_setItem, AsyncStorage_getItem, getCachedTrailData,
    cacheTrailData, getCachedWeatherData, cacheWeatherData,
    deleteCachedTrailData, deleteCachedChatMessages, supabase_select,
    fetch_json, console_log, console_error, setTripInfo, setLoading, setError,
    setWeather in *.

Lemma new_events_app (w w' : World) (l : list Event) :
  events w' = (events w ++ l)%list -> new_events w w' = l.
Proof.
  intros H. unfold new_events. rewrite H. apply drop_app_length.
Qed.

Lemma new_events_refl (w w' : World) :
  events w' = events w -> new_events w w' = [].
Proof.
  intros H. apply new_events_app. rewrite H. symmetry. apply app_nil_r.
Qed.

Lemma truthy_text_Some (o : option string) (id : string) :
  o = Some id -> id <> "" -> truthy_text o = true.
Proof.
  intros -> Hid. unfold truthy_text, string_eqb.
  rewrite bool_decide_eq_false_2; auto.
Qed.

Lemma truthy_text_inv (o : option string) :
  truthy_text o = true -> exists id, o = Some id /\ id <> "".
Proof.
  destruct o as [id|]; simpl; [|discriminate].
  unfold string_eqb. intros H. exists id. split; [reflexivity|].
  intros ->. rewrite bool_decide_eq_true_2 in H; [discriminate | reflexivity].
Qed.

(** *** The blocks of [fetchTripInfo] *)






Lemma load_trail_data_throws (env : Env) (id : string) (s : Sys InfoTabState) (e : Exn) :
  truthy (default JNull (trailCache (world s) !! id)) = false ->
  select_trip env id = Throw e ->
  load_trail_data env id s =
    (Throw e, with_world (emit (SupabaseRequest "trips" "select")) s).
Proof.
  intros Ht Hsel. unfold load_trail_data. unfold_calls. unfold_eff.
  rewrite Ht, Hsel. reflexivity.
Qed.

(** [fetchTripInfo] around its [try] block: whatever the block does, the
    function returns, with the loading flag cleared; a throw of the block is
    logged and turned into the generic message. *)
Lemma fetchTripInfo_wrap (env : Env) (p : InfoTabProps) (s : Sys InfoTabState) :
  fetchTripInfo env p s =
    match fetchTripInfo_try env p (with_comp (put_loading true) s) with
    | (Ok _, s1) => (Ok tt, with_comp (put_loading false) s1)
    | (Throw _, s1) =>
        (Ok tt,
         with_comp (put_loading false)
           (with_comp (put_error "Failed to load trip info.")
              (with_world (emit (ConsoleError "Error loading trip info:")) s1)))
    end.
Proof.
  unfold fetchTripInfo. unfold_calls. unfold_eff.
  destruct (fetchTripInfo_try env p (with_comp (put_loading true) s)) as [[[]|e] s1];
    reflexivity.
Qed.


(** *** Cache-first loading of the trail data *)

(** A non-empty array of strings gives a grid; an array with another kind
    of item makes [map] throw. *)
Lemma map_outcome_icon_items_strings (icon_of : string -> string) (items : list JsValue) :
  forallb is_string items = true ->
  exists cells, map_outcome (icon_item icon_of) items = Ok cells.
Proof.
  induction items as [|x items IH]; simpl; [eauto|].
  intros [Hx Hrest]%andb_prop. destruct x; try discriminate.
  destruct (IH Hrest) as [cells ->]. simpl. eauto.
Qed.

Lemma map_outcome_icon_items_throws (icon_of : string -> string) (items : list JsValue) :
  forallb is_string items = false ->
  exists e, map_outcome (icon_item icon_of) items = Throw e.
Proof.
  induction items as [|x items IH]; simpl; [discriminate|].
  destruct x; simpl; eauto. intros H. destruct (IH H) as [e ->]. eauto.
Qed.

Lemma render_grid_succeeds (icon_of : string -> string) (v : JsValue) :
  (exists grid, render_grid icon_of v = Ok grid) <-> grid_renders v = true.
Proof.
  unfold render_grid, grid_renders.
  destruct v as [| | | | |items|]; try (split; eauto; fail).
  destruct items as [|x rest]; [split; eauto|].
  destruct (forallb is_string (x :: rest)) eqn:Hall.
  - destruct (map_outcome_icon_items_strings icon_of _ Hall) as [cells ->].
    split; eauto.
  - destruct (map_outcome_icon_items_throws icon_of _ Hall) as [e ->].
    split; [intros [grid H]; discriminate | discriminate].
Qed.

(** What [InfoTab] renders once the loading flag is cleared: the error
    screen while a message is pending or [tripInfo] is falsy; otherwise the
    trip view of [tripInfo], which can be built when [cellService] is a
    string and the two lists can be shown, and throws when not. *)
Lemma InfoTab_render_loaded {host : Host} (c : InfoTabState) :
  loading c = false ->
  let info := tripInfo c in
  (truthy_text (error c) = true ->
   InfoTab_render c = Ok (ErrorScreen (default "" (error c))))
  /\ (truthy_text (error c) = false -> truthy info = false ->
      InfoTab_render c = Ok (ErrorScreen "No trip data available."))
  /\ (truthy_text (error c) = false -> truthy info = true ->
      forall cs,
        prop "cellService" info = JStr cs ->
        grid_renders (prop "amenities" info) = true ->
        grid_renders (prop "highlights" info) = true ->
        exists amenities highlights,
          render_grid getAmenityIcon (prop "amenities" info) = Ok amenities
          /\ render_grid getHighlightIcon (prop "highlights" info) = Ok highlights
          /\ InfoTab_render c =
               Ok (MainScreen
                     {| scr_name := prop "name" info;
                        scr_location := prop "location" info;
                        scr_description := prop "description" info;
                        scr_cell_icon := if includes "no" (toLowerCase cs)
                                         then "close-circle" else "cellular";
                        scr_cell_text := "Cell Service: " ++ cs;
                        scr_weather := weather_card (weather c);
                        scr_amenities := amenities;
                        scr_highlights := highlights;
                        scr_warnings := render_warnings (prop "warnings" info) |}))
  /\ (truthy_text (error c) = false -> truthy info = true ->
      is_string (prop "cellService" info) = false
      \/ grid_renders (prop "amenities" info) = false
      \/ grid_renders (prop "highlights" info) = false ->
      exists e, InfoTab_render c = Throw e).
Proof.
  intros Hl info. subst info. unfold InfoTab_render. rewrite Hl.
  split; [|split; [|split]].
  - intros He. rewrite He. reflexivity.
  - intros He Hi. rewrite He, Hi. reflexivity.
  - intros He Hi cs Hcs Ha Hh. rewrite He, Hi. simpl.
    apply (proj2 (render_grid_succeeds getAmenityIcon _)) in Ha as [amenities Ha].
    apply (proj2 (render_grid_succeeds getHighlightIcon _)) in Hh as [highlights Hh].
    exists amenities, highlights. split; [exact Ha|]. split; [exact Hh|].
    unfold render_trip, cell_service_icon. rewrite Hcs, Ha, Hh. reflexivity.
  - intros He Hi Hbad. rewrite He, Hi. simpl.
    unfold render_trip, cell_service_icon.
    destruct (prop "cellService" (tripInfo c)) as [| | | |cs| |]; simpl; eauto.
    destruct Hbad as [Hbad | [Hbad | Hbad]]; [discriminate| |].
    + pose proof (render_grid_succeeds getAmenityIcon (prop "amenities" (tripInfo c))) as Hs.
      destruct (render_grid getAmenityIcon (prop "amenities" (tripInfo c))) as [grid|e];
        simpl; [|eauto].
      destruct Hs as [Hs _]. rewrite Hs in Hbad by eauto. discriminate.
    + destruct (render_grid getAmenityIcon (prop "amenities" (tripInfo c))) as [ga|e];
        simpl; [|eauto].
      pose proof (render_grid_succeeds getHighlightIcon (prop "highlights" (tripInfo c)))
        as Hs.
      destruct (render_grid getHighlightIcon (prop "highlights" (tripInfo c))) as [grid|e];
        simpl; [|eauto].
      destruct Hs as [Hs _]. rewrite Hs in Hbad by eauto. discriminate.
Qed.


(** *** The last-selected trip id *)

Lemma load_trail_data_storage (env : Env) (id : string) (s : Sys InfoTabState) :
  asyncStorage (world (snd (load_trail_data env id s))) = asyncStorage (world s).
Proof.
  unfold load_trail_data. unfold_calls. unfold_eff.
  destruct (truthy (default JNull (trailCache (world s) !! id))); [reflexivity|].
  destruct (select_trip env id) as [[[|row rest]|]|e]; reflexivity.
Qed.

(** After [resolve_trip_id], nothing in [fetchTripInfo] writes the
    storage. *)
Lemma fetchTripInfo_storage (env : Env) (p : InfoTabProps) (s : Sys InfoTabState) :
  asyncStorage (world (snd (fetchTripInfo env p s))) =
  asyncStorage (world (snd (resolve_trip_id env p s))).
Proof.
  rewrite fetchTripInfo_wrap. unfold fetchTripInfo_try.
  unfold mbind at 1. unfold Eff_bind.
  assert (Hres : resolve_trip_id env p (with_comp (put_loading true) s) =
                 (fst (resolve_trip_id env p s),
                  with_comp (put_loading true) (snd (resolve_trip_id env p s)))).
  { unfold resolve_trip_id. unfold_calls. unfold_eff.
    destruct (truthy_text (supplied_trip_id p)).
    - destruct (setItem_rejects env); reflexivity.
    - destruct (getItem_rejects env); reflexivity. }
  rewrite Hres.
  destruct (resolve_trip_id env p s) as [[cur|e] s1]; simpl; [|reflexivity].
  destruct (has_schedule (tripData p)); [reflexivity|].
  destruct (truthy_text cur); [|reflexivity].
  pose proof (load_trail_data_storage env (default "" cur)
                (with_comp (put_loading true) s1)) as H.
  destruct (load_trail_data env (default "" cur) (with_comp (put_loading true) s1))
    as [[[]|e] s2]; simpl in *; exact H.
Qed.

Lemma supplied_by_prop (p : InfoTabProps) (id : string) :
  tripId p = Some id -> id <> "" -> supplied_trip_id p = Some id.
Proof.
  intros H Hne. unfold supplied_trip_id.
  rewrite (truthy_text_Some _ _ H Hne). simpl. exact H.
Qed.

Lemma supplied_by_data (p : InfoTabProps) (id : string) :
  truthy_text (tripId p) = false -> Trip_id (tripData p) = Some id -> id <> "" ->
  supplied_trip_id p = Some id.
Proof.
  intros Hno H Hne. unfold supplied_trip_id.
  rewrite Hno, (truthy_text_Some _ _ H Hne). simpl. exact H.
Qed.

Lemma supplied_none (p : InfoTabProps) :
  truthy_text (tripId p) = false -> truthy_text (Trip_id (tripData p)) = false ->
  truthy_text (supplied_trip_id p) = false.
Proof.
  intros H1 H2. unfold supplied_trip_id. rewrite H1, H2. simpl. exact H1.
Qed.

Lemma fetchTripInfo_writes_supplied (env : Env) (p : InfoTabProps)
    (s : Sys InfoTabState) (id : string) :
  supplied_trip_id p = Some id -> id <> "" -> setItem_rejects env = false ->
  asyncStorage (world (snd (fetchTripInfo env p s))) !! "selectedTripId" = Some id.
Proof.
  intros Hsup Hne Hset. rewrite fetchTripInfo_storage.
  unfold resolve_trip_id. unfold_calls. unfold_eff.
  rewrite (truthy_text_Some _ _ Hsup Hne), Hset, Hsup. simpl.
  apply lookup_insert_eq.
Qed.

(** [tripData?.id] as the source reads it, and as [Trip_id] gives it. *)
Lemma Trip_id_read (t : JsValue) (id : string) :
  get_opt "id" t = JStr id -> Trip_id t = Some id.
Proof. unfold Trip_id. intros ->. reflexivity. Qed.

Lemma Trip_id_falsy (t : JsValue) :
  truthy (get_opt "id" t) = false -> truthy_text (Trip_id t) = false.
Proof.
  unfold Trip_id. destruct (get_opt "id" t); simpl; auto.
Qed.

(** C7. [fetchTripInfo] keeps the last-selected trip id in the key-value
    storage. An id that is available, from the [tripId] prop or else from
    the [id] property of [tripData], is written under the key
    ["selectedTripId"]. When the caller supplies none (no [tripId] and a
    falsy or missing [tripData.id]), the value stored under
    ["selectedTripId"] is read and is the current trip id: the trip data is
    then loaded for it. *)
Theorem fetchTripInfo_selected_trip_id (env : Env) (p : InfoTabProps)
    (s : Sys InfoTabState) :
  let s' := snd (fetchTripInfo env p s) in
  (forall id,
      tripId p = Some id -> id <> "" -> setItem_rejects env = false ->
      asyncStorage (world s') !! "selectedTripId" = Some id)
  /\ (forall id,
      truthy_text (tripId p) = false -> get_opt "id" (tripData p) = JStr id -> id <> "" ->
      setItem_rejects env = false ->
      asyncStorage (world s') !! "selectedTripId" = Some id
      /\ resolve_trip_id env p s =
           (Ok (Some id),
            with_world (fun w => set_asyncStorage
                          (<["selectedTripId" := id]> (asyncStorage w)) w) s))
  /\ (forall stored,
      truthy_text (tripId p) = false -> truthy (get_opt "id" (tripData p)) = false ->
      getItem_rejects env = false ->
      asyncStorage (world s) !! "selectedTripId" = Some stored -> stored <> "" ->
      resolve_trip_id env p s = (Ok (Some stored), s)
      /\ asyncStorage (world s') = asyncStorage (world s)
      /\ (has_schedule (tripData p) = false ->
          fetchTripInfo_try env p s = load_trail_data env stored s)).
Proof.
  intros s'. subst s'. split; [|split].
  - intros id Hid Hne Hset.
    apply fetchTripInfo_writes_supplied; auto using supplied_by_prop.
  - intros id Hno Hid Hne Hset. apply Trip_id_read in Hid.
    pose proof (supplied_by_data p id Hno Hid Hne) as Hsup.
    split; [apply fetchTripInfo_writes_supplied; auto|].
    unfold resolve_trip_id. unfold_calls. unfold_eff.
    rewrite Hsup, (truthy_text_Some (Some id) id eq_refl Hne), Hset. reflexivity.
  - intros stored Hno1 Hno2 Hget Hst Hne. apply Trip_id_falsy in Hno2.
    pose proof (supplied_none p Hno1 Hno2) as Hsup.
    assert (Hres : resolve_trip_id env p s = (Ok (Some stored), s)).
    { unfold resolve_trip_id. unfold_calls. unfold_eff.
      rewrite Hsup, Hget, Hst.
      rewrite (truthy_text_Some (Some stored) stored eq_refl Hne). reflexivity. }
    split; [exact Hres|]. split.
    + rewrite fetchTripInfo_storage, Hres. reflexivity.
    + intros Hsched. unfold fetchTripInfo_try. unfold mbind at 1. unfold Eff_bind.
      rewrite Hres, Hsched.
      rewrite (truthy_text_Some (Some stored) stored eq_refl Hne). reflexivity.
Qed.

(** *** Errors of the trip-info load *)




(** *** The blocks of [fetchWeather] *)

Section FetchWeatherRuns.
Context {host : Host}.
Variables (env : Env) (s : Sys InfoTabState) (lat lon : JsValue).

Hypothesis Hlat : coordinate "latitude" (tripInfo (comp s)) = Ok lat.
Hypothesis Hlat_truthy : truthy lat = true.
Hypothesis Hlon : coordinate "longitude" (tripInfo (comp s)) = Ok lon.
Hypothesis Hlon_truthy : truthy lon = true.

Let date : JsValue := weather_date (tripInfo (comp s)).
Let key : string := weather_cache_key lat lon date.
Let url : string := weather_url lat lon date.
Let cached : JsValue := default JNull (weatherCache (world s) !! key).

(** A hit: the cached value is processed, nothing is fetched. *)
Lemma fetchWeather_hit :
  truthy cached = true ->
  fetchWeather env s =
    let s1 := with_world (emit (ConsoleLog
                "-------Successfully fetched weather data from CACHE-------")) s in
    match process_weather cached with
    | Ok w => (Ok tt, with_comp (put_weather w) s1)
    | Throw _ =>
        (Ok tt, with_world (emit (ConsoleError "Failed to process weather data:")) s1)
    end.
Proof.
  intros Hhit. unfold fetchWeather. unfold_calls. unfold_eff.
  rewrite Hlat, Hlat_truthy, Hlon, Hlon_truthy. simpl.
  fold date. fold key. fold cached. rewrite Hhit. simpl.
  destruct (process_weather cached); reflexivity.
Qed.

(** A miss and a failed fetch: the error is logged and nothing else
    happens. *)
Lemma fetchWeather_miss_throws (e : Exn) :
  truthy cached = false ->
  http_get_json env url = Throw e ->
  fetchWeather env s =
    (Ok tt,
     with_world (emit (ConsoleError "Failed to fetch weather:"))
       (with_world (emit (HttpGet url)) s)).
Proof.
  intros Hmiss Hget. unfold fetchWeather. unfold_calls. unfold_eff.
  rewrite Hlat, Hlat_truthy, Hlon, Hlon_truthy. simpl.
  fold date. fold key. fold cached. rewrite Hmiss. fold url. rewrite Hget.
  reflexivity.
Qed.

(** A miss and an answer: the payload is stored under the key, then
    processed. *)
Lemma fetchWeather_miss_answer (data : JsValue) :
  truthy cached = false ->
  http_get_json env url = Ok data ->
  fetchWeather env s =
    let s1 := with_world (fun w => set_weatherCache (<[key := data]> (weatherCache w)) w)
                (with_world (emit (ConsoleLog
                   "-------Successfully fetched weather data from API-------"))
                   (with_world (emit (HttpGet url)) s)) in
    match process_weather data with
    | Ok w => (Ok tt, with_comp (put_weather w) s1)
    | Throw _ =>
        (Ok tt, with_world (emit (ConsoleError "Failed to process weather data:")) s1)
    end.
Proof.
  intros Hmiss Hget. unfold fetchWeather. unfold_calls. unfold_eff.
  rewrite Hlat, Hlat_truthy, Hlon, Hlon_truthy. simpl.
  fold date. fold key. fold cached. rewrite Hmiss. fold url. rewrite Hget.
  simpl. destruct (process_weather data); reflexivity.
Qed.
End FetchWeatherRuns.

(** [fetchWeather] never writes [tripInfo]. *)
Lemma fetchWeather_keeps_tripInfo {host : Host} (env : Env) (s : Sys InfoTabState) :
  tripInfo (comp (snd (fetchWeather env s))) = tripInfo (comp s).
Proof.
  unfold fetchWeather. unfold_calls. unfold_eff.
  destruct (coordinate "latitude" (tripInfo (comp s))) as [lat|e]; [|reflexivity].
  simpl. destruct (truthy lat); [|reflexivity]. simpl.
  destruct (coordinate "longitude" (tripInfo (comp s))) as [lon|e]; [|reflexivity].
  simpl. destruct (truthy lon); [|reflexivity]. simpl.
  destruct (truthy (default JNull _)); simpl.
  - destruct (process_weather _); reflexivity.
  - destruct (http_get_json env _) as [data|e]; simpl; [|reflexivity].
    destruct (process_weather data); reflexivity.
Qed.

(** One run of [fetchWeather] makes at most one HTTP GET. *)
Lemma fetchWeather_at_most_one_get {host : Host} (env : Env) (s : Sys InfoTabState) :
  (length (List.filter is_http_get
             (new_events (world s) (world (snd (fetchWeather env s))))) <= 1)%nat.
Proof.
  unfold fetchWeather. unfold_calls. unfold_eff.
  destruct (coordinate "latitude" (tripInfo (comp s))) as [lat|e];
    [|simpl; rewrite new_events_refl; auto].
  simpl. destruct (truthy lat); [|simpl; rewrite new_events_refl; auto]. simpl.
  destruct (coordinate "longitude" (tripInfo (comp s))) as [lon|e];
    [|simpl; rewrite new_events_refl; auto].
  simpl. destruct (truthy lon); [|simpl; rewrite new_events_refl; auto]. simpl.
  destruct (truthy (default JNull _)); simpl.
  - destruct (process_weather _); simpl;
      (erewrite new_events_app; [|simpl; try rewrite <- app_assoc; reflexivity]);
      simpl; lia.
  - destruct (http_get_json env _) as [data|e]; simpl.
    + destruct (process_weather data); simpl;
        (erewrite new_events_app; [|simpl; repeat rewrite <- app_assoc; reflexivity]);
        simpl; lia.
    + erewrite new_events_app; [|simpl; repeat rewrite <- app_assoc; reflexivity].
      simpl; lia.
Qed.

(** A run that finds a truthy value under the key serves it and leaves the
    network and the cache alone. *)
Lemma fetchWeather_served_from_cache {host : Host} (env : Env) (s : Sys InfoTabState)
    (lat lon data : JsValue) :
  coordinate "latitude" (tripInfo (comp s)) = Ok lat -> truthy lat = true ->
  coordinate "longitude" (tripInfo (comp s)) = Ok lon -> truthy lon = true ->
  weatherCache (world s) !! weather_cache_key lat lon (weather_date (tripInfo (comp s)))
    = Some data ->
  truthy data = true ->
  let s' := snd (fetchWeather env s) in
  List.filter is_http_get (new_events (world s) (world s')) = []
  /\ weatherCache (world s') = weatherCache (world s)
  /\ weather (comp s') = match process_weather data with
                         | Ok w => Some w
                         | Throw _ => weather (comp s)
                         end
  /\ (forall e, process_weather data = Throw e ->
        new_events (world s) (world s') =
          [ConsoleLog "-------Successfully fetched weather data from CACHE-------";
           ConsoleError "Failed to process weather data:"]).
Proof.
  intros Hlat Hlt Hlon Hlnt Hc Ht s'. subst s'.
  rewrite (fetchWeather_hit env s lat lon Hlat Hlt Hlon Hlnt) by (rewrite Hc; exact Ht).
  rewrite Hc. simpl.
  destruct (process_weather data) as [w|e]; simpl.
  - erewrite new_events_app; [|simpl; reflexivity]. repeat split. discriminate.
  - erewrite new_events_app; [|simpl; rewrite <- app_assoc; reflexivity].
    repeat split.
Qed.

(** A run that finds nothing truthy under the key makes exactly one GET,
    to the weather URL of the triple. *)
Lemma fetchWeather_miss_one_get {host : Host} (env : Env) (s : Sys InfoTabState)
    (lat lon : JsValue) :
  coordinate "latitude" (tripInfo (comp s)) = Ok lat -> truthy lat = true ->
  coordinate "longitude" (tripInfo (comp s)) = Ok lon -> truthy lon = true ->
  truthy (default JNull (weatherCache (world s)
            !! weather_cache_key lat lon (weather_date (tripInfo (comp s))))) = false ->
  List.filter is_http_get (new_events (world s) (world (snd (fetchWeather env s))))
    = [HttpGet (weather_url lat lon (weather_date (tripInfo (comp s))))].
Proof.
  intros Hlat Hlt Hlon Hlnt Hmiss.
  destruct (http_get_json env (weather_url lat lon (weather_date (tripInfo (comp s)))))
    as [data|e] eqn:Hget.
  - rewrite (fetchWeather_miss_answer env s lat lon Hlat Hlt Hlon Hlnt data Hmiss Hget).
    destruct (process_weather data); simpl;
      (erewrite new_events_app; [|simpl; repeat rewrite <- app_assoc; reflexivity]);
      reflexivity.
  - rewrite (fetchWeather_miss_throws env s lat lon Hlat Hlt Hlon Hlnt e Hmiss Hget).
    simpl. erewrite new_events_app; [|simpl; repeat rewrite <- app_assoc; reflexivity].
    reflexivity.
Qed.

(** *** The weather cache *)

(** C2, as amended. For a trip whose coordinates are truthy, one run of
    [fetchWeather] makes at most one HTTP GET. The cache key is the string
    [lat,lon,date], the date being [tripInfo.dateRange.startDate] or empty.
    A truthy value cached under the key suppresses the GET and leaves the
    cache as it is. On a miss the GET goes to the weather URL of the triple,
    the JSON it returns is stored under the key by [cacheWeatherData], and
    once a truthy payload is stored no later run for the triple makes a
    GET; a fetch that throws stores nothing. *)
Theorem fetchWeather_cache_key {host : Host} (env : Env) (s : Sys InfoTabState) :
  let info := tripInfo (comp s) in
  let s' := snd (fetchWeather env s) in
  let gets := List.filter is_http_get (new_events (world s) (world s')) in
  (length gets <= 1)%nat
  /\ forall lat lon,
       coordinate "latitude" info = Ok lat -> truthy lat = true ->
       coordinate "longitude" info = Ok lon -> truthy lon = true ->
       let start := get_opt "startDate" (prop "dateRange" info) in
       let date := if truthy start then start else JStr "" in
       let key := toStringJs lat ++ "," ++ toStringJs lon ++ "," ++ toStringJs date in
       let cached := default JNull (weatherCache (world s) !! key) in
       (truthy cached = true ->
          gets = [] /\ weatherCache (world s') = weatherCache (world s))
       /\ (truthy cached = false ->
             gets = [HttpGet (weather_url lat lon date)]
             /\ (forall e,
                  http_get_json env (weather_url lat lon date) = Throw e ->
                  weatherCache (world s') = weatherCache (world s))
             /\ forall data,
                  http_get_json env (weather_url lat lon date) = Ok data ->
                  weatherCache (world s') = <[key := data]> (weatherCache (world s))
                  /\ (truthy data = true ->
                      forall env2,
                        List.filter is_http_get
                          (new_events (world s') (world (snd (fetchWeather env2 s')))) = [])).
Proof.
  intros info s' gets. split; [apply fetchWeather_at_most_one_get|].
  intros lat lon Hlat Hlt Hlon Hlnt start date key cached.
  subst info s' gets. split.
  - intros Hhit.
    rewrite (fetchWeather_hit env s lat lon Hlat Hlt Hlon Hlnt Hhit).
    destruct (process_weather _); simpl;
      (erewrite new_events_app; [|simpl; try rewrite <- app_assoc; reflexivity]);
      auto.
  - intros Hmiss. split; [|split].
    + apply (fetchWeather_miss_one_get env s lat lon); assumption.
    + intros e Hget.
      rewrite (fetchWeather_miss_throws env s lat lon Hlat Hlt Hlon Hlnt e Hmiss Hget).
      reflexivity.
    + intros data Hget.
      assert (Hcache : weatherCache (world (snd (fetchWeather env s)))
                       = <[key := data]> (weatherCache (world s))).
      { rewrite (fetchWeather_miss_answer env s lat lon Hlat Hlt Hlon Hlnt data Hmiss Hget).
        destruct (process_weather data); reflexivity. }
      split; [exact Hcache|].
      intros Hdata env2.
      pose proof (fetchWeather_keeps_tripInfo env s) as Hinfo.
      apply (fetchWeather_served_from_cache env2 _ lat lon data);
        try (rewrite Hinfo); auto.
      rewrite Hcache. apply lookup_insert_eq.
Qed.

(** C3, as amended. When the weather HTTP fetch throws, [fetchWeather]
    catches the error, logs it and returns: the component state is untouched
    (no weather is set and no error message), no cache entry is written and
    nothing is shown to the user. The weather card therefore shows what it
    showed before the run: the placeholder ["--"] in every field when no
    weather has been set so far, and the fields of the weather that an
    earlier run has set when there is one. *)
Theorem fetchWeather_fetch_failure {host : Host} (env : Env) (s : Sys InfoTabState)
    (lat lon : JsValue) (e : Exn) :
  let info := tripInfo (comp s) in
  let date := weather_date info in
  coordinate "latitude" info = Ok lat -> truthy lat = true ->
  coordinate "longitude" info = Ok lon -> truthy lon = true ->
  truthy (default JNull (weatherCache (world s) !! weather_cache_key lat lon date)) = false ->
  http_get_json env (weather_url lat lon date) = Throw e ->
  let s' := snd (fetchWeather env s) in
  fst (fetchWeather env s) = Ok tt
  /\ new_events (world s) (world s') =
       [HttpGet (weather_url lat lon date); ConsoleError "Failed to fetch weather:"]
  /\ comp s' = comp s
  /\ weatherCache (world s') = weatherCache (world s)
  /\ trailCache (world s') = trailCache (world s)
  /\ asyncStorage (world s') = asyncStorage (world s)
  /\ (weather (comp s) = None ->
      weather_card (weather (comp s')) = blank_card
      /\ forall scr, InfoTab_render (comp s') = Ok (MainScreen scr) ->
                     scr_weather scr = blank_card)
  /\ (forall earlier, weather (comp s) = Some earlier ->
      weather_card (weather (comp s')) =
        {| card_temperature := temperature earlier;
           card_status := status earlier;
           card_feels_like := feels_like earlier;
           card_icon := if string_eqb (iconUrl earlier) "" then None
                        else Some (iconUrl earlier);
           card_high := high earlier;
           card_low := low earlier;
           card_humidity := humidity earlier;
           card_precipitation := precipitation earlier;
           card_sunrise := sunrise earlier;
           card_sunset := sunset earlier |}
      /\ forall scr, InfoTab_render (comp s') = Ok (MainScreen scr) ->
                     scr_weather scr = weather_card (Some earlier))
  /\ (loading (comp s) = false -> truthy_text (error (comp s)) = false ->
      truthy info = true ->
      forall cs,
        prop "cellService" info = JStr cs ->
        grid_renders (prop "amenities" info) = true ->
        grid_renders (prop "highlights" info) = true ->
        exists scr, InfoTab_render (comp s') = Ok (MainScreen scr)
                    /\ scr_weather scr = weather_card (weather (comp s))
                    /\ scr_name scr = prop "name" info).
Proof.
  intros info date Hlat Hlt Hlon Hlnt Hmiss Hget s'. subst info date s'.
  rewrite (fetchWeather_miss_throws env s lat lon Hlat Hlt Hlon Hlnt e Hmiss Hget).
  simpl. split; [reflexivity|]. split.
  { erewrite new_events_app; [|simpl; rewrite <- app_assoc; reflexivity]. reflexivity. }
  do 4 (split; [reflexivity|]).
  assert (Hscreen : forall scr, InfoTab_render (comp s) = Ok (MainScreen scr) ->
                                scr_weather scr = weather_card (weather (comp s))).
  { intros scr. unfold InfoTab_render.
    destruct (loading (comp s)); [discriminate|].
    destruct (truthy_text (error (comp s)) || negb (truthy (tripInfo (comp s))));
      [discriminate|].
    unfold render_trip.
    destruct (cell_service_icon _); [|discriminate].
    destruct (render_grid getAmenityIcon _); [|discriminate].
    destruct (render_grid getHighlightIcon _); [|discriminate].
    simpl. intros H. injection H as <-. reflexivity. }
  split; [|split].
  - intros Hnone. rewrite Hnone. split; [reflexivity|].
    intros scr Hscr. rewrite (Hscreen scr Hscr), Hnone. reflexivity.
  - intros earlier Hsome. rewrite Hsome. split; [reflexivity|].
    intros scr Hscr. rewrite (Hscreen scr Hscr), Hsome. reflexivity.
  - intros Hl He Hi cs Hcs Ha Hh.
    destruct (InfoTab_render_loaded (comp s) Hl) as (_ & _ & Hview & _).
    destruct (Hview He Hi cs Hcs Ha Hh) as (amenities & highlights & _ & _ & Hr).
    eexists. split; [exact Hr|]. split; reflexivity.
Qed.

(** C8, as amended. [fetchWeather] stores a freshly fetched payload before
    it processes it: a payload whose processing throws is already in the
    cache under the key of the triple, the failure is only logged, and, when
    the payload is truthy, every later run for the key finds it, skips the
    network and fails on it again; a falsy payload is stored as well, but a
    later run does not take it for a hit and goes to the network. *)
Theorem fetchWeather_caches_unprocessed {host : Host} (env : Env) (s : Sys InfoTabState)
    (lat lon data : JsValue) (e : Exn) :
  let info := tripInfo (comp s) in
  let date := weather_date info in
  let key := weather_cache_key lat lon date in
  coordinate "latitude" info = Ok lat -> truthy lat = true ->
  coordinate "longitude" info = Ok lon -> truthy lon = true ->
  truthy (default JNull (weatherCache (world s) !! key)) = false ->
  http_get_json env (weather_url lat lon date) = Ok data ->
  process_weather data = Throw e ->
  let s1 := snd (fetchWeather env s) in
  weatherCache (world s1) !! key = Some data
  /\ weather (comp s1) = weather (comp s)
  /\ last (events (world s1)) = Some (ConsoleError "Failed to process weather data:")
  /\ (truthy data = true ->
      forall env2,
        let s2 := snd (fetchWeather env2 s1) in
        List.filter is_http_get (new_events (world s1) (world s2)) = []
        /\ new_events (world s1) (world s2) =
             [ConsoleLog "-------Successfully fetched weather data from CACHE-------";
              ConsoleError "Failed to process weather data:"]
        /\ weatherCache (world s2) = weatherCache (world s1)
        /\ weather (comp s2) = weather (comp s))
  /\ (truthy data = false ->
      forall env2,
        List.filter is_http_get (new_events (world s1) (world (snd (fetchWeather env2 s1))))
          = [HttpGet (weather_url lat lon date)]).
Proof.
  intros info date key Hlat Hlt Hlon Hlnt Hmiss Hget Hproc s1.
  assert (Hs1 : fetchWeather env s =
            (Ok tt,
             with_world (emit (ConsoleError "Failed to process weather data:"))
               (with_world (fun w => set_weatherCache (<[key := data]> (weatherCache w)) w)
                  (with_world (emit (ConsoleLog
                     "-------Successfully fetched weather data from API-------"))
                     (with_world (emit (HttpGet (weather_url lat lon date))) s))))).
  { rewrite (fetchWeather_miss_answer env s lat lon Hlat Hlt Hlon Hlnt data Hmiss Hget).
    simpl. rewrite Hproc. reflexivity. }
  assert (Hcache : weatherCache (world s1) !! key = Some data).
  { subst s1. rewrite Hs1. simpl. apply lookup_insert_eq. }
  assert (Hweather : weather (comp s1) = weather (comp s)).
  { subst s1. rewrite Hs1. reflexivity. }
  split; [exact Hcache|]. split; [exact Hweather|]. split.
  { subst s1. rewrite Hs1. simpl. apply last_snoc. }
  assert (Hinfo : tripInfo (comp s1) = tripInfo (comp s))
    by (subst s1; apply fetchWeather_keeps_tripInfo).
  split.
  - intros Hdata env2 s2.
    destruct (fetchWeather_served_from_cache env2 s1 lat lon data) as (H1 & H2 & H3 & H4);
      try (rewrite Hinfo); auto.
    split; [exact H1|]. split; [exact (H4 e Hproc)|]. split; [exact H2|].
    subst s2. rewrite H3, Hproc. exact Hweather.
  - intros Hdata env2.
    rewrite (fetchWeather_miss_one_get env2 s1 lat lon); rewrite ?Hinfo; auto.
    fold info date key. rewrite Hcache. exact Hdata.
Qed.

(** *** Concrete runs of [InfoTab] *)



(** C7 at a concrete input: the id of the prop is stored; without the
    prop, the id of [tripData] is stored; with no id supplied, the stored one
    is what the load runs with. *)
Lemma fetchTripInfo_selected_trip_id_witness :
  asyncStorage (world (snd (fetchTripInfo quietEnv (byId "t1") (mounted emptyWorld))))
    !! "selectedTripId" = Some "t1"
  /\ (let s := mounted worldWithSelection in
      let p := {| tripId := None;
                  tripData := JObj [("id", JStr "t7"); ("name", JStr "Mist Trail")] |} in
      asyncStorage (world (snd (fetchTripInfo quietEnv p s))) !! "selectedTripId"
      = Some "t7"
      /\ fst (resolve_trip_id quietEnv p s) = Ok (Some "t7"))
  /\ (let s := mounted worldWithSelection in
      let p := {| tripId := None; tripData := JUndefined |} in
      resolve_trip_id quietEnv p s = (Ok (Some "t1"), s)
      /\ asyncStorage (world (snd (fetchTripInfo quietEnv p s))) = asyncStorage (world s)
      /\ fetchTripInfo_try quietEnv p s = load_trail_data quietEnv "t1" s).
Proof.
  split; [|split].
  - apply (proj1 (fetchTripInfo_selected_trip_id quietEnv (byId "t1") (mounted emptyWorld))
             "t1"); [reflexivity | discriminate | reflexivity].
  - destruct (proj1 (proj2 (fetchTripInfo_selected_trip_id quietEnv
                    {| tripId := None;
                       tripData := JObj [("id", JStr "t7"); ("name", JStr "Mist Trail")] |}
                    (mounted worldWithSelection)))
             "t7" eq_refl eq_refl ltac:(discriminate) eq_refl) as [Hstored Hres].
    split; [exact Hstored|]. rewrite Hres. reflexivity.
  - destruct (proj2 (proj2 (fetchTripInfo_selected_trip_id quietEnv
                    {| tripId := None; tripData := JUndefined |}
                    (mounted worldWithSelection)))
             "t1" eq_refl eq_refl eq_refl ltac:(vm_compute; reflexivity) ltac:(discriminate))
      as (Hres & Hstore & Hload).
    split; [exact Hres|]. split; [exact Hstore | exact (Hload eq_refl)].
Defined.



(** *** Fields read without a presence check *)

(** C4, the code at the failing inputs. A trip record without
    [cellService] makes the render of [InfoTab] throw, and a trip record
    without [coordinates] makes [fetchWeather] throw, outside of any [try]:
    both fields are dereferenced with no presence check before. *)
Theorem unchecked_fields_throw {host : Host} (env : Env) (s : Sys InfoTabState) :
  (loading (comp s) = false -> truthy_text (error (comp s)) = false ->
   truthy (tripInfo (comp s)) = true ->
   is_nullish (prop "cellService" (tripInfo (comp s))) = true ->
   exists msg, InfoTab_render (comp s) = Throw (TypeError msg))
  /\ (is_nullish (tripInfo (comp s)) = false ->
      is_nullish (prop "coordinates" (tripInfo (comp s))) = true ->
      exists msg, fst (fetchWeather env s) = Throw (TypeError msg)).
Proof.
  split.
  - intros Hl He Ht Hcell. unfold InfoTab_render, render_trip, cell_service_icon.
    rewrite Hl, He, Ht. simpl.
    destruct (prop "cellService" (tripInfo (comp s))); try discriminate; simpl; eauto.
  - intros Hinfo Hcoord. unfold fetchWeather. unfold_calls. unfold_eff.
    unfold coordinate, get. rewrite Hinfo, Hcoord. simpl. eauto.
Qed.

Lemma unchecked_fields_throw_witness :
  (exists msg, InfoTab_render (host := utcHost) (comp (showing hiddenFalls emptyWorld))
               = Throw (TypeError msg))
  /\ (exists msg, fst (fetchWeather (host := utcHost) quietEnv (showing hiddenFalls emptyWorld))
                  = Throw (TypeError msg)).
Proof.
  split.
  - apply (proj1 (unchecked_fields_throw (host := utcHost) quietEnv
                    (showing hiddenFalls emptyWorld))); reflexivity.
  - apply (proj2 (unchecked_fields_throw (host := utcHost) quietEnv
                    (showing hiddenFalls emptyWorld))); reflexivity.
Defined.

(** *** Concrete runs of [fetchWeather] *)

Lemma eagleRock_key :
  weather_cache_key (JNum "34.14") (JNum "-118.18") (weather_date eagleRock) = eagleRockKey
  /\ weather_url (host := utcHost) (JNum "34.14") (JNum "-118.18") (weather_date eagleRock)
     = eagleRockUrl.
Proof. split; reflexivity. Qed.

(** C2, the claim as stated, fails. With the network down, two runs for
    the same trip make two GETs for the same triple, since a failed fetch
    stores nothing; and an entry that is cached under the key but falsy (the
    JSON [false] a fetch once returned) suppresses nothing. *)
Lemma fetchWeather_fetches_again :
  (let s1 := snd (fetchWeather (host := utcHost) quietEnv (showing eagleRock emptyWorld)) in
   let s2 := snd (fetchWeather (host := utcHost) quietEnv s1) in
   List.filter is_http_get (events (world s2)) = [HttpGet eagleRockUrl; HttpGet eagleRockUrl])
  /\ (let w := withWeatherCache {[eagleRockKey := JBool false]} in
      let s' := snd (fetchWeather (host := utcHost) quietEnv (showing eagleRock w)) in
      weatherCache w !! eagleRockKey = Some (JBool false)
      /\ List.filter is_http_get (new_events w (world s')) = [HttpGet eagleRockUrl]).
Proof.
  split; [reflexivity|]. split; reflexivity.
Qed.

(** C2 as amended, at a concrete input: a cached answer suppresses the GET,
    and a miss stores what the GET returned. *)
Lemma fetchWeather_cache_key_witness :
  (let s := showing eagleRock (withWeatherCache {[eagleRockKey := clearSkyPayload]}) in
   let s' := snd (fetchWeather (host := utcHost) quietEnv s) in
   List.filter is_http_get (new_events (world s) (world s')) = []
   /\ weatherCache (world s') = weatherCache (world s))
  /\ (let env := envOf false false (fun _ => Ok None) (fun _ => Ok clearSkyPayload) in
      let s := showing eagleRock emptyWorld in
      let s' := snd (fetchWeather (host := utcHost) env s) in
      List.filter is_http_get (new_events (world s) (world s')) = [HttpGet eagleRockUrl]
      /\ weatherCache (world s') = <[eagleRockKey := clearSkyPayload]> (weatherCache (world s))).
Proof.
  split.
  - apply (proj1 (proj2 (fetchWeather_cache_key (host := utcHost) quietEnv
             (showing eagleRock (withWeatherCache {[eagleRockKey := clearSkyPayload]})))
             (JNum "34.14") (JNum "-118.18") eq_refl eq_refl eq_refl eq_refl)).
    reflexivity.
  - destruct (proj2 (proj2 (fetchWeather_cache_key (host := utcHost)
             (envOf false false (fun _ => Ok None) (fun _ => Ok clearSkyPayload))
             (showing eagleRock emptyWorld))
             (JNum "34.14") (JNum "-118.18") eq_refl eq_refl eq_refl eq_refl) eq_refl)
      as (Hgets & _ & Hstore).
    split; [exact Hgets|].
    exact (proj1 (Hstore clearSkyPayload eq_refl)).
Defined.

(** C3 at a concrete input: the network is down while the trip is shown
    for the first time. *)
Lemma fetchWeather_fetch_failure_witness :
  let s := showing eagleRock emptyWorld in
  let s' := snd (fetchWeather (host := utcHost) quietEnv s) in
  fst (fetchWeather (host := utcHost) quietEnv s) = Ok tt
  /\ new_events (world s) (world s') =
       [HttpGet (weather_url (host := utcHost) (JNum "34.14") (JNum "-118.18")
                   (weather_date eagleRock));
        ConsoleError "Failed to fetch weather:"]
  /\ comp s' = comp s
  /\ weatherCache (world s') = weatherCache (world s)
  /\ trailCache (world s') = trailCache (world s)
  /\ asyncStorage (world s') = asyncStorage (world s)
  /\ weather_card (weather (comp s')) = blank_card
  /\ exists scr, InfoTab_render (host := utcHost) (comp s') = Ok (MainScreen scr)
                 /\ scr_weather scr = blank_card
                 /\ scr_name scr = JStr "Eagle Rock Loop".
Proof.
  destruct (fetchWeather_fetch_failure (host := utcHost) quietEnv
              (showing eagleRock emptyWorld)
              (JNum "34.14") (JNum "-118.18") (Rejected "Network request failed")
              eq_refl eq_refl eq_refl eq_refl eq_refl eq_refl)
    as (Hret & Hevents & Hcomp & Hw & Ht & Ha & Hblank & _ & Hview).
  destruct (Hblank eq_refl) as [Hcard _].
  repeat (split; [assumption|]).
  destruct (Hview eq_refl eq_refl eq_refl "Good coverage" eq_refl eq_refl eq_refl)
    as (scr & Hr & Hsw & Hname).
  exists scr. split; [exact Hr|]. split; [exact Hsw | exact Hname].
Defined.

(** C3, the claim as stated, fails: after a failed fetch the weather
    fields are not always blank. The weather of Eagle Rock is fetched and
    shown; the tab is then given Mount Wilson while the network is down: the
    fetch for the new trip fails, is logged, and the card still shows the
    weather of Eagle Rock. *)
Lemma fetchWeather_failure_keeps_old_weather :
  let online := envOf false false (fun _ => Ok None) (fun _ => Ok clearSkyPayload) in
  let s1 := snd (fetchWeather (host := utcHost) online (showing eagleRock emptyWorld)) in
  let s2 := with_comp (put_tripInfo mountWilson) s1 in
  let s3 := snd (fetchWeather (host := utcHost) quietEnv s2) in
  new_events (world s2) (world s3) =
    [HttpGet (weather_url (host := utcHost) (JNum "34.22") (JNum "-118.06") (JStr ""));
     ConsoleError "Failed to fetch weather:"]
  /\ card_temperature (weather_card (weather (comp s3))) = "71.6F"
  /\ card_status (weather_card (weather (comp s3))) = "Clear Sky"
  /\ exists scr, InfoTab_render (host := utcHost) (comp s3) = Ok (MainScreen scr)
                 /\ scr_name scr = JStr "Mount Wilson Trail"
                 /\ card_temperature (scr_weather scr) = "71.6F"
                 /\ card_humidity (scr_weather scr) = "40%".
Proof.
  repeat split. eexists. split; [vm_compute; reflexivity|]. repeat split.
Qed.

(** C8, the claim as stated, fails. The weather service answers with the
    JSON [null]: the payload parses, its processing throws, and it is stored
    under the key; yet the next run for the key goes to the network
    again. *)
Lemma fetchWeather_null_payload_refetched :
  let env := envOf false false (fun _ => Ok None) (fun _ => Ok JNull) in
  let s1 := snd (fetchWeather (host := utcHost) env (showing eagleRock emptyWorld)) in
  let s2 := snd (fetchWeather (host := utcHost) env s1) in
  process_weather (host := utcHost) JNull
    = Throw (TypeError "Cannot read properties of null (reading 'weather')")
  /\ weatherCache (world s1) !! eagleRockKey = Some JNull
  /\ List.filter is_http_get (new_events (world s1) (world s2)) = [HttpGet eagleRockUrl].
Proof.
  repeat split.
Qed.

(** C8 as amended, at a concrete input: the error object of the weather
    service is cached and served again. *)
Lemma fetchWeather_caches_unprocessed_witness :
  let env := envOf false false (fun _ => Ok None) (fun _ => Ok invalidKeyPayload) in
  let s := showing eagleRock emptyWorld in
  let s1 := snd (fetchWeather (host := utcHost) env s) in
  weatherCache (world s1) !! eagleRockKey = Some invalidKeyPayload
  /\ weather (comp s1) = None
  /\ last (events (world s1)) = Some (ConsoleError "Failed to process weather data:")
  /\ (forall env2,
        let s2 := snd (fetchWeather (host := utcHost) env2 s1) in
        List.filter is_http_get (new_events (world s1) (world s2)) = []
        /\ new_events (world s1) (world s2) =
             [ConsoleLog "-------Successfully fetched weather data from CACHE-------";
              ConsoleError "Failed to process weather data:"]
        /\ weatherCache (world s2) = weatherCache (world s1)
        /\ weather (comp s2) = None).
Proof.
  destruct (fetchWeather_caches_unprocessed (host := utcHost)
              (envOf false false (fun _ => Ok None) (fun _ => Ok invalidKeyPayload))
              (showing eagleRock emptyWorld) (JNum "34.14") (JNum "-118.18")
              invalidKeyPayload
              (TypeError "Cannot read properties of undefined (reading '0')")
              eq_refl eq_refl eq_refl eq_refl eq_refl eq_refl eq_refl)
    as (Hcache & Hweather & Hlast & Hagain & _).
  split; [exact Hcache|]. split; [exact Hweather|]. split; [exact Hlast|].
  exact (Hagain eq_refl).
Defined.

(** *** Sorting by timestamp *)

Section SortByTime.
Context {A : Type} (time : A -> TimeValue).

Let compare (a b : A) : option Z := time_minus (time a) (time b).
Let earlier (a b : A) : Prop := millis (time a) <= millis (time b).

Lemma insert_by_permutation (cmp : A -> A -> option Z) (x : A) (l : list A) :
  Permutation (x :: l) (insert_by cmp x l).
Proof.
  induction l as [|y l IH]; simpl; [reflexivity|].
  destruct (is_positive (cmp x y)); [|reflexivity].
  rewrite perm_swap. constructor. exact IH.
Qed.

Lemma js_sort_permutation (cmp : A -> A -> option Z) (l : list A) :
  Permutation l (js_sort cmp l).
Proof.
  induction l as [|x l IH]; simpl; [reflexivity|].
  rewrite <- insert_by_permutation. constructor. exact IH.
Qed.

Lemma compare_valid (x y : A) :
  time x <> None -> time y <> None ->
  is_positive (compare x y) = (millis (time y) <? millis (time x)).
Proof.
  unfold compare, time_minus, millis.
  destruct (time x) as [a|], (time y) as [b|]; try congruence.
  intros _ _. simpl.
  destruct (Z.ltb_spec 0 (a - b)), (Z.ltb_spec b a); auto; lia.
Qed.

Lemma insert_by_sorted (x : A) (l : list A) :
  time x <> None -> Forall (fun a => time a <> None) l ->
  StronglySorted earlier l ->
  StronglySorted earlier (insert_by compare x l).
Proof.
  intros Hx Hl Hs. induction Hs as [|y l Hs IH Hy]; simpl.
  - repeat constructor.
  - apply Forall_cons in Hl as [Hvy Hl].
    rewrite (compare_valid x y Hx Hvy).
    destruct (Z.ltb_spec (millis (time y)) (millis (time x))) as [Hlt|Hge].
    + constructor; [apply IH; exact Hl|].
      rewrite <- (insert_by_permutation compare x l).
      constructor; [unfold earlier; lia | exact Hy].
    + constructor; [constructor; assumption|].
      constructor; [exact Hge|].
      eapply Forall_impl; [exact Hy|].
      unfold earlier. intros z Hz. simpl in Hz. lia.
Qed.

(** With every timestamp a number, [sort] leaves the list in ascending
    order of the timestamps. *)
Lemma js_sort_sorted (l : list A) :
  Forall (fun a => time a <> None) l ->
  StronglySorted earlier (js_sort compare l).
Proof.
  induction l as [|x l IH]; simpl; intros Hl; [constructor|].
  apply Forall_cons in Hl as [Hx Hl].
  apply insert_by_sorted; auto.
  rewrite <- (js_sort_permutation compare l). exact Hl.
Qed.

Lemma sorted_lookup (l : list A) (i j : nat) (x y : A) :
  StronglySorted earlier l -> (i < j)%nat ->
  l !! i = Some x -> l !! j = Some y -> earlier x y.
Proof.
  intros Hs. revert i j. induction Hs as [|z l Hs IH Hz]; intros i j Hij Hi Hj.
  - rewrite lookup_nil in Hi. discriminate.
  - destruct j as [|j]; [lia|]. simpl in Hj.
    destruct i as [|i]; simpl in Hi.
    + injection Hi as <-. rewrite Forall_forall in Hz. apply Hz.
      apply list_elem_of_lookup. eauto.
    + apply (IH i j); auto. lia.
Qed.

(** In a list in ascending order, an element with a smaller timestamp
    stands before every element with a larger one. *)
Lemma sorted_stands_before (l : list A) (x y : A) :
  StronglySorted earlier l -> In x l -> In y l ->
  millis (time x) < millis (time y) ->
  stands_before l x y.
Proof.
  intros Hs Hx Hy Hlt.
  apply list_elem_of_In, list_elem_of_lookup in Hx as [i Hi].
  apply list_elem_of_In, list_elem_of_lookup in Hy as [j Hj].
  exists i, j. split; [|auto].
  destruct (Nat.lt_trichotomy i j) as [Hij|[->|Hji]]; [exact Hij| |].
  - rewrite Hi in Hj. injection Hj as ->. lia.
  - pose proof (sorted_lookup l j i y x Hs Hji Hj Hi) as H. unfold earlier in H. lia.
Qed.
End SortByTime.

(** *** The lists of the home screen *)

Lemma fetchPlans_success {host : Host} (env : Env) (s : Sys HomeState)
    (user uerr perr : JsValue) (rows transformed : list JsValue) :
  auth_getUser env = Ok (user, uerr) -> truthy uerr = false -> truthy user = true ->
  select_plans env (prop "id" user) = Ok (Some rows, perr) -> truthy perr = false ->
  map_outcome (transform_row "plan_id") rows = Ok transformed ->
  plans (comp (snd (fetchPlans env s))) = js_sort compare_plans transformed.
Proof.
  intros Hauth Huerr Huser Hsel Hperr Hmap.
  unfold fetchPlans, supabase_getUser, setPlans. unfold_calls. unfold_eff.
  rewrite Hauth. simpl. rewrite Huerr, Huser, Hsel. simpl. rewrite Hperr, Hmap.
  reflexivity.
Qed.

Lemma fetchTrips_success {host : Host} (env : Env) (s : Sys HomeState)
    (user uerr terr perr : JsValue) (rows transformed : list JsValue)
    (plansData : option (list JsValue)) (dates : gmap string (JsValue * JsValue)) :
  auth_getUser env = Ok (user, uerr) -> truthy uerr = false -> truthy user = true ->
  select_bookmarked_trips env (prop "id" user) = Ok (Some rows, terr) ->
  truthy terr = false ->
  map_outcome (transform_row "trip_id") rows = Ok transformed ->
  select_plan_dates env (prop "id" user) = Ok (plansData, perr) -> truthy perr = false ->
  match plansData with
  | Some plansList => collect_dates ∅ plansList
  | None => Ok ∅
  end = Ok dates ->
  trips (comp (snd (fetchTrips env s))) = js_sort (compare_trips dates) transformed
  /\ tripDates (comp (snd (fetchTrips env s))) = dates.
Proof.
  intros Hauth Huerr Huser Hsel Hterr Hmap Hdsel Hperr Hdates.
  unfold fetchTrips, supabase_getUser, setTrips, setTripDates. unfold_calls. unfold_eff.
  rewrite Hauth. simpl. rewrite Huerr, Huser, Hsel. simpl. rewrite Hterr, Hmap, Hdsel.
  simpl. rewrite Hperr, Hdates. split; reflexivity.
Qed.

Lemma insert_ids_lookup (ids : list JsValue) (range : JsValue * JsValue)
    (dates : gmap string (JsValue * JsValue)) (k : string) :
  fold_left (fun acc tripId => <[toStringJs tripId := range]> acc) ids dates !! k =
  if bool_decide (k ∈ map toStringJs ids) then Some range else dates !! k.
Proof.
  revert dates. induction ids as [|id ids IH]; intros dates; cbn [fold_left map].
  - case_bool_decide as Hin; [|reflexivity]. apply elem_of_nil in Hin. destruct Hin.
  - rewrite IH. destruct (decide (k ∈ map toStringJs ids)) as [Hin|Hnin].
    + rewrite !bool_decide_eq_true_2; [reflexivity | right; exact Hin | exact Hin].
    + rewrite (bool_decide_eq_false_2 _ Hnin).
      destruct (decide (k = toStringJs id)) as [->|Hne].
      * rewrite lookup_insert_eq, bool_decide_eq_true_2; [reflexivity | left].
      * rewrite lookup_insert_ne by congruence.
        rewrite bool_decide_eq_false_2; [reflexivity|].
        intros [Heq|Hin]%elem_of_cons; auto.
Qed.

Lemma truthy_get_opt (k : string) (v : JsValue) :
  truthy (get_opt k v) = true -> get_opt k v = prop k v.
Proof.
  unfold get_opt. destruct (is_nullish v); [discriminate | reflexivity].
Qed.

(** A plan with a start date has it where the unguarded reads of
    [fetchTrips] look for it. *)
Lemma plan_start_date_read (plan : JsValue) :
  truthy (plan_start_date plan) = true ->
  prop "startDate" (prop "dateRange" (prop "preferences" plan)) = plan_start_date plan.
Proof.
  unfold plan_start_date. intros H.
  assert (Hrange : truthy (get_opt "dateRange" (prop "preferences" plan)) = true
                   \/ get_opt "dateRange" (prop "preferences" plan)
                      = prop "dateRange" (prop "preferences" plan)).
  { unfold get_opt at 2. destruct (is_nullish (prop "preferences" plan)) eqn:Hn; auto.
    unfold get_opt in H. rewrite Hn in H. simpl in H. discriminate. }
  assert (Heq : get_opt "dateRange" (prop "preferences" plan)
                = prop "dateRange" (prop "preferences" plan))
    by (destruct Hrange as [Ht|He]; [apply truthy_get_opt; exact Ht | exact He]).
  rewrite <- Heq. symmetry. apply truthy_get_opt. exact H.
Qed.

Lemma add_plan_dates_lookup {host : Host} (dates dates' : gmap string (JsValue * JsValue))
    (plan : JsValue) (k : string) :
  add_plan_dates dates plan = Ok dates' ->
  dates' !! k =
    if plan_covers plan k
    then Some (plan_start_date plan,
               prop "endDate" (prop "dateRange" (prop "preferences" plan)))
    else dates !! k.
Proof.
  unfold add_plan_dates, plan_covers, get.
  destruct (is_nullish plan); simpl; [discriminate|].
  destruct (prop "tripIds" plan) as [| |b|n|str|ids|fields] eqn:Hids; simpl;
    try (destruct (_ && truthy (plan_start_date plan)); [discriminate|]);
    try (intros H; injection H as <-; reflexivity).
  - destruct (truthy (plan_start_date plan)) eqn:Hstart; simpl.
    + intros H. injection H as <-. rewrite insert_ids_lookup.
      rewrite (plan_start_date_read plan Hstart). reflexivity.
    + intros H. injection H as <-. reflexivity.
  - destruct (truthy (plan_start_date plan)); [discriminate|].
    intros H. injection H as <-. reflexivity.
Qed.

(** The [dates] object of [fetchTrips] binds a trip to the dates of the
    last plan that covers it. *)
Lemma collect_dates_lookup {host : Host} (plansList : list JsValue)
    (dates0 dates : gmap string (JsValue * JsValue)) (k : string) :
  collect_dates dates0 plansList = Ok dates ->
  dates !! k =
    match last_covering plansList k with
    | Some plan => Some (plan_start_date plan,
                         prop "endDate" (prop "dateRange" (prop "preferences" plan)))
    | None => dates0 !! k
    end.
Proof.
  revert dates0. induction plansList as [|plan rest IH]; intros dates0; simpl.
  - intros H. injection H as <-. reflexivity.
  - destruct (add_plan_dates dates0 plan) as [dates1|e] eqn:Hadd; simpl; [|discriminate].
    intros Hrest. rewrite (IH dates1 Hrest).
    destruct (last_covering rest k); [reflexivity|].
    rewrite (add_plan_dates_lookup dates0 dates1 plan k Hadd).
    destruct (plan_covers plan k); reflexivity.
Qed.

Lemma timestamp_of_falsy {host : Host} (start : JsValue) :
  truthy start = false -> timestamp_of start = Some 0.
Proof. intros H. unfold timestamp_of. rewrite H. reflexivity. Qed.

(** C9, as amended. After [fetchPlans] and [fetchTrips] have completed
    successfully, the plans and the favourite trips are a permutation of the
    objects made of the fetched rows; a plan is dated by its own start date
    and a trip by the
    start date of the last plan that lists it; an item without a start date
    has timestamp 0; and, when every start date that is present parses to a
    valid date, each list is in ascending order of the timestamps, so that an
    item without a start date stands before every item whose date is after
    1 January 1970 (a positive timestamp) and after every item whose date is
    before it. *)
Theorem fetched_lists_sorted {host : Host} (env : Env) (s : Sys HomeState)
    (user uerr : JsValue) :
  auth_getUser env = Ok (user, uerr) -> truthy uerr = false -> truthy user = true ->
  (forall rows perr transformed,
      select_plans env (prop "id" user) = Ok (Some rows, perr) -> truthy perr = false ->
      map_outcome (transform_row "plan_id") rows = Ok transformed ->
      let sorted := plans (comp (snd (fetchPlans env s))) in
      Permutation transformed sorted
      /\ (forall a, truthy (plan_start_date a) = false -> plan_timestamp a = Some 0)
      /\ (Forall (fun a => plan_timestamp a <> None) transformed ->
          StronglySorted
            (fun a b => millis (plan_timestamp a) <= millis (plan_timestamp b)) sorted
          /\ forall a b, In a sorted -> In b sorted ->
               truthy (plan_start_date a) = false ->
               (0 < millis (plan_timestamp b) -> stands_before sorted a b)
               /\ (millis (plan_timestamp b) < 0 -> stands_before sorted b a)))
  /\ (forall rows terr transformed plansData perr dates,
      select_bookmarked_trips env (prop "id" user) = Ok (Some rows, terr) ->
      truthy terr = false ->
      map_outcome (transform_row "trip_id") rows = Ok transformed ->
      select_plan_dates env (prop "id" user) = Ok (plansData, perr) -> truthy perr = false ->
      match plansData with
      | Some plansList => collect_dates ∅ plansList
      | None => Ok ∅
      end = Ok dates ->
      let sorted := trips (comp (snd (fetchTrips env s))) in
      Permutation transformed sorted
      /\ (forall a,
            trip_start_date dates a =
              match plansData with
              | Some plansList =>
                  match last_covering plansList
                          (toStringJs (or_else (prop "id" a) (JStr ""))) with
                  | Some plan => plan_start_date plan
                  | None => JUndefined
                  end
              | None => JUndefined
              end)
      /\ (forall a, truthy (trip_start_date dates a) = false ->
                    trip_timestamp dates a = Some 0)
      /\ (Forall (fun a => trip_timestamp dates a <> None) transformed ->
          StronglySorted
            (fun a b => millis (trip_timestamp dates a) <= millis (trip_timestamp dates b))
            sorted
          /\ forall a b, In a sorted -> In b sorted ->
               truthy (trip_start_date dates a) = false ->
               (0 < millis (trip_timestamp dates b) -> stands_before sorted a b)
               /\ (millis (trip_timestamp dates b) < 0 -> stands_before sorted b a))).
Proof.
  intros Hauth Huerr Huser. split.
  - intros rows perr transformed Hsel Hperr Hmap sorted. subst sorted.
    rewrite (fetchPlans_success env s user uerr perr rows transformed) by assumption.
    split; [apply js_sort_permutation|].
    split; [intros a Ha; apply timestamp_of_falsy; exact Ha|].
    intros Hvalid.
    pose proof (js_sort_sorted plan_timestamp transformed Hvalid) as Hsorted.
    split; [exact Hsorted|].
    intros a b Ha Hb Hnone.
    assert (Hzero : millis (plan_timestamp a) = 0)
      by (unfold plan_timestamp; rewrite (timestamp_of_falsy _ Hnone); reflexivity).
    split; intros Hsign; apply (sorted_stands_before plan_timestamp); auto; lia.
  - intros rows terr transformed plansData perr dates Hsel Hterr Hmap Hdsel Hperr Hdates
      sorted. subst sorted.
    destruct (fetchTrips_success env s user uerr terr perr rows transformed plansData dates)
      as [Htrips _]; try assumption.
    rewrite Htrips.
    split; [apply js_sort_permutation|].
    split.
    { intros a. unfold trip_start_date. destruct plansData as [plansList|].
      - rewrite (collect_dates_lookup plansList ∅ dates _ Hdates), lookup_empty.
        destruct (last_covering plansList _); reflexivity.
      - injection Hdates as <-. rewrite lookup_empty. reflexivity. }
    split; [intros a Ha; apply timestamp_of_falsy; exact Ha|].
    intros Hvalid.
    pose proof (js_sort_sorted (trip_timestamp dates) transformed Hvalid) as Hsorted.
    split; [exact Hsorted|].
    intros a b Ha Hb Hnone.
    assert (Hzero : millis (trip_timestamp dates a) = 0)
      by (unfold trip_timestamp; rewrite (timestamp_of_falsy _ Hnone); reflexivity).
    split; intros Hsign; apply (sorted_stands_before (trip_timestamp dates)); auto; lia.
Qed.

(** C9, the claim as stated, fails. Plan [A] has no start date and plan
    [B] starts on 20 July 1969, before the epoch: the timestamp of [B] is
    negative, and the sorted list has the undated [A] after [B]. The same
    happens to a favourite trip of such a plan. *)
Lemma undated_after_early_date :
  let fetched := [undatedPlan "A"; planRow "B" (JStr "1969-07-20") [JStr "t2"]] in
  let env := homeEnv fetched [tripRow "t1"; tripRow "t2"] fetched JNull Success Success in
  let s := atHome Home_initial emptyWorld in
  Date_new (Host := utcHost) (JStr "1969-07-20") = Some (-14256000000)
  /\ map (prop "plan_id") (plans (comp (snd (fetchPlans (host := utcHost) env s))))
     = [JStr "B"; JStr "A"]
  /\ map (prop "trip_id") (trips (comp (snd (fetchTrips (host := utcHost) env s))))
     = [JStr "t2"; JStr "t1"].
Proof.
  repeat split.
Qed.

(** A start date that does not parse gives the comparator [NaN], which
    [sort] reads as "equal": the order such a comparator leaves is up to the
    engine, and here, as with a binary insertion sort, the June plan stays
    before the January plan. *)
Example unparsable_date_breaks_order :
  let fetched := [planRow "June" (JStr "2025-06-01") []; planRow "X" (JStr "soon") [];
                  planRow "January" (JStr "2025-01-01") []] in
  let env := homeEnv fetched [] fetched JNull Success Success in
  Date_new (Host := utcHost) (JStr "soon") = None
  /\ map (prop "plan_id")
       (plans (comp (snd (fetchPlans (host := utcHost) env (atHome Home_initial emptyWorld)))))
     = [JStr "June"; JStr "X"; JStr "January"].
Proof.
  repeat split.
Qed.

(** C9 as amended, at a concrete input: three plans, one undated, and the
    favourite trips of two of them. *)
Lemma fetched_lists_sorted_witness :
  let fetched := [planRow "C" (JStr "2025-06-15") [JStr "t1"]; undatedPlan "A";
                  planRow "D" (JStr "2024-01-01") [JStr "t2"]] in
  let env := homeEnv fetched [tripRow "t1"; tripRow "t3"; tripRow "t2"] fetched
               JNull Success Success in
  let s := atHome Home_initial emptyWorld in
  map (prop "plan_id") (plans (comp (snd (fetchPlans (host := utcHost) env s))))
    = [JStr "A"; JStr "D"; JStr "C"]
  /\ StronglySorted
       (fun a b => millis (plan_timestamp (host := utcHost) a)
                   <= millis (plan_timestamp (host := utcHost) b))
       (plans (comp (snd (fetchPlans (host := utcHost) env s))))
  /\ map (prop "trip_id") (trips (comp (snd (fetchTrips (host := utcHost) env s))))
    = [JStr "t3"; JStr "t2"; JStr "t1"].
Proof.
  split; [reflexivity|]. split; [|reflexivity].
  pose (fetched := [planRow "C" (JStr "2025-06-15") [JStr "t1"]; undatedPlan "A";
                    planRow "D" (JStr "2024-01-01") [JStr "t2"]]).
  pose (env := homeEnv fetched [tripRow "t1"; tripRow "t3"; tripRow "t2"] fetched
                 JNull Success Success).
  destruct (fetched_lists_sorted (host := utcHost) env (atHome Home_initial emptyWorld)
              signedIn JNull eq_refl eq_refl eq_refl) as [Hplans _].
  destruct (Hplans fetched JNull
              (match map_outcome (transform_row "plan_id") fetched with
               | Ok l => l
               | Throw _ => []
               end)
              eq_refl eq_refl eq_refl) as (_ & _ & Hsorted).
  apply Hsorted. simpl.
  repeat constructor; intros H; vm_compute in H; discriminate H.
Defined.

(** *** Deleting a plan *)

Lemma delete_keys_absent (ids : list JsValue) (table : gmap string JsValue) (k : string) :
  table !! k = None -> delete_keys ids table !! k = None.
Proof.
  revert table. induction ids as [|id ids IH]; intros table H; simpl; [exact H|].
  apply IH. rewrite lookup_delete. case_decide; auto.
Qed.

(** Every key of [ids] is gone from the table. *)
Lemma delete_keys_gone (ids : list JsValue) (table : gmap string JsValue) (id : JsValue) :
  In id ids -> delete_keys ids table !! toStringJs id = None.
Proof.
  revert table. induction ids as [|x ids IH]; intros table Hin; [destruct Hin|].
  simpl. destruct Hin as [->|Hin].
  - apply delete_keys_absent. apply lookup_delete_eq.
  - apply IH. exact Hin.
Qed.

(** The loop over the trip ids empties the two caches of them. *)
Lemma delete_caches_loop (ids : list JsValue) (s : Sys HomeState) :
  for_of ids (fun tripId =>
     _ ← deleteCachedTrailData (toStringJs tripId);
     deleteCachedChatMessages (toStringJs tripId)) s =
  (Ok tt,
   with_world (fun w => set_chatCache (delete_keys ids (chatCache w))
                          (set_trailCache (delete_keys ids (trailCache w)) w)) s).
Proof.
  revert s. induction ids as [|id ids IH]; intros s.
  - destruct s as [c w]. destruct w. reflexivity.
  - simpl. unfold mbind at 1. unfold Eff_bind.
    unfold_calls. unfold_eff. rewrite IH.
    destruct s as [c w]. destruct w. reflexivity.
Qed.

(** C6. [handleDeletePlan] has no recovery from a partial failure. Once
    the user has confirmed, the trips of the plan are deleted from the
    'trips' table and from the caches before the request that deletes the
    plan is made; when that request fails, by an error answer or a rejected
    call, the error is caught, logged and shown, and nothing is rolled back:
    the trips stay deleted, in the backend, in the caches and on the screen,
    while the plan is still in the 'plans' table and in the list. *)
Theorem delete_plan_without_rollback (env : Env) (planId : string) (s : Sys HomeState)
    (plan planError : JsValue) (tripIds : list JsValue) :
  select_plan_tripIds env planId = Ok (plan, planError) ->
  truthy planError = false ->
  truthy plan = true ->
  prop "tripIds" plan = JArr tripIds ->
  delete_trips_reply env = Success ->
  delete_plan_reply env <> Success ->
  let s' := snd (handleDeletePlan env planId true s) in
  fst (handleDeletePlan env planId true s) = Ok tt
  /\ List.filter is_supabase_request (new_events (world s) (world s')) =
       [SupabaseRequest "plans" "select"; SupabaseRequest "trips" "delete";
        SupabaseRequest "plans" "delete"]
  /\ tripsTable (world s') = delete_keys tripIds (tripsTable (world s))
  /\ trailCache (world s') = delete_keys tripIds (trailCache (world s))
  /\ chatCache (world s') = delete_keys tripIds (chatCache (world s))
  /\ (forall id, In id tripIds ->
        tripsTable (world s') !! toStringJs id = None
        /\ trailCache (world s') !! toStringJs id = None)
  /\ trips (comp s') =
       List.filter (fun trip =>
          negb (array_includes tripIds (or_else (prop "id" trip) (JStr ""))))
         (trips (comp s))
  /\ plansTable (world s') = plansTable (world s)
  /\ plans (comp s') = plans (comp s)
  /\ last (events (world s')) =
       Some (AlertShown "Error" "Could not delete plan or its trips.").
Proof.
  intros Hsel Herr Hplan Hids Htrips Hfail s'.
  assert (Hrun : handleDeletePlan env planId true s =
    (Ok tt,
     with_comp (fun c => {| plans := plans c; trips := trips c; tripDates := tripDates c;
                            deletingItems := deletingItems c ∖ {[planId]} |})
       (with_world (emit (AlertShown "Error" "Could not delete plan or its trips."))
       (with_world (emit (ConsoleError "Error deleting plan and associated trips:"))
       (with_world (emit (SupabaseRequest "plans" "delete"))
       (with_comp (fun c => {| plans := plans c;
                      trips := List.filter (fun trip =>
                         negb (array_includes tripIds (or_else (prop "id" trip) (JStr ""))))
                         (trips c);
                      tripDates := tripDates c; deletingItems := deletingItems c |})
       (with_world (fun w => set_chatCache (delete_keys tripIds (chatCache w))
                               (set_trailCache (delete_keys tripIds (trailCache w)) w))
       (with_world (fun w => set_tripsTable (delete_keys tripIds (tripsTable w)) w)
       (with_world (emit (SupabaseRequest "trips" "delete"))
       (with_world (emit (SupabaseRequest "plans" "select"))
       (with_comp (fun c => {| plans := plans c; trips := trips c;
                      tripDates := tripDates c;
                      deletingItems := deletingItems c ∪ {[planId]} |})
       (with_world (emit (AlertShown "Delete Plan"
          "Are you sure you want to delete this plan and its associated trips? This action cannot be undone."))
          s)))))))))))).
  { unfold handleDeletePlan, delete_plan_task, supabase_delete, setTrips, setPlans,
      setDeletingItems.
    unfold_calls. unfold_eff. rewrite Hsel. simpl.
    rewrite Herr, Hplan, Hids. simpl. rewrite Htrips. simpl.
    rewrite delete_caches_loop. simpl.
    destruct (delete_plan_reply env) as [|msg|msg]; [congruence| |]; reflexivity. }
  subst s'. rewrite Hrun. simpl.
  split; [reflexivity|]. split.
  { erewrite new_events_app; [|simpl; repeat rewrite <- app_assoc; reflexivity].
    reflexivity. }
  repeat (split; [reflexivity|]).
  split.
  { intros id Hin. split; apply delete_keys_gone; exact Hin. }
  repeat (split; [reflexivity|]).
  apply last_snoc.
Qed.

(** C6 at a concrete input: plan [p1] with trip [t1], and a backend that
    refuses to delete the plan. *)
Lemma delete_plan_without_rollback_witness :
  let plan := planRow "p1" (JStr "2025-06-15") [JStr "t1"] in
  let env := homeEnv [] [] [] plan Success (ErrorReply "permission denied") in
  let s := atHome {| plans := [JObj [("id", JStr "p1")]]; trips := [JObj [("id", JStr "t1")]];
                     tripDates := ∅; deletingItems := ∅ |} worldWithPlan in
  let s' := snd (handleDeletePlan env "p1" true s) in
  tripsTable (world s') !! "t1" = None
  /\ trailCache (world s') !! "t1" = None
  /\ trips (comp s') = []
  /\ plansTable (world s') !! "p1" = Some plan
  /\ plans (comp s') = [JObj [("id", JStr "p1")]].
Proof.
  intros plan env s s'.
  destruct (delete_plan_without_rollback env "p1" s plan JNull [JStr "t1"]
              eq_refl eq_refl eq_refl eq_refl eq_refl ltac:(discriminate))
    as (_ & _ & _ & _ & _ & Hgone & Htrips & Hplans & Hlist & _).
  destruct (Hgone (JStr "t1") ltac:(left; reflexivity)) as [Ht Hc].
  split; [exact Ht|]. split; [exact Hc|]. split; [exact Htrips|].
  split; [|exact Hlist].
  subst s'. rewrite Hplans. reflexivity.
Defined.

(** *** Formatting a date range *)



(** *** Further properties of the trip-info load *)

(** What [load_trail_data] can do to the state. *)
Lemma load_trail_data_paths (env : Env) (id : string) (s : Sys InfoTabState) :
  let s' := snd (load_trail_data env id s) in
  weather (comp s') = weather (comp s)
  /\ loading (comp s') = loading (comp s)
  /\ asyncStorage (world s') = asyncStorage (world s)
  /\ weatherCache (world s') = weatherCache (world s)
  /\ chatCache (world s') = chatCache (world s)
  /\ tripsTable (world s') = tripsTable (world s)
  /\ plansTable (world s') = plansTable (world s)
  /\ (trailCache (world s') = trailCache (world s)
      \/ (truthy (default JNull (trailCache (world s) !! id)) = false
          /\ exists row, trailCache (world s') = <[id := row]> (trailCache (world s))))
  /\ (error (comp s') = error (comp s) \/ error (comp s') = Some "Trip not found.").
Proof.
  intros s'. subst s'. unfold load_trail_data. unfold_calls. unfold_eff.
  destruct (truthy (default JNull (trailCache (world s) !! id))) eqn:Hhit; simpl;
    [intuition auto|].
  destruct (select_trip env id) as [[[|row rest]|]|e]; simpl; try (intuition auto; fail).
  intuition auto. right. split; [reflexivity|]. exists row. reflexivity.
Qed.

(** What one run of [fetchTripInfo] can do to the state. *)
Lemma fetchTripInfo_paths (env : Env) (p : InfoTabProps) (s : Sys InfoTabState) :
  let s' := snd (fetchTripInfo env p s) in
  let id := default "" (current_trip_id p (world s)) in
  weather (comp s') = weather (comp s)
  /\ loading (comp s') = false
  /\ weatherCache (world s') = weatherCache (world s)
  /\ chatCache (world s') = chatCache (world s)
  /\ tripsTable (world s') = tripsTable (world s)
  /\ plansTable (world s') = plansTable (world s)
  /\ (asyncStorage (world s') = asyncStorage (world s)
      \/ (truthy_text (supplied_trip_id p) = true
          /\ asyncStorage (world s') =
               <["selectedTripId" := default "" (supplied_trip_id p)]> (asyncStorage (world s))))
  /\ (trailCache (world s') = trailCache (world s)
      \/ (truthy (default JNull (trailCache (world s) !! id)) = false
          /\ truthy_text (current_trip_id p (world s)) = true
          /\ exists row, trailCache (world s') = <[id := row]> (trailCache (world s))))
  /\ (error (comp s') = error (comp s)
      \/ error (comp s') = Some "Failed to load trip info."
      \/ error (comp s') = Some "Trip not found."
      \/ error (comp s') = Some "No trip ID available.").
Proof.
  intros s' id. subst s' id.
  rewrite fetchTripInfo_wrap. unfold fetchTripInfo_try, current_trip_id.
  unfold mbind at 1. unfold Eff_bind.
  unfold resolve_trip_id. unfold_calls. unfold_eff.
  destruct (truthy_text (supplied_trip_id p)) eqn:Hsup.
  - rewrite ?Hsup. destruct (setItem_rejects env); simpl; [intuition auto|].
    destruct (has_schedule (tripData p)); simpl; [intuition auto|].
    rewrite Hsup.
    match goal with |- context [load_trail_data env ?i ?st] =>
      pose proof (load_trail_data_paths env i st) as H;
      destruct (load_trail_data env i st) as [[[]|e] s1] end;
      simpl in *; intuition auto.
  - destruct (getItem_rejects env); simpl; [intuition auto|].
    destruct (has_schedule (tripData p)); simpl; [intuition auto|].
    destruct (truthy_text (asyncStorage (world s) !! "selectedTripId")) eqn:Hst; simpl.
    + rewrite Hst.
      match goal with |- context [load_trail_data env ?i ?st] =>
        pose proof (load_trail_data_paths env i st) as H;
        destruct (load_trail_data env i st) as [[[]|e] s1] end;
        simpl in *; intuition auto.
    + rewrite Hsup. simpl. intuition auto.
Qed.

(** X1. [fetchTripInfo] leaves alone what is not its own: the weather of
    the component, the weather and chat caches and the two backend tables
    stay as they were; in the key-value storage only ["selectedTripId"] can
    change; in the trail cache only the entry of the current trip id can
    change, and an entry that holds a truthy value is never written again,
    so the backend is never asked to refresh a trip that is cached. *)
Theorem fetchTripInfo_frame (env : Env) (p : InfoTabProps) (s : Sys InfoTabState) :
  let s' := snd (fetchTripInfo env p s) in
  weather (comp s') = weather (comp s)
  /\ weatherCache (world s') = weatherCache (world s)
  /\ chatCache (world s') = chatCache (world s)
  /\ tripsTable (world s') = tripsTable (world s)
  /\ plansTable (world s') = plansTable (world s)
  /\ (forall k, k <> "selectedTripId" ->
        asyncStorage (world s') !! k = asyncStorage (world s) !! k)
  /\ (forall k, current_trip_id p (world s) <> Some k ->
        trailCache (world s') !! k = trailCache (world s) !! k)
  /\ (forall k, truthy (default JNull (trailCache (world s) !! k)) = true ->
        trailCache (world s') !! k = trailCache (world s) !! k).
Proof.
  intros s'. subst s'.
  destruct (fetchTripInfo_paths env p s)
    as (Hw & _ & Hwc & Hcc & Htt & Hpt & Hst & Htc & _).
  repeat (split; [assumption|]). split; [|split].
  - intros k Hk. destruct Hst as [-> | [_ ->]]; [reflexivity|].
    apply lookup_insert_ne. congruence.
  - intros k Hk. destruct Htc as [-> | (_ & Hcur & row & ->)]; [reflexivity|].
    apply lookup_insert_ne. intros <-.
    destruct (truthy_text_inv _ Hcur) as (id & Hid & _).
    rewrite Hid in Hk. simpl in Hk. congruence.
  - intros k Hk. destruct Htc as [-> | (Hmiss & _ & row & ->)]; [reflexivity|].
    apply lookup_insert_ne. intros <-. congruence.
Qed.

(** X2. A load never clears the error of [InfoTab]. When the [error]
    state holds a message, a later run of [fetchTripInfo] ends with a
    message in it again, whatever the storage, the cache and the backend
    answer, and the component renders the error screen with that message: a
    load that succeeds after a failed one does not bring the trip view
    back. *)
Theorem fetchTripInfo_error_sticky {host : Host} (env : Env) (p : InfoTabProps)
    (s : Sys InfoTabState) :
  truthy_text (error (comp s)) = true ->
  let s' := snd (fetchTripInfo env p s) in
  truthy_text (error (comp s')) = true
  /\ InfoTab_render (comp s') = Ok (ErrorScreen (default "" (error (comp s')))).
Proof.
  intros Herr s'. subst s'.
  destruct (fetchTripInfo_paths env p s) as (_ & Hl & _ & _ & _ & _ & _ & _ & He).
  assert (Ht : truthy_text (error (comp (snd (fetchTripInfo env p s)))) = true)
    by (destruct He as [-> | [-> | [-> | ->]]]; auto).
  split; [exact Ht|].
  unfold InfoTab_render. rewrite Hl, Ht. reflexivity.
Qed.

(** X2 at a concrete input: the component shows "Trip not found."; the
    trip is then loaded from the backend, and the error screen stays. *)
Lemma fetchTripInfo_error_sticky_witness :
  let env := envOf false false (fun _ => Ok (Some [eagleRock]))
               (fun _ => Throw (Rejected "Network request failed")) in
  let s := {| comp := {| tripInfo := JNull; loading := false;
                         error := Some "Trip not found."; weather := None |};
              world := emptyWorld |} in
  let s' := snd (fetchTripInfo env (byId "t1") s) in
  tripInfo (comp s') = eagleRock
  /\ truthy_text (error (comp s')) = true
  /\ InfoTab_render (host := utcHost) (comp s')
     = Ok (ErrorScreen (default "" (error (comp s')))).
Proof.
  intros env s s'. split; [reflexivity|].
  apply (fetchTripInfo_error_sticky (host := utcHost) env (byId "t1") s).
  reflexivity.
Defined.



(** X4. A failure of the key-value storage hides the trip. When the write
    of a supplied trip id is rejected, or, with no id supplied, the read of
    the stored one, [fetchTripInfo] shows "Failed to load trip info." and
    does nothing else: the cache is not consulted, the backend is not
    asked, and a [tripData] that carries its schedule is not shown
    either. *)
Theorem fetchTripInfo_storage_failure {host : Host} (env : Env) (p : InfoTabProps)
    (s : Sys InfoTabState) :
  (truthy_text (supplied_trip_id p) = true /\ setItem_rejects env = true)
  \/ (truthy_text (supplied_trip_id p) = false /\ getItem_rejects env = true) ->
  let s' := snd (fetchTripInfo env p s) in
  comp s' = {| tripInfo := tripInfo (comp s); loading := false;
               error := Some "Failed to load trip info."; weather := weather (comp s) |}
  /\ stores (world s') = stores (world s)
  /\ new_events (world s) (world s') = [ConsoleError "Error loading trip info:"]
  /\ InfoTab_render (comp s') = Ok (ErrorScreen "Failed to load trip info.").
Proof.
  intros Hfail s'.
  assert (Hrun : s' =
    with_comp (put_loading false)
      (with_comp (put_error "Failed to load trip info.")
         (with_world (emit (ConsoleError "Error loading trip info:"))
            (with_comp (put_loading true) s)))).
  { subst s'. rewrite fetchTripInfo_wrap. unfold fetchTripInfo_try.
    unfold mbind at 1. unfold Eff_bind. unfold resolve_trip_id.
    unfold_calls. unfold_eff.
    destruct Hfail as [[-> ->] | [-> ->]]; reflexivity. }
  rewrite Hrun. simpl. split; [reflexivity|]. split; [reflexivity|].
  split; [|reflexivity].
  erewrite new_events_app; [|simpl; reflexivity]. reflexivity.
Qed.

(** X4 at a concrete input: trip [t1] is in the cache, and the storage
    rejects the write of its id. *)
Lemma fetchTripInfo_storage_failure_witness :
  let env := envOf true false (fun _ => Ok (Some [eagleRock]))
               (fun _ => Throw (Rejected "Network request failed")) in
  let s := mounted (withTrailCache {["t1" := eagleRock]}) in
  let s' := snd (fetchTripInfo env (byId "t1") s) in
  comp s' = {| tripInfo := JNull; loading := false;
               error := Some "Failed to load trip info."; weather := None |}
  /\ stores (world s') = stores (world s)
  /\ new_events (world s) (world s') = [ConsoleError "Error loading trip info:"]
  /\ InfoTab_render (host := utcHost) (comp s')
     = Ok (ErrorScreen "Failed to load trip info.").
Proof.
  intros env s.
  apply (fetchTripInfo_storage_failure (host := utcHost) env (byId "t1") s).
  left. split; reflexivity.
Defined.

(** *** Further properties of the weather load *)

(** X5. Without coordinates there is no weather. When [tripInfo] is
    [null] or [undefined], or its latitude or its longitude is falsy, which
    the number 0 is, [fetchWeather] returns at once: no cache lookup, no
    request, no log, and the state is what it was. *)
Theorem fetchWeather_without_coordinates {host : Host} (env : Env) (s : Sys InfoTabState) :
  is_nullish (tripInfo (comp s)) = true
  \/ (exists lat, coordinate "latitude" (tripInfo (comp s)) = Ok lat /\ truthy lat = false)
  \/ (exists lat lon, coordinate "latitude" (tripInfo (comp s)) = Ok lat
                      /\ coordinate "longitude" (tripInfo (comp s)) = Ok lon
                      /\ truthy lon = false) ->
  fetchWeather env s = (Ok tt, s).
Proof.
  intros H. unfold fetchWeather. unfold_calls. unfold_eff.
  destruct H as [Hn | [(lat & Hlat & Ht) | (lat & lon & Hlat & Hlon & Ht)]].
  - unfold coordinate. rewrite Hn. reflexivity.
  - rewrite Hlat, Ht. reflexivity.
  - rewrite Hlat. destruct (truthy lat); [|reflexivity]. simpl.
    rewrite Hlon, Ht. reflexivity.
Qed.

(** X5 at a concrete input: a trip at latitude 0, with the weather service
    ready to answer. *)
Lemma fetchWeather_without_coordinates_witness :
  let env := envOf false false (fun _ => Ok (Some [])) (fun _ => Ok clearSkyPayload) in
  fetchWeather (host := utcHost) env (showing quito emptyWorld)
  = (Ok tt, showing quito emptyWorld).
Proof.
  intros env.
  apply (fetchWeather_without_coordinates (host := utcHost) env (showing quito emptyWorld)).
  right. left. exists (JNum "0"). split; reflexivity.
Defined.

(** X6. The cache is transparent to the component. For one trip and one
    payload, a run of [fetchWeather] that finds the payload in the cache and
    a run that misses and receives it from the network leave the component
    in the same state; after the second, the payload is in the cache under
    the key. *)
Theorem fetchWeather_cache_transparent {host : Host} (env1 env2 : Env)
    (s1 s2 : Sys InfoTabState) (lat lon data : JsValue) :
  comp s1 = comp s2 ->
  coordinate "latitude" (tripInfo (comp s1)) = Ok lat -> truthy lat = true ->
  coordinate "longitude" (tripInfo (comp s1)) = Ok lon -> truthy lon = true ->
  truthy data = true ->
  let date := weather_date (tripInfo (comp s1)) in
  weatherCache (world s1) !! weather_cache_key lat lon date = Some data ->
  truthy (default JNull (weatherCache (world s2) !! weather_cache_key lat lon date)) = false ->
  http_get_json env2 (weather_url lat lon date) = Ok data ->
  comp (snd (fetchWeather env1 s1)) = comp (snd (fetchWeather env2 s2))
  /\ weatherCache (world (snd (fetchWeather env2 s2))) !! weather_cache_key lat lon date
     = Some data.
Proof.
  intros Hc Hlat Hlt Hlon Hlnt Hd date Hhit Hmiss Hget. subst date.
  rewrite (fetchWeather_hit env1 s1 lat lon Hlat Hlt Hlon Hlnt)
    by (rewrite Hhit; exact Hd).
  rewrite Hhit. simpl.
  rewrite Hc in Hlat, Hlon, Hmiss, Hget.
  rewrite (fetchWeather_miss_answer env2 s2 lat lon Hlat Hlt Hlon Hlnt data)
    by assumption.
  rewrite Hc.
  destruct (process_weather data); simpl; rewrite Hc; split;
    try reflexivity; apply lookup_insert_eq.
Qed.

(** X6 at a concrete input: the clear-sky payload for Eagle Rock, once
    from the cache and once from the network. *)
Lemma fetchWeather_cache_transparent_witness :
  let online := envOf false false (fun _ => Ok (Some [])) (fun _ => Ok clearSkyPayload) in
  let s1 := showing eagleRock (withWeatherCache {[eagleRockKey := clearSkyPayload]}) in
  let s2 := showing eagleRock emptyWorld in
  comp (snd (fetchWeather (host := utcHost) quietEnv s1))
  = comp (snd (fetchWeather (host := utcHost) online s2))
  /\ weatherCache (world (snd (fetchWeather (host := utcHost) online s2))) !! eagleRockKey
     = Some clearSkyPayload.
Proof.
  intros online s1 s2.
  apply (fetchWeather_cache_transparent (host := utcHost) quietEnv online s1 s2
           (JNum "34.14") (JNum "-118.18") clearSkyPayload); reflexivity.
Defined.

(** X7. [fetchWeather] throws in one case only, and before it has done
    anything: when [tripInfo] is present and its [coordinates] are [null] or
    [undefined]. Every other failure, of the network or of the processing of
    the payload, is caught inside. A run never changes [tripInfo], the
    loading flag, the error message, the key-value storage, the trail and
    chat caches or the backend tables, and never writes a cache entry that
    holds a truthy value. *)
Theorem fetchWeather_contained {host : Host} (env : Env) (s : Sys InfoTabState) :
  let s' := snd (fetchWeather env s) in
  ((exists e, fst (fetchWeather env s) = Throw e)
   <-> is_nullish (tripInfo (comp s)) = false
       /\ is_nullish (prop "coordinates" (tripInfo (comp s))) = true)
  /\ (forall e, fst (fetchWeather env s) = Throw e -> s' = s)
  /\ tripInfo (comp s') = tripInfo (comp s)
  /\ loading (comp s') = loading (comp s)
  /\ error (comp s') = error (comp s)
  /\ asyncStorage (world s') = asyncStorage (world s)
  /\ trailCache (world s') = trailCache (world s)
  /\ chatCache (world s') = chatCache (world s)
  /\ tripsTable (world s') = tripsTable (world s)
  /\ plansTable (world s') = plansTable (world s)
  /\ (forall k, truthy (default JNull (weatherCache (world s) !! k)) = true ->
        weatherCache (world s') !! k = weatherCache (world s) !! k).
Proof.
  intros s'. subst s'.
  unfold fetchWeather. unfold_calls. unfold_eff. unfold coordinate, get.
  destruct (is_nullish (tripInfo (comp s))) eqn:Hinfo; simpl.
  { split; [split; [intros [e He]; discriminate | intros [H _]; discriminate]|].
    split; [intros e He; discriminate|]. repeat split; auto. }
  destruct (is_nullish (prop "coordinates" (tripInfo (comp s)))) eqn:Hco; simpl.
  { split; [split; [auto | eauto]|]. repeat split; auto. }
  destruct (truthy (prop "latitude" _)); simpl.
  2:{ split; [split; [intros [e He]; discriminate | intros [_ H]; discriminate]|].
      split; [intros e He; discriminate|]. repeat split; auto. }
  destruct (truthy (prop "longitude" _)); simpl.
  2:{ split; [split; [intros [e He]; discriminate | intros [_ H]; discriminate]|].
      split; [intros e He; discriminate|]. repeat split; auto. }
  match goal with |- context [truthy (default JNull (weatherCache (world s) !! ?k))] =>
    set (key := k) end.
  destruct (truthy (default JNull (weatherCache (world s) !! key))) eqn:Hhit; simpl.
  - destruct (process_weather _); simpl;
      (split; [split; [intros [e' He]; discriminate | intros [_ H]; discriminate]|]);
      (split; [intros e' He; discriminate|]); repeat split; auto.
  - destruct (http_get_json env _) as [data|e]; simpl.
    + destruct (process_weather data); simpl;
        (split; [split; [intros [e' He]; discriminate | intros [_ H]; discriminate]|]);
        (split; [intros e' He; discriminate|]); repeat split; auto;
        intros k Hk; apply lookup_insert_ne; intros <-; congruence.
    + split; [split; [intros [e' He]; discriminate | intros [_ H]; discriminate]|].
      split; [intros e' He; discriminate|]. repeat split; auto.
Qed.

(** *** The weather object *)


Lemma lower_upper_ascii (c : ascii) : lower_ascii (upper_ascii c) = lower_ascii c.
Proof. destruct c as [[] [] [] [] [] [] [] []]; reflexivity. Qed.

Lemma toLowerCase_capitalize (w : string) :
  toLowerCase (capitalize w) = toLowerCase w.
Proof. destruct w as [|c w]; simpl; [reflexivity | rewrite lower_upper_ascii; reflexivity]. Qed.


(** [split(" ")] never returns the empty array. *)
Lemma split_spaces_cons (s : string) : exists w ws, split_spaces s = w :: ws.
Proof.
  induction s as [|c s (w & ws & IH)]; simpl; [eauto|].
  destruct (Ascii.eqb c " "); [eauto|]. rewrite IH. eauto.
Qed.

(** Joining the words gives the text back. *)
Lemma join_split_spaces (s : string) : join_spaces (split_spaces s) = s.
Proof.
  induction s as [|c s IH]; [reflexivity|].
  simpl. destruct (Ascii.eqb_spec c " ") as [->|Hc].
  - destruct (split_spaces_cons s) as (w & ws & Hs). rewrite Hs in *.
    simpl. simpl in IH. rewrite IH. reflexivity.
  - destruct (split_spaces_cons s) as (w & ws & Hs). rewrite Hs in *.
    destruct ws as [|w' ws]; simpl in *; rewrite <- IH; reflexivity.
Qed.

(** Capitalising the words changes the case of letters and nothing else:
    with the first word capitalised or not, the joined text has the length
    and the lower-case form of the original. *)
Lemma join_capitalized (s : string) :
  forall w ws, split_spaces s = w :: ws ->
  forall first, first = w \/ first = capitalize w ->
  toLowerCase (join_spaces (first :: map capitalize ws)) = toLowerCase s
  /\ String.length (join_spaces (first :: map capitalize ws)) = String.length s.
Proof.
  induction s as [|c s IH]; intros w ws Hs first Hfirst.
  - simpl in Hs. injection Hs as <- <-. destruct Hfirst as [-> | ->]; auto.
  - simpl in Hs. destruct (split_spaces_cons s) as (w0 & ws0 & Hs0).
    rewrite Hs0 in Hs.
    destruct (Ascii.eqb_spec c " ") as [->|Hc].
    + injection Hs as <- <-.
      destruct (IH w0 ws0 Hs0 (capitalize w0) (or_intror eq_refl)) as [Hl Hn].
      assert (Hf : first = "") by (destruct Hfirst as [-> | ->]; reflexivity).
      subst first.
      change (join_spaces ("" :: map capitalize (w0 :: ws0)))
        with (String " " (join_spaces (capitalize w0 :: map capitalize ws0))).
      split; cbn [toLowerCase String.length]; [rewrite Hl | rewrite Hn]; reflexivity.
    + injection Hs as <- <-.
      destruct (IH w0 ws0 Hs0 w0 (or_introl eq_refl)) as [Hl Hn].
      assert (Hjoin : forall a : ascii,
                 join_spaces (String a w0 :: map capitalize ws0)
                 = String a (join_spaces (w0 :: map capitalize ws0)))
        by (intros a; destruct ws0; reflexivity).
      destruct Hfirst as [-> | ->]; simpl capitalize; rewrite Hjoin;
        cbn [toLowerCase String.length];
        rewrite ?lower_upper_ascii, ?Hl, ?Hn; auto.
Qed.

Lemma status_text_case_only (d t : string) :
  status_text (JStr d) = Ok t ->
  toLowerCase t = toLowerCase d /\ String.length t = String.length d.
Proof.
  unfold status_text. intros H. injection H as <-.
  destruct (split_spaces_cons d) as (w & ws & Hs). rewrite Hs. simpl map.
  apply (join_capitalized d w ws Hs). right. reflexivity.
Qed.

(** The parts of a payload that [process_weather] has read when it
    succeeds. *)
Lemma process_weather_reads {host : Host} (data : JsValue) (w : Weather) :
  process_weather data = Ok w ->
  exists icon code description text,
    payload_icon data = Ok icon /\ icon_code icon = Ok code
    /\ iconUrl w = "https://openweathermap.org/img/wn/" ++ code ++ "@2x.png"
    /\ payload_description data = Ok description
    /\ status_text description = Ok text /\ status w = text.
Proof.
  unfold process_weather, payload_icon, payload_description.
  destruct (get "weather" data) as [wl|]; simpl; [|discriminate].
  destruct (get_index0 wl) as [w0|]; simpl; [|discriminate].
  destruct (get "icon" w0) as [icon|]; simpl; [|discriminate].
  destruct (icon_code icon) as [code|] eqn:Hcode; simpl; [|discriminate].
  repeat match goal with
         | |- context [bind_outcome ?o _] =>
             let x := fresh "x" in destruct o as [x|] eqn:?; simpl; [|discriminate]
         end.
  intros H. injection H as <-. simpl. do 4 eexists.
  repeat split; first [reflexivity | eassumption].
Qed.



(** X9. The weather status is the description of the payload with the
    case of letters changed and nothing else. When [process_weather]
    succeeds, the description is a string; and when that string is ASCII
    text, the status has its length and its lower-case form, so no character
    is added, dropped or moved by the capitalisation of the words. *)
Theorem process_weather_status {host : Host} (data : JsValue) (w : Weather) :
  process_weather data = Ok w ->
  exists d, payload_description data = Ok (JStr d)
            /\ (ascii_text d = true ->
                toLowerCase (status w) = toLowerCase d
                /\ String.length (status w) = String.length d).
Proof.
  intros H.
  destruct (process_weather_reads data w H)
    as (icon & code & description & text & _ & _ & _ & Hd & Hs & Hw).
  destruct description as [| | | |d| |]; simpl in Hs; try discriminate.
  exists d. split; [exact Hd|]. intros _. rewrite Hw.
  apply status_text_case_only. exact Hs.
Qed.

(** X9 at a concrete input: the clear-sky payload. *)
Lemma process_weather_status_witness :
  exists d, payload_description clearSkyPayload = Ok (JStr d)
            /\ ascii_text d = true
            /\ toLowerCase "Clear Sky" = toLowerCase d
            /\ String.length "Clear Sky" = String.length d.
Proof.
  assert (H : exists w, process_weather (host := utcHost) clearSkyPayload = Ok w
                        /\ status w = "Clear Sky")
    by (eexists; split; vm_compute; reflexivity).
  destruct H as (w & H & Hst).
  destruct (process_weather_status (host := utcHost) clearSkyPayload w H)
    as (d & Hd & Hcase).
  exists d. split; [exact Hd|].
  assert (Ha : ascii_text d = true).
  { assert (Hc : payload_description clearSkyPayload = Ok (JStr "clear sky"))
      by reflexivity.
    rewrite Hc in Hd. injection Hd as <-. reflexivity. }
  split; [exact Ha|]. rewrite <- Hst. exact (Hcase Ha).
Defined.

(** *** What the trip view shows *)

Lemma map_outcome_icon_items (icon_of : string -> string) (items : list string) :
  map_outcome (icon_item icon_of) (map JStr items)
  = Ok (map (fun s => (icon_of s, capitalize s)) items).
Proof.
  induction items as [|s items IH]; [reflexivity|].
  simpl. rewrite IH. reflexivity.
Qed.

(** X10. [renderAmenities] and [renderHighlights] show one cell for each
    item, in the order of the list: for a non-empty array of strings of
    ASCII text the grid has, for every string, the icon chosen for it and the
    string with its first letter in upper case; for the empty array, and for
    any value that is not an array, the text ["N/A"] is shown instead; and a
    non-empty array makes them throw exactly when one of its items is not a
    string. *)
Theorem render_grid_cells (icon_of : string -> string) :
  (forall (first : string) (others : list string),
      forallb ascii_text (first :: others) = true ->
      render_grid icon_of (JArr (map JStr (first :: others)))
      = Ok (Some (map (fun s => (icon_of s, capitalize s)) (first :: others))))
  /\ (forall v, render_grid icon_of v = Ok None
                <-> v = JArr [] \/ isArray v = false)
  /\ (forall v, (exists e, render_grid icon_of v = Throw e)
                <-> grid_renders v = false).
Proof.
  split; [|split].
  - intros first others _. cbn [map]. unfold render_grid.
    change (JStr first :: map JStr others) with (map JStr (first :: others)).
    rewrite map_outcome_icon_items. reflexivity.
  - intros v. unfold render_grid.
    destruct v as [| | | | |items|]; simpl; try (split; auto; fail).
    destruct items as [|x rest]; [split; auto|].
    change (match icon_item icon_of x with
            | Ok y => match map_outcome (icon_item icon_of) rest with
                      | Ok ys => Ok (y :: ys)
                      | Throw e => Throw e
                      end
            | Throw e => Throw e
            end) with (map_outcome (icon_item icon_of) (x :: rest)).
    destruct (map_outcome (icon_item icon_of) (x :: rest)); split;
      try discriminate; intros [H|H]; discriminate.
  - intros v. pose proof (render_grid_succeeds icon_of v) as Hs.
    destruct (grid_renders v); split.
    + intros [e He]. destruct (proj2 Hs eq_refl) as [grid Hg]. congruence.
    + discriminate.
    + reflexivity.
    + intros _. destruct (render_grid icon_of v) as [grid|e] eqn:Hg; [|eauto].
      destruct Hs as [Hs _]. specialize (Hs (ex_intro _ grid eq_refl)). discriminate.
Qed.

(** X10 at a concrete input: the amenities of Eagle Rock. *)
Lemma render_grid_cells_witness :
  render_grid getAmenityIcon (JArr [JStr "parking"; JStr "restrooms"])
  = Ok (Some [("car", "Parking"); ("transgender", "Restrooms")]).
Proof.
  exact (proj1 (render_grid_cells getAmenityIcon) "parking" ["restrooms"] eq_refl).
Defined.

(** X11. When the trip view can be built. With [tripInfo] loaded, the
    body of [InfoTab] returns the trip view exactly when [cellService] is a
    string and [amenities] and [highlights] are each either no array or an
    array of strings; in every other case it throws. Nothing else in the
    record, and nothing in the weather, makes it throw. *)
Theorem render_trip_succeeds {host : Host} (info : JsValue) (w : option Weather) :
  (exists view, render_trip info w = Ok (MainScreen view))
  <-> is_string (prop "cellService" info) = true
      /\ grid_renders (prop "amenities" info) = true
      /\ grid_renders (prop "highlights" info) = true.
Proof.
  pose proof (render_grid_succeeds getAmenityIcon (prop "amenities" info)) as Ha.
  pose proof (render_grid_succeeds getHighlightIcon (prop "highlights" info)) as Hh.
  unfold render_trip, cell_service_icon.
  destruct (prop "cellService" info) as [| | | |cs| |]; simpl;
    try (split; [intros [view H]; discriminate | intros [H _]; discriminate]).
  destruct (render_grid getAmenityIcon (prop "amenities" info)) as [ga|e]; simpl.
  - destruct (render_grid getHighlightIcon (prop "highlights" info)) as [gh|e]; simpl.
    + split; [|eauto]. intros _.
      split; [reflexivity|]. split; [apply Ha | apply Hh]; eauto.
    + split; [intros [view H]; discriminate|].
      intros (_ & _ & H). apply Hh in H as [grid H]. discriminate.
  - split; [intros [view H]; discriminate|].
    intros (_ & H & _). apply Ha in H as [grid H]. discriminate.
Qed.

(** *** The icons *)

Lemma lower_ascii_idem (c : ascii) : lower_ascii (lower_ascii c) = lower_ascii c.
Proof. destruct c as [[] [] [] [] [] [] [] []]; reflexivity. Qed.

Lemma toLowerCase_idem (s : string) : toLowerCase (toLowerCase s) = toLowerCase s.
Proof.
  induction s as [|c s IH]; [reflexivity|].
  simpl. rewrite lower_ascii_idem, IH. reflexivity.
Qed.

Lemma toLowerCase_empty (s : string) : toLowerCase s = "" <-> s = "".
Proof. destruct s; simpl; split; intros H; try reflexivity; discriminate. Qed.

(** X12. The icon of a highlight is ["warning"] for one word only. Line
    296 asks for it when the text contains "difficult" or "extreme", but a
    text that contains "difficult" has been given an icon by line 294 or by
    an earlier line: [getHighlightIcon] returns ["warning"] only for a text
    that contains "extreme", and never for one that contains
    "difficult". *)
Theorem getHighlightIcon_warning (highlight : string) :
  (getHighlightIcon highlight = "warning" ->
   includes "extreme" (toLowerCase highlight) = true
   /\ includes "difficult" (toLowerCase highlight) = false)
  /\ (includes "difficult" (toLowerCase highlight) = true ->
      getHighlightIcon highlight <> "warning").
Proof.
  assert (H1 : getHighlightIcon highlight = "warning" ->
               includes "extreme" (toLowerCase highlight) = true
               /\ includes "difficult" (toLowerCase highlight) = false).
  { unfold getHighlightIcon. intros H.
    repeat match type of H with
           | context [includes ?n ?x] =>
               destruct (includes n x) eqn:?; simpl in H; try discriminate H
           end.
    split; reflexivity. }
  split; [exact H1|].
  intros Hd Hw. destruct (H1 Hw) as [_ Hnd]. congruence.
Qed.

(** X13. The icons do not depend on the case of letters: two texts with
    the same lower-case form get the same icon from [getAmenityIcon], from
    [getHighlightIcon] and from [getDifficultyIcon], and each of the three
    gives a text and its lower-case form the same icon. *)
Theorem icons_ignore_case (a b : string) :
  (toLowerCase a = toLowerCase b ->
   getAmenityIcon a = getAmenityIcon b
   /\ getHighlightIcon a = getHighlightIcon b
   /\ getDifficultyIcon a = getDifficultyIcon b)
  /\ getAmenityIcon (toLowerCase a) = getAmenityIcon a
  /\ getHighlightIcon (toLowerCase a) = getHighlightIcon a
  /\ getDifficultyIcon (toLowerCase a) = getDifficultyIcon a.
Proof.
  assert (H : forall x y, toLowerCase x = toLowerCase y ->
                getAmenityIcon x = getAmenityIcon y
                /\ getHighlightIcon x = getHighlightIcon y
                /\ getDifficultyIcon x = getDifficultyIcon y).
  { intros x y Hxy. unfold getAmenityIcon, getHighlightIcon, getDifficultyIcon.
    rewrite Hxy. split; [reflexivity|]. split; [reflexivity|].
    unfold string_eqb.
    destruct (decide (x = "")) as [->|Hx].
    - symmetry in Hxy. apply toLowerCase_empty in Hxy as ->. reflexivity.
    - assert (Hy : y <> "")
        by (intros ->; apply Hx, toLowerCase_empty; exact Hxy).
      rewrite !bool_decide_eq_false_2 by assumption. reflexivity. }
  split; [apply H|].
  destruct (H (toLowerCase a) a (toLowerCase_idem a)) as (H1 & H2 & H3). auto.
Qed.

(** *** The objects made of the fetched rows *)

Lemma assoc_assoc_set (k k' : string) (v : JsValue) (fields : list (string * JsValue)) :
  assoc k (assoc_set k' v fields) = if string_eqb k k' then Some v else assoc k fields.
Proof.
  unfold string_eqb. induction fields as [|[k0 v0] fields IH]; simpl.
  - unfold string_eqb. case_bool_decide; reflexivity.
  - unfold string_eqb in *. destruct (decide (k' = k0)) as [->|Hne].
    + rewrite (bool_decide_eq_true_2 (k0 = k0)) by reflexivity. simpl.
      unfold string_eqb. case_bool_decide; reflexivity.
    + rewrite (bool_decide_eq_false_2 (k' = k0)) by assumption. simpl.
      unfold string_eqb. rewrite IH.
      destruct (decide (k = k0)) as [->|Hk].
      * rewrite (bool_decide_eq_true_2 (k0 = k0)) by reflexivity.
        rewrite (bool_decide_eq_false_2 (k0 = k')) by congruence. reflexivity.
      * rewrite (bool_decide_eq_false_2 (k = k0)) by assumption. reflexivity.
Qed.

Lemma assoc_none (k : string) (fields : list (string * JsValue)) :
  ~ In k (map fst fields) -> assoc k fields = None.
Proof.
  induction fields as [|[k0 v0] fields IH]; simpl; [reflexivity|].
  intros Hn. unfold string_eqb.
  rewrite bool_decide_eq_false_2 by (intros ->; apply Hn; left; reflexivity).
  apply IH. intros H. apply Hn. right. exact H.
Qed.

(** The spread of an object with distinct keys over a property list: the
    object's value where it has the key, the list's value elsewhere. *)
Lemma assoc_spread (k : string) (own target : list (string * JsValue)) :
  List.NoDup (map fst own) ->
  assoc k (fold_left (fun acc kv => assoc_set (fst kv) (snd kv) acc) own target)
  = match assoc k own with
    | Some v => Some v
    | None => assoc k target
    end.
Proof.
  revert target. induction own as [|[k0 v0] own IH]; intros target Hnd; [reflexivity|].
  apply List.NoDup_cons_iff in Hnd as [Hk0 Hnd].
  simpl. rewrite (IH _ Hnd), assoc_assoc_set.
  unfold string_eqb. destruct (decide (k = k0)) as [->|Hne].
  - rewrite (bool_decide_eq_true_2 (k0 = k0)) by reflexivity.
    rewrite (assoc_none k0 own Hk0). reflexivity.
  - rewrite (bool_decide_eq_false_2 (k = k0)) by assumption. reflexivity.
Qed.

(** The object made of a row with distinct column names. *)
Lemma transform_row_object (key : string) (fields : list (string * JsValue)) :
  List.NoDup (map fst fields) ->
  exists made,
    transform_row key (JObj fields) = Ok (JObj made)
    /\ assoc "image" made
       = Some (or_else (prop "imageUrl" (JObj fields)) (JStr placeholderImage))
    /\ assoc "id" made = Some match assoc "id" fields with
                               | Some own => own
                               | None => prop key (JObj fields)
                               end
    /\ (forall k, k <> "id" -> k <> "image" -> assoc k made = assoc k fields).
Proof.
  intros Hnd. unfold transform_row, get. simpl.
  eexists. split; [reflexivity|]. unfold spread_into.
  split; [|split].
  - rewrite assoc_assoc_set. reflexivity.
  - rewrite assoc_assoc_set.
    change (string_eqb "id" "image") with false. cbv iota.
    rewrite (assoc_spread "id" fields _ Hnd).
    destruct (assoc "id" fields); reflexivity.
  - intros k Hid Him. rewrite assoc_assoc_set.
    unfold string_eqb at 1. rewrite bool_decide_eq_false_2 by assumption.
    rewrite (assoc_spread k fields _ Hnd).
    cbn [assoc]. unfold string_eqb. rewrite bool_decide_eq_false_2 by assumption.
    destruct (assoc k fields); reflexivity.
Qed.

(** X14. The object [fetchPlans] and [fetchTrips] make of a row keeps
    every column of the row. For a row with distinct column names: [image]
    is the row's [imageUrl] when that is truthy and the placeholder picture
    otherwise; [id] is the row's own [id] column when it has one, and the
    key column ([plan_id] or [trip_id]) when it has none; every other
    property is the row's. Only a row that is [null] or [undefined] makes
    the transformation throw. *)
Theorem transform_row_columns (key : string) (row : JsValue) :
  ((exists e, transform_row key row = Throw e) <-> is_nullish row = true)
  /\ (forall fields,
        row = JObj fields -> List.NoDup (map fst fields) ->
        exists made,
          transform_row key row = Ok made
          /\ prop "image" made = or_else (prop "imageUrl" row) (JStr placeholderImage)
          /\ prop "id" made = match assoc "id" fields with
                              | Some own => own
                              | None => prop key row
                              end
          /\ (forall k, k <> "id" -> k <> "image" -> prop k made = prop k row)).
Proof.
  split.
  - unfold transform_row, get. destruct (is_nullish row); simpl.
    + split; eauto.
    + split; [intros [e H]; discriminate | discriminate].
  - intros fields -> Hnd.
    destruct (transform_row_object key fields Hnd) as (made & Hm & Himg & Hid & Hrest).
    exists (JObj made). split; [exact Hm|]. cbn [prop].
    rewrite Himg, Hid. split; [reflexivity|]. split; [reflexivity|].
    intros k Hk1 Hk2. rewrite (Hrest k Hk1 Hk2). reflexivity.
Qed.

(** X14 at a concrete input: a trip row of the backend. *)
Lemma transform_row_columns_witness :
  exists made,
    transform_row "trip_id" (tripRow "t1") = Ok made
    /\ prop "image" made = JStr placeholderImage
    /\ prop "id" made = JStr "t1"
    /\ prop "bookmarked" made = JBool true.
Proof.
  destruct (proj2 (transform_row_columns "trip_id" (tripRow "t1")) _ eq_refl)
    as (made & Hm & Himg & Hid & Hrest).
  { repeat constructor; simpl; intuition discriminate. }
  exists made. split; [exact Hm|]. split; [exact Himg|]. split; [exact Hid|].
  apply Hrest; discriminate.
Defined.

(** *** The order of items with equal dates *)

Section SortStable.
Context {A : Type} (time : A -> TimeValue).

Let compare (a b : A) : option Z := time_minus (time a) (time b).

Lemma positive_later (x y : A) :
  is_positive (compare x y) = true -> millis (time y) < millis (time x).
Proof.
  unfold compare, time_minus, millis.
  destruct (time x) as [a|], (time y) as [b|]; simpl; try discriminate.
  intros H. apply Z.ltb_lt in H. lia.
Qed.

(** An item is put in front of the items of its own timestamp. *)
Lemma insert_by_filter (t : Z) (x : A) (l : list A) :
  List.filter (fun a => millis (time a) =? t) (insert_by compare x l)
  = List.filter (fun a => millis (time a) =? t) (x :: l).
Proof.
  induction l as [|y l IH]; [reflexivity|].
  simpl. destruct (is_positive (compare x y)) eqn:Hpos; [|reflexivity].
  apply positive_later in Hpos. simpl. rewrite IH. simpl.
  destruct (Z.eqb_spec (millis (time x)) t), (Z.eqb_spec (millis (time y)) t);
    try reflexivity; lia.
Qed.

Lemma js_sort_filter (t : Z) (l : list A) :
  List.filter (fun a => millis (time a) =? t) (js_sort compare l)
  = List.filter (fun a => millis (time a) =? t) l.
Proof.
  induction l as [|x l IH]; [reflexivity|].
  simpl js_sort. rewrite insert_by_filter. simpl. rewrite IH. reflexivity.
Qed.

(** A list in ascending order is left as it is. *)
Lemma js_sort_sorted_id (l : list A) :
  StronglySorted (fun a b => millis (time a) <= millis (time b)) l ->
  js_sort compare l = l.
Proof.
  induction 1 as [|x l Hs IH Hx]; [reflexivity|].
  simpl. rewrite IH. destruct l as [|y l]; [reflexivity|].
  simpl. destruct (is_positive (compare x y)) eqn:Hpos; [|reflexivity].
  apply positive_later in Hpos. apply Forall_cons in Hx as [Hxy _]. lia.
Qed.
End SortStable.

(** X15. The sort of the home screen is stable. After a successful
    [fetchPlans] (and likewise [fetchTrips]) with start dates that parse, the
    items that share a timestamp, the undated ones among them, stand in the
    order in which the backend returned them; and when the backend returned
    the rows in ascending order of the dates, the list shown is the list
    of the rows as returned. *)
Theorem fetched_lists_stable {host : Host} (env : Env) (s : Sys HomeState)
    (user uerr : JsValue) :
  auth_getUser env = Ok (user, uerr) -> truthy uerr = false -> truthy user = true ->
  (forall rows perr transformed,
      select_plans env (prop "id" user) = Ok (Some rows, perr) -> truthy perr = false ->
      map_outcome (transform_row "plan_id") rows = Ok transformed ->
      Forall (fun a => plan_timestamp a <> None) transformed ->
      let shown := plans (comp (snd (fetchPlans env s))) in
      (forall t, List.filter (fun a => millis (plan_timestamp a) =? t) shown
                 = List.filter (fun a => millis (plan_timestamp a) =? t) transformed)
      /\ (StronglySorted
            (fun a b => millis (plan_timestamp a) <= millis (plan_timestamp b)) transformed ->
          shown = transformed))
  /\ (forall rows terr transformed plansData perr dates,
      select_bookmarked_trips env (prop "id" user) = Ok (Some rows, terr) ->
      truthy terr = false ->
      map_outcome (transform_row "trip_id") rows = Ok transformed ->
      select_plan_dates env (prop "id" user) = Ok (plansData, perr) -> truthy perr = false ->
      match plansData with
      | Some plansList => collect_dates ∅ plansList
      | None => Ok ∅
      end = Ok dates ->
      Forall (fun a => trip_timestamp dates a <> None) transformed ->
      let shown := trips (comp (snd (fetchTrips env s))) in
      (forall t, List.filter (fun a => millis (trip_timestamp dates a) =? t) shown
                 = List.filter (fun a => millis (trip_timestamp dates a) =? t) transformed)
      /\ (StronglySorted
            (fun a b => millis (trip_timestamp dates a) <= millis (trip_timestamp dates b))
            transformed ->
          shown = transformed)).
Proof.
  intros Hauth Huerr Huser. split.
  - intros rows perr transformed Hsel Hperr Hmap _ shown. subst shown.
    rewrite (fetchPlans_success env s user uerr perr rows transformed
               Hauth Huerr Huser Hsel Hperr Hmap).
    split; [intros t; apply (js_sort_filter plan_timestamp)|].
    apply (js_sort_sorted_id plan_timestamp).
  - intros rows terr transformed plansData perr dates Hsel Hterr Hmap Hdsel Hperr Hdates
      _ shown. subst shown.
    destruct (fetchTrips_success env s user uerr terr perr rows transformed plansData dates
                Hauth Huerr Huser Hsel Hterr Hmap Hdsel Hperr Hdates) as [-> _].
    split; [intros t; apply (js_sort_filter (trip_timestamp dates))|].
    apply (js_sort_sorted_id (trip_timestamp dates)).
Qed.

(** X15 at a concrete input: two plans without dates and a dated one
    between them, as the backend returns them. *)
Lemma fetched_lists_stable_witness :
  let rows := [undatedPlan "p1"; planRow "p2" (JStr "2025-06-15") []; undatedPlan "p3"] in
  let env := homeEnv rows [] [] JNull Success Success in
  let shown := plans (comp (snd (fetchPlans (host := utcHost) env (atHome Home_initial emptyWorld)))) in
  map (prop "id") (List.filter (fun a => millis (plan_timestamp (host := utcHost) a) =? 0) shown)
  = [JStr "p1"; JStr "p3"].
Proof.
  intros rows env shown.
  destruct (fetched_lists_stable (host := utcHost) env (atHome Home_initial emptyWorld)
              signedIn JNull eq_refl eq_refl eq_refl) as [Hplans _].
  destruct (Hplans rows JNull
              (match map_outcome (transform_row "plan_id") rows with
               | Ok l => l
               | Throw _ => []
               end) eq_refl eq_refl eq_refl) as [Hties _].
  { simpl. repeat constructor; intros H; vm_compute in H; discriminate H. }
  subst shown. rewrite (Hties 0). reflexivity.
Defined.

(** *** Failures of the two list loads *)

Lemma stores_emit (e : Event) (w : World) : stores (emit e w) = stores w.
Proof. reflexivity. Qed.

(** The conjuncts that hold by computation on a path that leaves the
    component state as it was. *)
Ltac unchanged_path Hlog :=
  split; [reflexivity|]; split; [reflexivity|];
  do 3 (split; [reflexivity|]); split; [left; reflexivity|];
  split; [intros ? ? ?; split; [eapply Hlog; eauto | reflexivity]|].

Ltac other_user :=
  let Hu := fresh in
  intros ? ? Hu ? ?; injection Hu as <- <-; congruence.

(** X16. [fetchPlans] fails quietly and as a whole. It never throws and
    never changes a store of the device or of the backend, the favourite
    trips, their dates or the deleting marks. Either the component state is
    what it was, or every request succeeded and the plans are the objects
    made of the rows, all of them and no other, in the order of their dates
    when every start date parses; whenever an error is logged, it is "Error
    fetching plans:" and the plans on the screen are the ones that were
    there before. With nobody signed in, the only request is the one for the
    user, nothing is logged and the plans stay on the screen. *)
Theorem fetchPlans_contained {host : Host} (env : Env) (s : Sys HomeState) :
  let s' := snd (fetchPlans env s) in
  let log := new_events (world s) (world s') in
  fst (fetchPlans env s) = Ok tt
  /\ stores (world s') = stores (world s)
  /\ trips (comp s') = trips (comp s)
  /\ tripDates (comp s') = tripDates (comp s)
  /\ deletingItems (comp s') = deletingItems (comp s)
  /\ (comp s' = comp s
      \/ exists user uerr rows perr transformed,
           auth_getUser env = Ok (user, uerr) /\ truthy uerr = false /\ truthy user = true
           /\ select_plans env (prop "id" user) = Ok (Some rows, perr)
           /\ truthy perr = false
           /\ map_outcome (transform_row "plan_id") rows = Ok transformed
           /\ Permutation transformed (plans (comp s'))
           /\ (Forall (fun a => plan_timestamp a <> None) transformed ->
               plans (comp s') = js_sort compare_plans transformed)
           /\ List.filter is_console_error log = [])
  /\ (forall e, In e log -> is_console_error e = true ->
        e = ConsoleError "Error fetching plans:" /\ comp s' = comp s)
  /\ (forall user uerr,
        auth_getUser env = Ok (user, uerr) -> truthy uerr = false -> truthy user = false ->
        log = [SupabaseRequest "auth" "getUser"] /\ comp s' = comp s).
Proof.
  intros s' log. subst s' log.
  unfold fetchPlans, supabase_getUser, setPlans. unfold_calls. unfold_eff.
  assert (Hlog : forall l e, In e l -> is_console_error e = true ->
                   l = [SupabaseRequest "auth" "getUser"; ConsoleError "Error fetching plans:"]
                   \/ l = [SupabaseRequest "auth" "getUser"; SupabaseRequest "plans" "select";
                           ConsoleError "Error fetching plans:"]
                   \/ l = [SupabaseRequest "auth" "getUser"]
                   \/ l = [SupabaseRequest "auth" "getUser"; SupabaseRequest "plans" "select"] ->
                   e = ConsoleError "Error fetching plans:").
  { intros l e Hin He [-> | [-> | [-> | ->]]]; simpl in Hin;
      repeat (destruct Hin as [<- | Hin]; [try discriminate He; try reflexivity|]);
      destruct Hin. }
  destruct (auth_getUser env) as [[user uerr]|ex] eqn:Hauth; simpl.
  2:{ rewrite (new_events_app _ _ [SupabaseRequest "auth" "getUser";
                                   ConsoleError "Error fetching plans:"])
        by (simpl; rewrite <- app_assoc; reflexivity).
      unchanged_path Hlog. intros ? ? ?; discriminate. }
  destruct (truthy uerr) eqn:Huerr; simpl.
  { rewrite (new_events_app _ _ [SupabaseRequest "auth" "getUser";
                                 ConsoleError "Error fetching plans:"])
      by (simpl; rewrite <- app_assoc; reflexivity).
    unchanged_path Hlog. other_user. }
  destruct (truthy user) eqn:Huser; simpl.
  2:{ rewrite (new_events_app _ _ [SupabaseRequest "auth" "getUser"])
        by (simpl; reflexivity).
      unchanged_path Hlog. intros; split; reflexivity. }
  destruct (select_plans env (prop "id" user)) as [[data perr]|ex] eqn:Hsel; simpl.
  2:{ rewrite (new_events_app _ _ [SupabaseRequest "auth" "getUser";
                                   SupabaseRequest "plans" "select";
                                   ConsoleError "Error fetching plans:"])
        by (simpl; rewrite <- !app_assoc; reflexivity).
      unchanged_path Hlog. other_user. }
  destruct (truthy perr) eqn:Hperr; simpl.
  { rewrite (new_events_app _ _ [SupabaseRequest "auth" "getUser";
                                 SupabaseRequest "plans" "select";
                                 ConsoleError "Error fetching plans:"])
      by (simpl; rewrite <- !app_assoc; reflexivity).
    unchanged_path Hlog. other_user. }
  destruct data as [rows|]; simpl.
  2:{ rewrite (new_events_app _ _ [SupabaseRequest "auth" "getUser";
                                   SupabaseRequest "plans" "select"])
        by (simpl; rewrite <- !app_assoc; reflexivity).
      unchanged_path Hlog. other_user. }
  destruct (map_outcome (transform_row "plan_id") rows) as [transformed|ex] eqn:Hmap; simpl.
  - rewrite (new_events_app _ _ [SupabaseRequest "auth" "getUser";
                                 SupabaseRequest "plans" "select"])
      by (simpl; rewrite <- !app_assoc; reflexivity).
    split; [reflexivity|]. split; [reflexivity|].
    do 3 (split; [reflexivity|]). split; [|split].
    + right. exists user, uerr, rows, perr, transformed.
      do 6 (split; [auto|]). split; [apply js_sort_permutation|].
      split; [intros _; reflexivity | reflexivity].
    + intros e Hin He. exfalso.
      simpl in Hin. destruct Hin as [<- | [<- | []]]; discriminate He.
    + other_user.
  - rewrite (new_events_app _ _ [SupabaseRequest "auth" "getUser";
                                 SupabaseRequest "plans" "select";
                                 ConsoleError "Error fetching plans:"])
      by (simpl; rewrite <- !app_assoc; reflexivity).
    unchanged_path Hlog. other_user.
Qed.

(** X17. [fetchTrips] replaces the favourite trips and their dates
    together or not at all. It never throws and never changes a store, the
    plans or the deleting marks. Either the component state is what it was,
    or all three requests succeeded and the dates are those collected from
    the plans and the trips are the objects made of the rows, all of them
    and no other, in the order of those dates when every one of them parses;
    whenever an error is logged, it is "Error fetching trips:" and
    both the trips and the dates on the screen are the ones that were there
    before, also when the failure came after the trips had been received.
    With nobody signed in, the only request is the one for the user. *)
Theorem fetchTrips_all_or_nothing {host : Host} (env : Env) (s : Sys HomeState) :
  let s' := snd (fetchTrips env s) in
  let log := new_events (world s) (world s') in
  fst (fetchTrips env s) = Ok tt
  /\ stores (world s') = stores (world s)
  /\ plans (comp s') = plans (comp s)
  /\ deletingItems (comp s') = deletingItems (comp s)
  /\ (comp s' = comp s
      \/ exists user uerr rows terr transformed plansData perr dates,
           auth_getUser env = Ok (user, uerr) /\ truthy uerr = false /\ truthy user = true
           /\ select_bookmarked_trips env (prop "id" user) = Ok (Some rows, terr)
           /\ truthy terr = false
           /\ map_outcome (transform_row "trip_id") rows = Ok transformed
           /\ select_plan_dates env (prop "id" user) = Ok (plansData, perr)
           /\ truthy perr = false
           /\ match plansData with
              | Some plansList => collect_dates ∅ plansList
              | None => Ok ∅
              end = Ok dates
           /\ tripDates (comp s') = dates
           /\ Permutation transformed (trips (comp s'))
           /\ (Forall (fun a => trip_timestamp dates a <> None) transformed ->
               trips (comp s') = js_sort (compare_trips dates) transformed)
           /\ List.filter is_console_error log = [])
  /\ (forall e, In e log -> is_console_error e = true ->
        e = ConsoleError "Error fetching trips:" /\ comp s' = comp s)
  /\ (forall user uerr,
        auth_getUser env = Ok (user, uerr) -> truthy uerr = false -> truthy user = false ->
        log = [SupabaseRequest "auth" "getUser"] /\ comp s' = comp s).
Proof.
  intros s' log. subst s' log.
  unfold fetchTrips, supabase_getUser, setTrips, setTripDates. unfold_calls. unfold_eff.
  assert (Hlog : forall l e, In e l -> is_console_error e = true ->
                   (exists requests,
                       l = (requests ++ [ConsoleError "Error fetching trips:"])%list
                       /\ Forall (fun r => is_console_error r = false) requests)
                   \/ Forall (fun r => is_console_error r = false) l ->
                   e = ConsoleError "Error fetching trips:").
  { intros l e Hin He [(requests & -> & Hr) | Hr].
    - apply in_app_or in Hin as [Hin | [<- | []]]; [|reflexivity].
      rewrite Forall_forall in Hr. apply list_elem_of_In, Hr in Hin. congruence.
    - rewrite Forall_forall in Hr. apply list_elem_of_In, Hr in Hin. congruence. }
  assert (Hfail : forall requests,
             Forall (fun r => is_console_error r = false) requests ->
             (exists requests',
                 (requests ++ [ConsoleError "Error fetching trips:"])%list
                 = (requests' ++ [ConsoleError "Error fetching trips:"])%list
                 /\ Forall (fun r => is_console_error r = false) requests')
             \/ Forall (fun r => is_console_error r = false)
                  (requests ++ [ConsoleError "Error fetching trips:"])%list)
    by (intros requests Hr; left; exists requests; auto).
  destruct (auth_getUser env) as [[user uerr]|ex] eqn:Hauth; simpl.
  2:{ rewrite (new_events_app _ _ ([SupabaseRequest "auth" "getUser"]
                                   ++ [ConsoleError "Error fetching trips:"]))
        by (simpl; rewrite <- app_assoc; reflexivity).
      split; [reflexivity|]. do 3 (split; [reflexivity|]). split; [left; reflexivity|].
      split; [|intros ? ? ?; discriminate].
      intros e Hin He. split; [|reflexivity].
      apply (Hlog _ e Hin He), Hfail. repeat constructor. }
  destruct (truthy uerr) eqn:Huerr; simpl.
  { rewrite (new_events_app _ _ ([SupabaseRequest "auth" "getUser"]
                                 ++ [ConsoleError "Error fetching trips:"]))
      by (simpl; rewrite <- app_assoc; reflexivity).
    split; [reflexivity|]. do 3 (split; [reflexivity|]). split; [left; reflexivity|].
    split; [|other_user].
    intros e Hin He. split; [|reflexivity].
    apply (Hlog _ e Hin He), Hfail. repeat constructor. }
  destruct (truthy user) eqn:Huser; simpl.
  2:{ rewrite (new_events_app _ _ [SupabaseRequest "auth" "getUser"])
        by (simpl; reflexivity).
      split; [reflexivity|]. do 3 (split; [reflexivity|]). split; [left; reflexivity|].
      split; [|intros; split; reflexivity].
      intros e Hin He. split; [|reflexivity].
      apply (Hlog _ e Hin He). right. repeat constructor. }
  destruct (select_bookmarked_trips env (prop "id" user)) as [[data terr]|ex] eqn:Hsel; simpl.
  2:{ rewrite (new_events_app _ _ ([SupabaseRequest "auth" "getUser";
                                    SupabaseRequest "trips" "select"]
                                   ++ [ConsoleError "Error fetching trips:"]))
        by (simpl; rewrite <- !app_assoc; reflexivity).
      split; [reflexivity|]. do 3 (split; [reflexivity|]). split; [left; reflexivity|].
      split; [|other_user].
      intros e Hin He. split; [|reflexivity].
      apply (Hlog _ e Hin He), Hfail. repeat constructor. }
  destruct (truthy terr) eqn:Hterr; simpl.
  { rewrite (new_events_app _ _ ([SupabaseRequest "auth" "getUser";
                                  SupabaseRequest "trips" "select"]
                                 ++ [ConsoleError "Error fetching trips:"]))
      by (simpl; rewrite <- !app_assoc; reflexivity).
    split; [reflexivity|]. do 3 (split; [reflexivity|]). split; [left; reflexivity|].
    split; [|other_user].
    intros e Hin He. split; [|reflexivity].
    apply (Hlog _ e Hin He), Hfail. repeat constructor. }
  destruct data as [rows|]; simpl.
  2:{ rewrite (new_events_app _ _ [SupabaseRequest "auth" "getUser";
                                   SupabaseRequest "trips" "select"])
        by (simpl; rewrite <- !app_assoc; reflexivity).
      split; [reflexivity|]. do 3 (split; [reflexivity|]). split; [left; reflexivity|].
      split; [|other_user].
      intros e Hin He. split; [|reflexivity].
      apply (Hlog _ e Hin He). right. repeat constructor. }
  destruct (map_outcome (transform_row "trip_id") rows) as [transformed|ex] eqn:Hmap; simpl.
  2:{ rewrite (new_events_app _ _ ([SupabaseRequest "auth" "getUser";
                                    SupabaseRequest "trips" "select"]
                                   ++ [ConsoleError "Error fetching trips:"]))
        by (simpl; rewrite <- !app_assoc; reflexivity).
      split; [reflexivity|]. do 3 (split; [reflexivity|]). split; [left; reflexivity|].
      split; [|other_user].
      intros e Hin He. split; [|reflexivity].
      apply (Hlog _ e Hin He), Hfail. repeat constructor. }
  assert (Hthree : forall e,
             In e [SupabaseRequest "auth" "getUser"; SupabaseRequest "trips" "select";
                   SupabaseRequest "plans" "select"; ConsoleError "Error fetching trips:"] ->
             is_console_error e = true -> e = ConsoleError "Error fetching trips:").
  { intros e Hin He. apply (Hlog _ e Hin He).
    apply (Hfail [SupabaseRequest "auth" "getUser"; SupabaseRequest "trips" "select";
                  SupabaseRequest "plans" "select"]). repeat constructor. }
  destruct (select_plan_dates env (prop "id" user)) as [[plansData perr]|ex] eqn:Hdsel; simpl.
  2:{ rewrite (new_events_app _ _ [SupabaseRequest "auth" "getUser";
                                   SupabaseRequest "trips" "select";
                                   SupabaseRequest "plans" "select";
                                   ConsoleError "Error fetching trips:"])
        by (simpl; rewrite <- !app_assoc; reflexivity).
      split; [reflexivity|]. do 3 (split; [reflexivity|]). split; [left; reflexivity|].
      split; [|other_user].
      intros e Hin He. split; [|reflexivity]. auto. }
  destruct (truthy perr) eqn:Hperr; simpl.
  { rewrite (new_events_app _ _ [SupabaseRequest "auth" "getUser";
                                 SupabaseRequest "trips" "select";
                                 SupabaseRequest "plans" "select";
                                 ConsoleError "Error fetching trips:"])
      by (simpl; rewrite <- !app_assoc; reflexivity).
    split; [reflexivity|]. do 3 (split; [reflexivity|]). split; [left; reflexivity|].
    split; [|other_user].
    intros e Hin He. split; [|reflexivity]. auto. }
  destruct (match plansData with
            | Some plansList => collect_dates ∅ plansList
            | None => Ok ∅
            end) as [dates|ex] eqn:Hdates; simpl.
  - rewrite (new_events_app _ _ [SupabaseRequest "auth" "getUser";
                                 SupabaseRequest "trips" "select";
                                 SupabaseRequest "plans" "select"])
      by (simpl; rewrite <- !app_assoc; reflexivity).
    split; [reflexivity|]. do 3 (split; [reflexivity|]). split; [|split].
    + right. exists user, uerr, rows, terr, transformed, plansData, perr, dates.
      do 10 (split; [auto|]). split; [apply js_sort_permutation|].
      split; [intros _; reflexivity | reflexivity].
    + intros e Hin He. exfalso.
      simpl in Hin. destruct Hin as [<- | [<- | [<- | []]]]; discriminate He.
    + other_user.
  - rewrite (new_events_app _ _ [SupabaseRequest "auth" "getUser";
                                 SupabaseRequest "trips" "select";
                                 SupabaseRequest "plans" "select";
                                 ConsoleError "Error fetching trips:"])
      by (simpl; rewrite <- !app_assoc; reflexivity).
    split; [reflexivity|]. do 3 (split; [reflexivity|]). split; [left; reflexivity|].
    split; [|other_user].
    intros e Hin He. split; [|reflexivity]. auto.
Qed.

(** *** Further properties of the deletion of a plan *)

(** The deletion of a plan that lists trips, path by path. *)
Lemma handleDeletePlan_with_trips (env : Env) (planId : string) (s : Sys HomeState)
    (plan planError : JsValue) (tripIds : list JsValue) :
  select_plan_tripIds env planId = Ok (plan, planError) ->
  truthy planError = false ->
  truthy plan = true ->
  prop "tripIds" plan = JArr tripIds ->
  handleDeletePlan env planId true s =
    let s1 := with_world (emit (SupabaseRequest "trips" "delete"))
                (with_world (emit (SupabaseRequest "plans" "select"))
                   (confirmed_deletion "Delete Plan" deletePlanQuestion planId s)) in
    match delete_trips_reply env with
    | Success =>
        let s2 := with_world (emit (SupabaseRequest "plans" "delete"))
                    (plan_trips_deleted tripIds s1) in
        match delete_plan_reply env with
        | Success => (Ok tt, unmark planId (plan_deleted planId s2))
        | _ => (Ok tt, plan_deletion_failed planId s2)
        end
    | _ => (Ok tt, plan_deletion_failed planId s1)
    end.
Proof.
  intros Hsel Herr Hplan Hids.
  unfold handleDeletePlan, delete_plan_task, supabase_delete, setTrips, setPlans,
    setDeletingItems.
  unfold_calls. unfold_eff. rewrite Hsel. simpl.
  rewrite Herr, Hplan, Hids. simpl.
  destruct (delete_trips_reply env) as [|msg|msg]; simpl; try reflexivity.
  rewrite delete_caches_loop. simpl.
  destruct (delete_plan_reply env) as [|msg|msg]; reflexivity.
Qed.

(** The deletion of a plan that lists no trips. *)
Lemma handleDeletePlan_without_trips (env : Env) (planId : string) (s : Sys HomeState)
    (plan planError : JsValue) :
  select_plan_tripIds env planId = Ok (plan, planError) ->
  truthy planError = false ->
  truthy plan && truthy (prop "tripIds" plan) = false ->
  handleDeletePlan env planId true s =
    let s2 := with_world (emit (SupabaseRequest "plans" "delete"))
                (with_world (emit (SupabaseRequest "plans" "select"))
                   (confirmed_deletion "Delete Plan" deletePlanQuestion planId s)) in
    match delete_plan_reply env with
    | Success => (Ok tt, unmark planId (plan_deleted planId s2))
    | _ => (Ok tt, plan_deletion_failed planId s2)
    end.
Proof.
  intros Hsel Herr Hnone.
  unfold handleDeletePlan, delete_plan_task, supabase_delete, setTrips, setPlans,
    setDeletingItems.
  unfold_calls. unfold_eff. rewrite Hsel. simpl.
  rewrite Herr, Hnone. simpl.
  destruct (delete_plan_reply env) as [|msg|msg]; reflexivity.
Qed.

(** The deletion of a plan that cannot be read, or whose [tripIds] is a
    truthy value that is no array. *)
Lemma handleDeletePlan_unreadable (env : Env) (planId : string) (s : Sys HomeState) :
  match select_plan_tripIds env planId with
  | Ok (plan, planError) =>
      truthy planError = true
      \/ (truthy plan && truthy (prop "tripIds" plan) = true
          /\ isArray (prop "tripIds" plan) = false)
  | Throw _ => True
  end ->
  handleDeletePlan env planId true s =
    (Ok tt, plan_deletion_failed planId
              (with_world (emit (SupabaseRequest "plans" "select"))
                 (confirmed_deletion "Delete Plan" deletePlanQuestion planId s))).
Proof.
  unfold handleDeletePlan, delete_plan_task, supabase_delete, setTrips, setPlans,
    setDeletingItems.
  unfold_calls. unfold_eff.
  destruct (select_plan_tripIds env planId) as [[plan planError]|e]; simpl;
    [|reflexivity].
  intros [Herr | [Hboth Harr]].
  - rewrite Herr. reflexivity.
  - destruct (truthy planError); [reflexivity|]. simpl. rewrite Hboth.
    destruct (prop "tripIds" plan); try discriminate; reflexivity.
Qed.

Lemma unmark_marked (id : string) (marks : gset string) :
  (marks ∪ {[id]}) ∖ {[id]} = marks ∖ {[id]}.
Proof.
  apply set_eq. intros x.
  rewrite !elem_of_difference, elem_of_union, elem_of_singleton. tauto.
Qed.

Lemma unmarked_absent (id : string) (marks : gset string) : id ∉ marks ∖ {[id]}.
Proof. rewrite elem_of_difference, elem_of_singleton. tauto. Qed.

(** X18. The deleting mark of a plan never stays. Whatever the backend
    answers, once the user has confirmed, [handleDeletePlan] returns without
    throwing and the plan is not marked as being deleted any more, while the
    marks of the other items are what they were; the dates of the trips, the
    key-value storage and the weather cache are never changed. When the
    user cancels, nothing happens but the dialog. *)
Theorem handleDeletePlan_settles (env : Env) (planId : string) (s : Sys HomeState) :
  let s' := snd (handleDeletePlan env planId true s) in
  fst (handleDeletePlan env planId true s) = Ok tt
  /\ deletingItems (comp s') = deletingItems (comp s) ∖ {[planId]}
  /\ (planId ∉ deletingItems (comp s'))
  /\ tripDates (comp s') = tripDates (comp s)
  /\ asyncStorage (world s') = asyncStorage (world s)
  /\ weatherCache (world s') = weatherCache (world s)
  /\ handleDeletePlan env planId false s
     = (Ok tt, with_world (emit (AlertShown "Delete Plan" deletePlanQuestion)) s).
Proof.
  intros s'.
  assert (Hrun : fst (handleDeletePlan env planId true s) = Ok tt
                 /\ deletingItems (comp s') = deletingItems (comp s) ∖ {[planId]}
                 /\ tripDates (comp s') = tripDates (comp s)
                 /\ asyncStorage (world s') = asyncStorage (world s)
                 /\ weatherCache (world s') = weatherCache (world s)).
  { subst s'.
    destruct (select_plan_tripIds env planId) as [[plan planError]|e] eqn:Hsel.
    2:{ rewrite handleDeletePlan_unreadable by (rewrite Hsel; exact I).
        simpl. rewrite unmark_marked. auto. }
    destruct (truthy planError) eqn:Herr.
    { rewrite handleDeletePlan_unreadable by (rewrite Hsel; left; exact Herr).
      simpl. rewrite unmark_marked. auto. }
    destruct (truthy plan && truthy (prop "tripIds" plan)) eqn:Hboth.
    2:{ rewrite (handleDeletePlan_without_trips env planId s plan planError Hsel Herr Hboth).
        destruct (delete_plan_reply env); simpl; rewrite unmark_marked; auto. }
    destruct (isArray (prop "tripIds" plan)) eqn:Harr.
    2:{ rewrite handleDeletePlan_unreadable by (rewrite Hsel; right; auto).
        simpl. rewrite unmark_marked. auto. }
    destruct (prop "tripIds" plan) as [| | | | |tripIds|] eqn:Hids; try discriminate.
    apply andb_prop in Hboth as [Hplan _].
    rewrite (handleDeletePlan_with_trips env planId s plan planError tripIds
               Hsel Herr Hplan Hids).
    destruct (delete_trips_reply env), (delete_plan_reply env); simpl;
      rewrite unmark_marked; auto. }
  destruct Hrun as (H1 & H2 & H3 & H4 & H5).
  split; [exact H1|]. split; [exact H2|]. split; [rewrite H2; apply unmarked_absent|].
  repeat (split; [assumption|]). reflexivity.
Qed.

(** X19. When the trips of a plan cannot be deleted, nothing is deleted.
    If the request that deletes the trips fails, by an error answer or a
    rejected call, [handleDeletePlan] makes no request for the plan: the two
    tables, the caches and the two lists are what they were, and the user
    sees the error alert. *)
Theorem delete_plan_trips_failure (env : Env) (planId : string) (s : Sys HomeState)
    (plan planError : JsValue) (tripIds : list JsValue) :
  select_plan_tripIds env planId = Ok (plan, planError) ->
  truthy planError = false ->
  truthy plan = true ->
  prop "tripIds" plan = JArr tripIds ->
  delete_trips_reply env <> Success ->
  let s' := snd (handleDeletePlan env planId true s) in
  stores (world s') = stores (world s)
  /\ plans (comp s') = plans (comp s)
  /\ trips (comp s') = trips (comp s)
  /\ new_events (world s) (world s') =
       [AlertShown "Delete Plan" deletePlanQuestion;
        SupabaseRequest "plans" "select"; SupabaseRequest "trips" "delete";
        ConsoleError "Error deleting plan and associated trips:";
        AlertShown "Error" "Could not delete plan or its trips."].
Proof.
  intros Hsel Herr Hplan Hids Hfail s'. subst s'.
  rewrite (handleDeletePlan_with_trips env planId s plan planError tripIds
             Hsel Herr Hplan Hids).
  destruct (delete_trips_reply env) as [|msg|msg]; [congruence| |]; simpl;
    (repeat (split; [reflexivity|]));
    (erewrite new_events_app; [|simpl; rewrite <- !app_assoc; reflexivity]);
    reflexivity.
Qed.

(** X19 at a concrete input: plan [p1] with trip [t1], and a backend that
    refuses to delete the trip. *)
Lemma delete_plan_trips_failure_witness :
  let plan := planRow "p1" (JStr "2025-06-15") [JStr "t1"] in
  let env := homeEnv [] [] [] plan (ErrorReply "permission denied") Success in
  let s := atHome {| plans := [JObj [("id", JStr "p1")]]; trips := [JObj [("id", JStr "t1")]];
                     tripDates := ∅; deletingItems := ∅ |} worldWithPlan in
  let s' := snd (handleDeletePlan env "p1" true s) in
  stores (world s') = stores (world s)
  /\ plans (comp s') = [JObj [("id", JStr "p1")]]
  /\ trips (comp s') = [JObj [("id", JStr "t1")]]
  /\ new_events (world s) (world s') =
       [AlertShown "Delete Plan" deletePlanQuestion;
        SupabaseRequest "plans" "select"; SupabaseRequest "trips" "delete";
        ConsoleError "Error deleting plan and associated trips:";
        AlertShown "Error" "Could not delete plan or its trips."].
Proof.
  intros plan env s.
  apply (delete_plan_trips_failure env "p1" s plan JNull [JStr "t1"]);
    try reflexivity. discriminate.
Defined.

(** X20. A deletion that the backend accepts removes the plan and its
    trips everywhere. When both delete requests succeed, the plan is gone
    from the 'plans' table and from the list, its trips are gone from the
    'trips' table, from the trail and chat caches and from the list of
    favourites, no error is logged or shown, and the requests went out in
    the order: read the plan, delete the trips, delete the plan. *)
Theorem delete_plan_success (env : Env) (planId : string) (s : Sys HomeState)
    (plan planError : JsValue) (tripIds : list JsValue) :
  select_plan_tripIds env planId = Ok (plan, planError) ->
  truthy planError = false ->
  truthy plan = true ->
  prop "tripIds" plan = JArr tripIds ->
  delete_trips_reply env = Success ->
  delete_plan_reply env = Success ->
  let s' := snd (handleDeletePlan env planId true s) in
  plansTable (world s') = delete planId (plansTable (world s))
  /\ plansTable (world s') !! planId = None
  /\ (forall plan', In plan' (plans (comp s')) <->
        In plan' (plans (comp s)) /\ same_value (prop "id" plan') (JStr planId) = false)
  /\ tripsTable (world s') = delete_keys tripIds (tripsTable (world s))
  /\ trailCache (world s') = delete_keys tripIds (trailCache (world s))
  /\ chatCache (world s') = delete_keys tripIds (chatCache (world s))
  /\ (forall id, In id tripIds ->
        tripsTable (world s') !! toStringJs id = None
        /\ trailCache (world s') !! toStringJs id = None
        /\ chatCache (world s') !! toStringJs id = None)
  /\ (forall trip, In trip (trips (comp s')) <->
        In trip (trips (comp s))
        /\ array_includes tripIds (or_else (prop "id" trip) (JStr "")) = false)
  /\ new_events (world s) (world s') =
       [AlertShown "Delete Plan" deletePlanQuestion;
        SupabaseRequest "plans" "select"; SupabaseRequest "trips" "delete";
        SupabaseRequest "plans" "delete"].
Proof.
  intros Hsel Herr Hplan Hids Htrips Hdel s'. subst s'.
  rewrite (handleDeletePlan_with_trips env planId s plan planError tripIds
             Hsel Herr Hplan Hids).
  rewrite Htrips, Hdel. simpl.
  split; [reflexivity|]. split; [apply lookup_delete_eq|]. split.
  { intros plan'. rewrite filter_In, negb_true_iff. reflexivity. }
  repeat (split; [reflexivity|]). split.
  { intros id Hin. repeat split; apply delete_keys_gone; exact Hin. }
  split.
  { intros trip. rewrite filter_In, negb_true_iff. reflexivity. }
  erewrite new_events_app; [|simpl; rewrite <- !app_assoc; reflexivity].
  reflexivity.
Qed.

(** X20 at a concrete input: plan [p1] with trip [t1] is deleted, plan
    [p2] and trip [t2] stay on the screen. *)
Lemma delete_plan_success_witness :
  let plan := planRow "p1" (JStr "2025-06-15") [JStr "t1"] in
  let env := homeEnv [] [] [] plan Success Success in
  let s := atHome {| plans := [JObj [("id", JStr "p1")]; JObj [("id", JStr "p2")]];
                     trips := [JObj [("id", JStr "t1")]; JObj [("id", JStr "t2")]];
                     tripDates := ∅; deletingItems := ∅ |} worldWithPlan in
  let s' := snd (handleDeletePlan env "p1" true s) in
  plansTable (world s') !! "p1" = None
  /\ tripsTable (world s') !! "t1" = None
  /\ trailCache (world s') !! "t1" = None
  /\ In (JObj [("id", JStr "p2")]) (plans (comp s'))
  /\ In (JObj [("id", JStr "t2")]) (trips (comp s')).
Proof.
  intros plan env s s'.
  destruct (delete_plan_success env "p1" s plan JNull [JStr "t1"]
              eq_refl eq_refl eq_refl eq_refl eq_refl eq_refl)
    as (_ & Hp & Hplans & _ & _ & _ & Hgone & Htrips & _).
  destruct (Hgone (JStr "t1") ltac:(left; reflexivity)) as (Ht & Hc & _).
  split; [exact Hp|]. split; [exact Ht|]. split; [exact Hc|]. split.
  - apply Hplans. split; [right; left; reflexivity | reflexivity].
  - apply Htrips. split; [right; left; reflexivity | reflexivity].
Defined.

(** *** Removing a favourite *)

(** [handleDeleteTrip] after the user has confirmed, path by path. *)
Lemma handleDeleteTrip_run (env : Env) (update_reply : Reply) (tripId : string)
    (s : Sys HomeState) :
  handleDeleteTrip env update_reply tripId true s =
    let s0 := with_world (emit (SupabaseRequest "auth" "getUser"))
                (confirmed_deletion "Remove Trip" removeTripQuestion tripId s) in
    match auth_getUser env with
    | Throw _ => (Ok tt, favorite_removal_failed tripId s0)
    | Ok (user, userError) =>
        if truthy userError then (Ok tt, favorite_removal_failed tripId s0)
        else if truthy user then
          let s1 := with_world (emit (SupabaseRequest "trips" "update")) s0 in
          match update_reply with
          | Success => (Ok tt, unmark tripId (favorite_removed tripId s1))
          | _ => (Ok tt, favorite_removal_failed tripId s1)
          end
        else
          (Ok tt,
           with_world (emit (ConsoleError
             "User must be logged in to remove trip from favorites")) s0)
    end.
Proof.
  unfold handleDeleteTrip, remove_favorite_task, supabase_update, supabase_getUser,
    setTrips, setDeletingItems.
  unfold_calls. unfold_eff.
  destruct (auth_getUser env) as [[user userError]|e]; simpl; [|reflexivity].
  destruct (truthy userError); simpl; [reflexivity|].
  destruct (truthy user); simpl; [|reflexivity].
  destruct update_reply; reflexivity.
Qed.

Lemma marked_present (id : string) (marks : gset string) : id ∈ marks ∪ {[id]}.
Proof. rewrite elem_of_union, elem_of_singleton. tauto. Qed.

(** X21. With nobody signed in, a favourite that the user removes stays
    marked as being deleted. [handleDeleteTrip] marks the trip, finds no
    user, logs the fact and returns from inside the [try] block: no update
    is requested, no alert is shown, the trip stays in the list and in the
    table, and the mark is not taken off, so the box of that trip is
    rendered with [isDeleting] set. *)
Theorem remove_favorite_signed_out (env : Env) (update_reply : Reply) (tripId : string)
    (s : Sys HomeState) (user userError : JsValue) :
  auth_getUser env = Ok (user, userError) ->
  truthy userError = false ->
  truthy user = false ->
  let s' := snd (handleDeleteTrip env update_reply tripId true s) in
  fst (handleDeleteTrip env update_reply tripId true s) = Ok tt
  /\ tripId ∈ deletingItems (comp s')
  /\ trips (comp s') = trips (comp s)
  /\ stores (world s') = stores (world s)
  /\ new_events (world s) (world s') =
       [AlertShown "Remove Trip" removeTripQuestion;
        SupabaseRequest "auth" "getUser";
        ConsoleError "User must be logged in to remove trip from favorites"]
  /\ (forall trip, prop "id" trip = JStr tripId -> isDeleting (comp s') trip = true).
Proof.
  intros Hauth Herr Huser s'. subst s'.
  rewrite handleDeleteTrip_run, Hauth, Herr, Huser. simpl.
  split; [reflexivity|]. split; [apply marked_present|].
  split; [reflexivity|]. split; [reflexivity|]. split.
  - erewrite new_events_app; [|simpl; rewrite <- !app_assoc; reflexivity].
    reflexivity.
  - intros trip Hid. unfold isDeleting, or_else. rewrite Hid.
    destruct (truthy (JStr tripId)) eqn:Hne.
    + apply bool_decide_eq_true_2, marked_present.
    + simpl in Hne. unfold string_eqb in Hne.
      apply negb_false_iff, bool_decide_eq_true_1 in Hne. subst tripId.
      apply bool_decide_eq_true_2, marked_present.
Qed.

(** X21 at a concrete input: the session has expired while the list of
    favourites is on the screen. *)
Lemma remove_favorite_signed_out_witness :
  let s' := snd (handleDeleteTrip quietEnv Success "t1" true
                   (atHome twoFavorites worldWithFavorite)) in
  "t1" ∈ deletingItems (comp s')
  /\ trips (comp s') = trips twoFavorites
  /\ isDeleting (comp s') (JObj [("id", JStr "t1")]) = true.
Proof.
  intros s'.
  destruct (remove_favorite_signed_out quietEnv Success "t1"
              (atHome twoFavorites worldWithFavorite) JNull JNull
              eq_refl eq_refl eq_refl) as (_ & Hmark & Htrips & _ & _ & Hbox).
  split; [exact Hmark|]. split; [exact Htrips|].
  apply Hbox. reflexivity.
Defined.

(** X22. Removing a favourite keeps the trip. When the update succeeds,
    the row of the trip is still in the 'trips' table, with [bookmarked]
    set to [false] and every other column as it was, the other rows, the
    'plans' table and the trail and chat caches are untouched, the trip is
    gone from the list of favourites and is no longer marked as being
    deleted, and nothing is logged or shown besides the dialog. *)
Theorem remove_favorite_success (env : Env) (tripId : string) (s : Sys HomeState)
    (user userError : JsValue) :
  auth_getUser env = Ok (user, userError) ->
  truthy userError = false ->
  truthy user = true ->
  let s' := snd (handleDeleteTrip env Success tripId true s) in
  fst (handleDeleteTrip env Success tripId true s) = Ok tt
  /\ (forall fields, tripsTable (world s) !! tripId = Some (JObj fields) ->
        exists row, tripsTable (world s') !! tripId = Some row
                    /\ prop "bookmarked" row = JBool false
                    /\ forall k, k <> "bookmarked" -> prop k row = prop k (JObj fields))
  /\ (tripsTable (world s) !! tripId = None -> tripsTable (world s') !! tripId = None)
  /\ (forall k, k <> tripId -> tripsTable (world s') !! k = tripsTable (world s) !! k)
  /\ plansTable (world s') = plansTable (world s)
  /\ trailCache (world s') = trailCache (world s)
  /\ chatCache (world s') = chatCache (world s)
  /\ (forall trip, In trip (trips (comp s')) <->
        In trip (trips (comp s)) /\ same_value (prop "id" trip) (JStr tripId) = false)
  /\ plans (comp s') = plans (comp s)
  /\ deletingItems (comp s') = deletingItems (comp s) ∖ {[tripId]}
  /\ new_events (world s) (world s') =
       [AlertShown "Remove Trip" removeTripQuestion;
        SupabaseRequest "auth" "getUser"; SupabaseRequest "trips" "update"].
Proof.
  intros Hauth Herr Huser s'. subst s'.
  rewrite handleDeleteTrip_run, Hauth, Herr, Huser. simpl.
  split; [reflexivity|]. split.
  { intros fields Hrow. rewrite lookup_alter_eq, Hrow. simpl.
    eexists. split; [reflexivity|]. simpl. split.
    - rewrite assoc_assoc_set. reflexivity.
    - intros k Hk. rewrite assoc_assoc_set. unfold string_eqb.
      rewrite (bool_decide_eq_false_2 _ Hk). reflexivity. }
  split; [intros Hnone; rewrite lookup_alter_eq, Hnone; reflexivity|].
  split; [intros k Hk; apply lookup_alter_ne; congruence|].
  do 3 (split; [reflexivity|]). split.
  { intros trip. rewrite filter_In, negb_true_iff. reflexivity. }
  split; [reflexivity|]. split; [apply unmark_marked|].
  erewrite new_events_app; [|simpl; rewrite <- !app_assoc; reflexivity].
  reflexivity.
Qed.

(** X22 at a concrete input: favourite [t1] of the signed-in user. *)
Lemma remove_favorite_success_witness :
  let env := homeEnv [] [] [] JNull Success Success in
  let s' := snd (handleDeleteTrip env Success "t1" true
                   (atHome twoFavorites worldWithFavorite)) in
  (exists row, tripsTable (world s') !! "t1" = Some row
               /\ prop "bookmarked" row = JBool false
               /\ prop "trip_id" row = JStr "t1")
  /\ trailCache (world s') !! "t1" = Some eagleRock
  /\ In (JObj [("id", JStr "t2")]) (trips (comp s'))
  /\ deletingItems (comp s') = ∅ ∖ {["t1"]}.
Proof.
  intros env s'.
  destruct (remove_favorite_success env "t1" (atHome twoFavorites worldWithFavorite)
              signedIn JNull eq_refl eq_refl eq_refl)
    as (_ & Hrow & _ & _ & _ & Hcache & _ & Htrips & _ & Hmarks & _).
  split.
  - destruct (Hrow [("trip_id", JStr "t1"); ("bookmarked", JBool true)] eq_refl)
      as (row & Hr & Hb & Hk).
    exists row. split; [exact Hr|]. split; [exact Hb|].
    rewrite Hk by discriminate. reflexivity.
  - split; [subst s'; rewrite Hcache; reflexivity|].
    split; [|exact Hmarks].
    apply Htrips. split; [right; left; reflexivity | reflexivity].
Defined.

(** X23. A removal that fails changes nothing. When the request for the
    user or the update is answered with an error or rejected,
    [handleDeleteTrip] returns without throwing, the tables, the caches and
    the two lists are what they were, the error is logged and the alert
    "Could not remove trip from favorites." is the last thing shown, and the
    trip is no longer marked as being deleted. *)
Theorem remove_favorite_failure (env : Env) (update_reply : Reply) (tripId : string)
    (s : Sys HomeState) :
  match auth_getUser env with
  | Throw _ => True
  | Ok (user, userError) =>
      truthy userError = true \/ (truthy user = true /\ update_reply <> Success)
  end ->
  let s' := snd (handleDeleteTrip env update_reply tripId true s) in
  fst (handleDeleteTrip env update_reply tripId true s) = Ok tt
  /\ stores (world s') = stores (world s)
  /\ trips (comp s') = trips (comp s)
  /\ plans (comp s') = plans (comp s)
  /\ deletingItems (comp s') = deletingItems (comp s) ∖ {[tripId]}
  /\ List.filter is_console_error (new_events (world s) (world s'))
     = [ConsoleError "Error removing trip from favorites:"]
  /\ last (events (world s'))
     = Some (AlertShown "Error" "Could not remove trip from favorites.").
Proof.
  intros Hfail s'. subst s'. rewrite handleDeleteTrip_run.
  destruct (auth_getUser env) as [[user userError]|e].
  - destruct Hfail as [Herr | [Huser Hreply]].
    + rewrite Herr. simpl. split; [reflexivity|]. do 3 (split; [reflexivity|]).
      split; [apply unmark_marked|]. split; [|apply last_snoc].
      erewrite new_events_app; [|simpl; rewrite <- !app_assoc; reflexivity].
      reflexivity.
    + destruct (truthy userError).
      * simpl. split; [reflexivity|]. do 3 (split; [reflexivity|]).
        split; [apply unmark_marked|]. split; [|apply last_snoc].
        erewrite new_events_app; [|simpl; rewrite <- !app_assoc; reflexivity].
        reflexivity.
      * rewrite Huser.
        destruct update_reply as [|msg|msg]; [congruence| |]; simpl;
          (split; [reflexivity|]); (do 3 (split; [reflexivity|]));
          (split; [apply unmark_marked|]); (split; [|apply last_snoc]);
          (erewrite new_events_app; [|simpl; rewrite <- !app_assoc; reflexivity]);
          reflexivity.
  - simpl. split; [reflexivity|]. do 3 (split; [reflexivity|]).
    split; [apply unmark_marked|]. split; [|apply last_snoc].
    erewrite new_events_app; [|simpl; rewrite <- !app_assoc; reflexivity].
    reflexivity.
Qed.

(** X23 at a concrete input: the backend refuses the update of [t1]. *)
Lemma remove_favorite_failure_witness :
  let env := homeEnv [] [] [] JNull Success Success in
  let s := atHome twoFavorites worldWithFavorite in
  let s' := snd (handleDeleteTrip env (ErrorReply "permission denied") "t1" true s) in
  stores (world s') = stores (world s)
  /\ trips (comp s') = trips twoFavorites
  /\ last (events (world s'))
     = Some (AlertShown "Error" "Could not remove trip from favorites.").
Proof.
  intros env s s'.
  destruct (remove_favorite_failure env (ErrorReply "permission denied") "t1" s)
    as (_ & Hst & Htrips & _ & _ & _ & Hlast).
  { right. split; [reflexivity | discriminate]. }
  split; [exact Hst|]. split; [exact Htrips | exact Hlast].
Defined.

(** *** The tabs of the home screen *)

(** X24. The tab the user picks is the tab the app comes back to. After
    [handleTabChange] and the [saveTabPreference] that follows the change,
    with the storage accepting the write, the name of the tab is stored
    under ["activeTab"] and no other key of the storage has changed; a
    [loadSavedTab] on that storage, in a component mounted later with any
    value of [activeTab] and any history, makes the picked tab the active
    one. *)
Theorem saved_tab_round_trip (env env' : Env) (s : Sys (option string)) (tab : string) :
  tab <> "" -> setItem_rejects env = false -> getItem_rejects env' = false ->
  let picked := snd (handleTabChange tab s) in
  let saved := snd (saveTabPreference env picked) in
  comp saved = Some tab
  /\ asyncStorage (world saved) !! "activeTab" = Some tab
  /\ (forall k, k <> "activeTab" ->
        asyncStorage (world saved) !! k = asyncStorage (world s) !! k)
  /\ (forall later : Sys (option string),
        asyncStorage (world later) = asyncStorage (world saved) ->
        loadSavedTab env' later = (Ok tt, with_comp (fun _ => Some tab) later)).
Proof.
  intros Hne Hset Hget picked saved.
  assert (Hp : picked = with_comp (fun _ => Some tab) s
               \/ (picked = s /\ comp s = Some tab)).
  { subst picked. unfold handleTabChange, setActiveTab. unfold_eff.
    case_bool_decide as Hsame; [right | left]; auto. }
  assert (Hc : comp picked = Some tab) by (destruct Hp as [-> | [-> H]]; auto).
  assert (Hw : world picked = world s) by (destruct Hp as [-> | [-> H]]; auto).
  assert (Hs : saved = with_world (fun w => set_asyncStorage
                         (<["activeTab" := tab]> (asyncStorage w)) w) picked).
  { subst saved. unfold saveTabPreference. unfold_calls. unfold_eff.
    rewrite Hc, Hset. simpl. unfold string_eqb.
    rewrite (bool_decide_eq_false_2 _ Hne). reflexivity. }
  rewrite Hs. simpl. rewrite Hw.
  split; [exact Hc|]. split; [apply lookup_insert_eq|].
  split; [intros k Hk; apply lookup_insert_ne; congruence|].
  intros later Hlater.
  unfold loadSavedTab, setActiveTab. unfold_calls. unfold_eff.
  rewrite Hget. simpl. rewrite Hlater, lookup_insert_eq. simpl.
  unfold string_eqb. rewrite (bool_decide_eq_false_2 _ Hne). reflexivity.
Qed.

(** X24 at a concrete input: the user presses "My Plans" on the
    favourites tab, and the app is started again. *)
Lemma saved_tab_round_trip_witness :
  let s := {| comp := Some "favorites"; world := emptyWorld |} in
  let saved := snd (saveTabPreference quietEnv (snd (handleTabChange "plans" s))) in
  comp saved = Some "plans"
  /\ asyncStorage (world saved) !! "activeTab" = Some "plans"
  /\ comp (snd (loadSavedTab quietEnv {| comp := None; world := stores (world saved) |}))
     = Some "plans".
Proof.
  intros s saved.
  destruct (saved_tab_round_trip quietEnv quietEnv s "plans"
              ltac:(discriminate) eq_refl eq_refl) as (Hc & Hst & _ & Hload).
  split; [exact Hc|]. split; [exact Hst|].
  rewrite (Hload {| comp := None; world := stores (world saved) |} eq_refl).
  reflexivity.
Defined.

(** X25. Without a saved tab the home screen shows no list. [Home]
    lists the favourites for the tab ["favorites"], the plans for the tab
    ["plans"], and nothing for any other value of [activeTab]; a freshly
    mounted [Home] has none, and [loadSavedTab] sets one only when the
    storage answers with a non-empty string. So on a device where no tab was
    saved, or whose storage rejects the read, neither list is shown after
    the load, whatever plans and trips have been fetched, and
    [saveTabPreference] has nothing to write. *)
Theorem no_saved_tab_no_list (env : Env) (w : World) (c : HomeState) :
  (forall tab, Home_list tab c <> NoList <-> tab = Some "favorites" \/ tab = Some "plans")
  /\ (getItem_rejects env = true \/ truthy_text (asyncStorage w !! "activeTab") = false ->
      let s' := snd (loadSavedTab env {| comp := None; world := w |}) in
      fst (loadSavedTab env {| comp := None; world := w |}) = Ok tt
      /\ comp s' = None
      /\ Home_list (comp s') c = NoList
      /\ stores (world s') = stores w
      /\ saveTabPreference env s' = (Ok tt, s')).
Proof.
  split.
  - intros tab. unfold Home_list.
    repeat case_bool_decide; split; auto; try discriminate; try congruence.
    intros [H1 | H2]; congruence.
  - intros Hnone. unfold loadSavedTab, setActiveTab. unfold_calls. unfold_eff.
    destruct (getItem_rejects env) eqn:Hget; simpl.
    + repeat split; reflexivity.
    + destruct Hnone as [Hrej | Hfalsy]; [discriminate|].
      rewrite Hfalsy. repeat split; reflexivity.
Qed.

(** X25 at a concrete input: a first start, with the plans and the
    favourites fetched. *)
Lemma no_saved_tab_no_list_witness :
  let s' := snd (loadSavedTab quietEnv {| comp := None; world := emptyWorld |}) in
  comp s' = None /\ Home_list (comp s') twoFavorites = NoList.
Proof.
  intros s'.
  destruct (proj2 (no_saved_tab_no_list quietEnv emptyWorld twoFavorites))
    as (_ & Hc & Hl & _).
  { right. reflexivity. }
  split; [exact Hc | exact Hl].
Defined.

(** *** The route to a trip *)

Lemma array_join_strings (sep : string) (items : list string) :
  array_join sep (map JStr items) = String.concat sep items.
Proof.
  induction items as [|x items IH]; [reflexivity|].
  destruct items as [|y items]; [reflexivity|].
  change (array_join sep (map JStr (x :: y :: items)))
    with (x ++ sep ++ array_join sep (map JStr (y :: items))).
  rewrite IH. reflexivity.
Qed.

Lemma join_opt_joinable (sep : string) (v : JsValue) :
  (exists e, join_opt sep v = Throw e) <-> joinable v = false.
Proof.
  destruct v; simpl; split; eauto; try discriminate; intros [e H]; discriminate.
Qed.

(** X26. What [handleTripPress] sends to the trip screen. The handler
    throws exactly when the trip is [null] or [undefined] or when its
    [highlights] or [amenities] is a value other than [null], [undefined]
    and an array. Otherwise it pushes the route of the trip screen with the
    trip's [id] as [trip_id]; [keyFeatures] and [facilities] are strings, the
    items joined by a comma and a space, and the empty string when the list
    is absent or empty; [bookmarked] is never a falsy value other than
    [false]. For a favourite made of a backend row without an [id] column of
    its own, the [trip_id] that is sent is the row's [trip_id]. *)
Theorem handleTripPress_route (trip : JsValue) :
  ((exists e, handleTripPress trip = Throw e)
   <-> is_nullish trip = true
       \/ joinable (prop "highlights" trip) = false
       \/ joinable (prop "amenities" trip) = false)
  /\ (forall route, handleTripPress trip = Ok route ->
        pathname route = "/(app)/trip"
        /\ assoc "trip_id" (trip_param route) = Some (prop "id" trip)
        /\ (exists features facilities,
              assoc "keyFeatures" (trip_param route) = Some (JStr features)
              /\ assoc "facilities" (trip_param route) = Some (JStr facilities)
              /\ (forall items, prop "highlights" trip = JArr (map JStr items) ->
                    features = String.concat ", " items)
              /\ (is_nullish (prop "highlights" trip) = true -> features = "")
              /\ (forall items, prop "amenities" trip = JArr (map JStr items) ->
                    facilities = String.concat ", " items)
              /\ (is_nullish (prop "amenities" trip) = true -> facilities = ""))
        /\ (exists flag, assoc "bookmarked" (trip_param route) = Some flag
                         /\ (truthy flag = false -> flag = JBool false)))
  /\ (forall fields made,
        List.NoDup (map fst fields) -> assoc "id" fields = None ->
        transform_row "trip_id" (JObj fields) = Ok made ->
        joinable (prop "highlights" (JObj fields)) = true ->
        joinable (prop "amenities" (JObj fields)) = true ->
        exists route, handleTripPress made = Ok route
                      /\ assoc "trip_id" (trip_param route)
                         = Some (prop "trip_id" (JObj fields))
                      /\ assoc "name" (trip_param route) = Some (prop "name" (JObj fields))).
Proof.
  assert (Hjoin : forall v, joinable v = true ->
            exists text, or_else (match join_opt ", " v with
                                  | Ok joined => joined
                                  | Throw _ => JUndefined
                                  end) (JStr "") = JStr text
                         /\ (forall items, v = JArr (map JStr items) ->
                               text = String.concat ", " items)
                         /\ (is_nullish v = true -> text = "")
                         /\ exists joined, join_opt ", " v = Ok joined).
  { intros v Hv. destruct v as [| | | | |items|]; try discriminate Hv; simpl.
    - exists "". repeat split; eauto; discriminate.
    - exists "". repeat split; eauto; discriminate.
    - unfold or_else. simpl. unfold string_eqb.
      destruct (decide (array_join ", " items = "")) as [He|Hne].
      + rewrite (bool_decide_eq_true_2 _ He). simpl. exists "".
        split; [reflexivity|]. split; [|split; [discriminate | eauto]].
        intros strings Hs. injection Hs as ->.
        rewrite <- array_join_strings. symmetry. exact He.
      + rewrite (bool_decide_eq_false_2 _ Hne). simpl. exists (array_join ", " items).
        split; [reflexivity|]. split; [|split; [discriminate | eauto]].
        intros strings Hs. injection Hs as ->. apply array_join_strings. }
  split; [|split].
  - unfold handleTripPress, get.
    destruct (is_nullish trip); simpl; [split; eauto|].
    pose proof (join_opt_joinable ", " (prop "highlights" trip)) as Hh.
    pose proof (join_opt_joinable ", " (prop "amenities" trip)) as Ha.
    destruct (join_opt ", " (prop "highlights" trip)) as [kf|e]; simpl.
    + destruct (join_opt ", " (prop "amenities" trip)) as [fa|e]; simpl.
      * split; [intros [e H]; discriminate|].
        intros [H | [H | H]]; [discriminate | |].
        -- apply Hh in H as [e H]. discriminate.
        -- apply Ha in H as [e H]. discriminate.
      * split; [intros _ | eauto]. right. right. apply Ha. eauto.
    + split; [intros _ | eauto]. right. left. apply Hh. eauto.
  - intros route. unfold handleTripPress, get.
    destruct (is_nullish trip); simpl; [discriminate|].
    destruct (joinable (prop "highlights" trip)) eqn:Hh.
    2:{ apply (proj2 (join_opt_joinable ", " _)) in Hh as [e ->]. discriminate. }
    destruct (joinable (prop "amenities" trip)) eqn:Ha.
    2:{ apply (proj2 (join_opt_joinable ", " _)) in Ha as [e ->].
        destruct (join_opt ", " (prop "highlights" trip)); discriminate. }
    destruct (Hjoin _ Hh) as (features & Hf & Hf1 & Hf2 & kf & Hkf).
    destruct (Hjoin _ Ha) as (facilities & Hg & Hg1 & Hg2 & fa & Hfa).
    rewrite Hkf in Hf |- *. rewrite Hfa in Hg |- *. simpl.
    intros H. injection H as <-. simpl.
    split; [reflexivity|]. split; [reflexivity|]. split.
    + exists features, facilities. rewrite Hf, Hg. repeat split; assumption.
    + eexists. split; [reflexivity|]. unfold or_else.
      destruct (truthy (prop "bookmarked" trip)) eqn:Hb; [congruence | reflexivity].
  - intros fields made Hnd Hno Hmade Hh Ha.
    destruct (transform_row_object "trip_id" fields Hnd) as (obj & Hm & _ & Hid & Hrest).
    rewrite Hm in Hmade. injection Hmade as <-.
    rewrite Hno in Hid.
    unfold handleTripPress, get. simpl.
    assert (Hsame : forall k, k <> "id" -> k <> "image" ->
                      default JUndefined (assoc k obj) = prop k (JObj fields))
      by (intros k H1 H2; rewrite (Hrest k H1 H2); reflexivity).
    rewrite !Hsame by discriminate.
    destruct (Hjoin _ Hh) as (_ & _ & _ & _ & kf & ->).
    destruct (Hjoin _ Ha) as (_ & _ & _ & _ & fa & ->). simpl.
    eexists. split; [reflexivity|]. simpl. rewrite Hid.
    rewrite (Hrest "name") by discriminate. split; reflexivity.
Qed.

(** X26 at a concrete input: a favourite of the backend, made into an
    object and pressed. *)
Lemma handleTripPress_route_witness :
  exists made route,
    transform_row "trip_id" favoriteRow = Ok made
    /\ handleTripPress made = Ok route
    /\ assoc "trip_id" (trip_param route) = Some (JStr "t1")
    /\ assoc "name" (trip_param route) = Some (JStr "Eagle Rock Loop").
Proof.
  assert (Hm : exists made, transform_row "trip_id" favoriteRow = Ok made)
    by (eexists; reflexivity).
  destruct Hm as [made Hm]. exists made.
  destruct (proj2 (proj2 (handleTripPress_route made))
              (match favoriteRow with JObj fields => fields | _ => [] end) made)
    as (route & Hr & Hid & Hname); try reflexivity; try exact Hm.
  { simpl. repeat constructor; simpl; intuition discriminate. }
  exists route. auto.
Defined.

(** *** The contact row *)

Section ContactRowFacts.
Variables (platform : Platform) (encode : string -> Outcome string)
  (rejects : string -> bool).

(** What [Linking_openURL] does. *)
Lemma Linking_openURL_run (url message : string) (s : Sys (list NativeCall)) :
  Linking_openURL rejects url message s =
    (Ok tt,
     if rejects url
     then with_world (emit (AlertShown "Error" message))
            (with_comp (fun calls => (calls ++ [OpenURL url])%list) s)
     else with_comp (fun calls => (calls ++ [OpenURL url])%list) s).
Proof.
  unfold Linking_openURL, native_call. unfold_eff.
  destruct (rejects url); reflexivity.
Qed.

(** X27. Where "Directions" leads. With neither a name nor coordinates
    in [tripData], and so whenever [tripData] is absent, [handleOpenMap]
    opens nothing and tracks nothing. Otherwise it tracks the click and
    encodes the destination, which is the name of the trip when the name is
    truthy, the coordinates being used, as [latitude,longitude], only for a
    trip without a name. When [encodeURIComponent] throws, the handler
    throws with it, on every platform, after the click has been tracked and
    before anything is opened: this is the only way it throws. When the
    destination is encoded, one URL of the maps application is opened on iOS
    and on Android and nothing on any other platform, and an alert is shown
    exactly when the URL could not be opened. No store is touched. *)
Theorem handleOpenMap_destination (p : InfoTabProps) (s : Sys (list NativeCall)) :
  let run := handleOpenMap platform encode rejects p s in
  let data := tripData p in
  let wanted := truthy (get_opt "name" data) || truthy (get_opt "coordinates" data) in
  let tracked := TrackEvent "trip_info_directions_clicked"
                   [("trip_id", tripId_value p); ("trip_name", prop "name" data);
                    ("category", JStr "trip_interaction")] in
  let destination :=
    if truthy (prop "name" data) then toStringJs (prop "name" data)
    else toStringJs (get_opt "latitude" (prop "coordinates" data)) ++ ","
         ++ toStringJs (get_opt "longitude" (prop "coordinates" data)) in
  stores (world (snd run)) = stores (world s)
  /\ (is_nullish data = true -> wanted = false)
  /\ (wanted = false ->
      run = (Ok tt, with_world (emit (ConsoleLog "tripData")) s))
  /\ (forall e, fst run = Throw e <-> wanted = true /\ encode destination = Throw e)
  /\ (forall e, wanted = true -> encode destination = Throw e ->
      comp (snd run) = (comp s ++ [tracked])%list
      /\ new_events (world s) (world (snd run)) = [ConsoleLog "tripData"])
  /\ (forall encoded, wanted = true -> encode destination = Ok encoded ->
      let url := match platform with
                 | Ios => Some ("maps://app?daddr=" ++ encoded)
                 | Android => Some ("google.navigation:q=" ++ encoded)
                 | OtherPlatform => None
                 end in
      fst run = Ok tt
      /\ comp (snd run) = (comp s ++ tracked :: match url with
                                                | Some u => [OpenURL u]
                                                | None => []
                                                end)%list
      /\ new_events (world s) (world (snd run)) =
           ConsoleLog "tripData"
             :: match url with
                | Some u => if rejects u
                            then [AlertShown "Error" "Could not open maps application"]
                            else []
                | None => []
                end).
Proof.
  intros run data wanted tracked destination. subst run.
  assert (Hdest : map_destination data = destination).
  { subst destination. unfold map_destination, or_else.
    destruct (truthy (prop "name" data)); reflexivity. }
  unfold handleOpenMap, native_call. unfold_calls. unfold_eff.
  fold data. fold wanted. rewrite Hdest.
  assert (Hnull : is_nullish data = true -> wanted = false)
    by (intros Hn; subst wanted; unfold get_opt; rewrite Hn; reflexivity).
  destruct wanted eqn:Hwanted; simpl.
  - destruct (encode destination) as [encoded|e0] eqn:Henc; simpl.
    + destruct platform; simpl;
        rewrite ?Linking_openURL_run;
        try (destruct (rejects _) eqn:Hr; simpl);
        (split; [reflexivity|]); (split; [exact Hnull|]);
        (split; [discriminate|]);
        (split; [intros e; split; [discriminate | intros [_ H]; discriminate]|]);
        (split; [intros e _ H; discriminate|]);
        intros encoded' _ H; injection H as <-; simpl; rewrite ?Hr;
        (split; [reflexivity|]);
        (split; [rewrite <- ?app_assoc; reflexivity|]);
        (erewrite new_events_app; [|simpl; rewrite <- ?app_assoc; reflexivity]);
        reflexivity.
    + split; [reflexivity|]. split; [exact Hnull|]. split; [discriminate|].
      split; [intros e; split; [intros H; injection H as <-; auto
                               | intros [_ H]; injection H as <-; reflexivity]|].
      split; [|intros encoded _ H; discriminate].
      intros e _ _. split; [reflexivity|].
      erewrite new_events_app; [|simpl; reflexivity]. reflexivity.
  - split; [reflexivity|]. split; [exact Hnull|]. split; [reflexivity|].
    split; [intros e; split; [discriminate | intros [H _]; discriminate]|].
    split; [intros e H; discriminate | intros encoded H; discriminate].
Qed.

(** X28. "Call Park" and "Website". [handleCall] and
    [handleOpenWebsite] never throw and never touch a store. With no
    [parkContact] (no [parkWebsite]) in [tripData], and so whenever
    [tripData] is absent, they do nothing at all. Otherwise they track the
    click and open exactly one URL: the text of the contact behind [tel:],
    the website as it is; the alert "Could not open phone app" ("Could not
    open website") is shown exactly when that URL could not be opened. *)
Theorem contact_handlers (p : InfoTabProps) (s : Sys (list NativeCall)) :
  let data := tripData p in
  let call := handleCall rejects p s in
  let site := handleOpenWebsite rejects p s in
  let number := "tel:" ++ toStringJs (prop "parkContact" data) in
  let address := toStringJs (prop "parkWebsite" data) in
  fst call = Ok tt /\ fst site = Ok tt
  /\ stores (world (snd call)) = stores (world s)
  /\ stores (world (snd site)) = stores (world s)
  /\ (truthy (get_opt "parkContact" data) = false -> snd call = s)
  /\ (truthy (get_opt "parkWebsite" data) = false -> snd site = s)
  /\ (is_nullish data = true -> snd call = s /\ snd site = s)
  /\ (truthy (get_opt "parkContact" data) = true ->
      comp (snd call) =
        (comp s ++ [TrackEvent "trip_info_phone_clicked"
                      [("trip_id", tripId_value p);
                       ("phone_number", prop "parkContact" data);
                       ("category", JStr "trip_interaction")];
                    OpenURL number])%list
      /\ new_events (world s) (world (snd call)) =
           if rejects number then [AlertShown "Error" "Could not open phone app"] else [])
  /\ (truthy (get_opt "parkWebsite" data) = true ->
      comp (snd site) =
        (comp s ++ [TrackEvent "trip_info_website_clicked"
                      [("trip_id", tripId_value p);
                       ("website_url", prop "parkWebsite" data);
                       ("category", JStr "trip_interaction")];
                    OpenURL address])%list
      /\ new_events (world s) (world (snd site)) =
           if rejects address then [AlertShown "Error" "Could not open website"] else []).
Proof.
  intros data call site number address. subst call site.
  unfold handleCall, handleOpenWebsite, native_call. unfold_eff.
  fold data. fold number. fold address.
  assert (Hnull : is_nullish data = true ->
                  truthy (get_opt "parkContact" data) = false
                  /\ truthy (get_opt "parkWebsite" data) = false)
    by (intros Hn; unfold get_opt; rewrite Hn; split; reflexivity).
  destruct (truthy (get_opt "parkContact" data)) eqn:Hc;
    destruct (truthy (get_opt "parkWebsite" data)) eqn:Hw; simpl;
    rewrite ?Linking_openURL_run;
    try (destruct (rejects number) eqn:Hrn; simpl);
    try (destruct (rejects address) eqn:Hra; simpl);
    (split; [reflexivity|]); (split; [reflexivity|]);
    (split; [reflexivity|]); (split; [reflexivity|]);
    (split; [first [discriminate | reflexivity]|]);
    (split; [first [discriminate | reflexivity]|]);
    (split; [intros Hn; destruct (Hnull Hn); first [discriminate | split; reflexivity]|]);
    (split; [first [discriminate | intros _; split;
               [rewrite <- app_assoc; reflexivity|];
               first [erewrite new_events_app; [|simpl; reflexivity]; reflexivity
                     | apply new_events_refl; reflexivity]]|]);
    first [discriminate | intros _; split;
             [rewrite <- app_assoc; reflexivity|];
             first [erewrite new_events_app; [|simpl; reflexivity]; reflexivity
                   | apply new_events_refl; reflexivity]].
Qed.
End ContactRowFacts.

(** *** The host name that is displayed *)

Lemma strip_prefix_app (p s : string) : strip_prefix p (p ++ s) = Some s.
Proof.
  induction p as [|c p IH]; [destruct s; reflexivity|].
  simpl. rewrite Ascii.eqb_refl. exact IH.
Qed.

Lemma strip_prefix_Some (p s rest : string) :
  strip_prefix p s = Some rest -> s = p ++ rest.
Proof.
  revert s. induction p as [|c p IH]; intros s H.
  - destruct s; injection H as <-; reflexivity.
  - destruct s as [|d s]; [discriminate|]. simpl in H.
    destruct (Ascii.eqb_spec c d) as [->|]; [|discriminate].
    rewrite (IH s H). reflexivity.
Qed.

Lemma strip_prefix_starts_with (p s : string) :
  starts_with p s = match strip_prefix p s with
                    | Some _ => true
                    | None => false
                    end.
Proof.
  revert s. induction p as [|c p IH]; intros s; [destruct s; reflexivity|].
  destruct s as [|d s]; [reflexivity|]. simpl.
  destruct (Ascii.eqb c d); [apply IH | reflexivity].
Qed.

(** [replace] takes out the first occurrence of the pattern, and leaves a
    string without the pattern as it is. *)
Lemma remove_first_spec (p s : string) :
  (includes p s = false /\ remove_first p s = s)
  \/ (includes p s = true
      /\ exists a b, s = a ++ p ++ b /\ remove_first p s = a ++ b
                     /\ forall a' b', s = a' ++ p ++ b' ->
                          (String.length a <= String.length a')%nat).
Proof.
  induction s as [|c s IH].
  - simpl. rewrite strip_prefix_starts_with.
    destruct (strip_prefix p "") as [rest|] eqn:Hp.
    + right. split; [reflexivity|]. exists "", rest.
      split; [apply (strip_prefix_Some _ _ _ Hp)|]. split; [reflexivity|].
      intros; simpl; lia.
    + left. split; reflexivity.
  - cbn [includes remove_first]. rewrite strip_prefix_starts_with.
    destruct (strip_prefix p (String c s)) as [rest|] eqn:Hp.
    + right. split; [reflexivity|]. exists "", rest.
      split; [apply (strip_prefix_Some _ _ _ Hp)|]. split; [reflexivity|].
      intros; simpl; lia.
    + simpl. destruct IH as [[Hno Hsame] | (Hyes & a & b & Hs & Hr & Hmin)].
      * left. rewrite Hno, Hsame. split; reflexivity.
      * right. split; [exact Hyes|]. exists (String c a), b.
        split; [rewrite Hs; reflexivity|]. split; [rewrite Hr; reflexivity|].
        intros a' b' Hs'. destruct a' as [|c' a'].
        -- change ("" ++ p ++ b') with (p ++ b') in Hs'.
           rewrite Hs', strip_prefix_app in Hp. discriminate.
        -- change (String c' a' ++ p ++ b') with (String c' (a' ++ p ++ b')) in Hs'.
           injection Hs' as _ Hs'. specialize (Hmin a' b' Hs'). simpl. lia.
Qed.

(** X29. What [getDisplayUrl] shows. For a string that is no URL it
    returns the string itself. For a URL it returns the host name with the
    first ["www."] taken out, wherever in the host name it stands: a host
    name without ["www."] is returned as it is, a host name that begins with
    ["www."] loses this prefix, and in general the host name is split at the
    leftmost ["www."] and the two parts are put together. *)
Theorem getDisplayUrl_cases (URL_hostname : string -> Outcome string) (url : string) :
  (forall e, URL_hostname url = Throw e -> getDisplayUrl URL_hostname url = url)
  /\ (forall host, URL_hostname url = Ok host ->
        (includes "www." host = false -> getDisplayUrl URL_hostname url = host)
        /\ (forall rest, host = "www." ++ rest -> getDisplayUrl URL_hostname url = rest)
        /\ (includes "www." host = true ->
            exists a b, host = a ++ "www." ++ b
                        /\ getDisplayUrl URL_hostname url = a ++ b
                        /\ forall a' b', host = a' ++ "www." ++ b' ->
                             (String.length a <= String.length a')%nat)).
Proof.
  unfold getDisplayUrl. split.
  - intros e ->. reflexivity.
  - intros host ->. split; [|split].
    + intros Hno. destruct (remove_first_spec "www." host) as [[_ H] | [H _]];
        [exact H | congruence].
    + intros rest ->. reflexivity.
    + intros Hyes. destruct (remove_first_spec "www." host) as [[H _] | [_ H]];
        [congruence | exact H].
Qed.

(** [getDisplayUrl] on sample input. *)
Example getDisplayUrl_examples :
  getDisplayUrl sample_hostname "https://www.nps.gov/yose/index.htm" = "nps.gov"
  /\ getDisplayUrl sample_hostname "https://maps.www.example.org" = "maps.example.org"
  /\ getDisplayUrl sample_hostname "https://recreation.gov" = "recreation.gov"
  /\ getDisplayUrl sample_hostname "call the ranger" = "call the ranger".
Proof. repeat split. Qed.
